(** * Lithops compute backends: Google Cloud Run and IBM VPC

    A shallow embedding of
    - [lithops/serverless/backends/gcp_cloudrun/cloudrun.py]
      (class [GCPCloudRunBackend]) and
    - [lithops/standalone/backends/ibm_vpc/ibm_vpc.py]
      (class [IBMVPCInstanceClient]),
    followed by the properties of the lifecycle specification that these
    two classes are meant to implement.

    Python strings are [string]; Python integers are [Z]; the dictionaries
    returned by the provider APIs are records holding the keys the code
    reads, with [option] fields for keys the code tests with [in].
    Service calls, random names and sleeping are effects: every call is
    appended to a trace and answered by an environment that sees the
    whole history, so that a statement quantified over environments
    covers every execution. *)

From Stdlib Require Import String Ascii List ZArith Lia Bool.
From Stdlib Require Import DecimalString DecimalZ QArith.
Import ListNotations.

#[local] Set Warnings "-register-all".

#[local] Open Scope string_scope.
#[local] Open Scope Z_scope.

(* ===================================================================== *)
(** ** Python string primitives *)
(* ===================================================================== *)

Module PyStr.

(** [s[n:]] *)
Fixpoint drop (n : nat) (s : string) : string :=
  match n, s with
  | O, _ => s
  | S _, EmptyString => EmptyString
  | S k, String _ s' => drop k s'
  end.

(** [s[:n]] *)
Fixpoint take (n : nat) (s : string) : string :=
  match n, s with
  | O, _ => EmptyString
  | S _, EmptyString => EmptyString
  | S k, String c s' => String c (take k s')
  end.

(** [c in s] for a single character *)
Fixpoint mem (c : ascii) (s : string) : bool :=
  match s with
  | EmptyString => false
  | String d s' => Ascii.eqb c d || mem c s'
  end.

(** [s.replace(old, new, count)] for a non-empty [old]: occurrences are
    replaced from the left, without overlap; a negative [count] replaces
    all of them.  [skip] counts the characters of a matched occurrence
    that are still to be dropped. *)
Fixpoint replace_from (skip : nat) (old new : string) (count : Z)
         (s : string) : string :=
  match s with
  | EmptyString => EmptyString
  | String c s' =>
      match skip with
      | S k => replace_from k old new count s'
      | O =>
          if negb (count =? 0) && prefix old s
          then new ++ replace_from (String.length old - 1)%nat old new (count - 1) s'
          else String c (replace_from O old new count s')
      end
  end.

Definition replace (old new : string) (count : Z) (s : string) : string :=
  replace_from O old new count s.

(** [s.replace(old, new)] *)
Definition replace_all (old new s : string) : string := replace old new (-1) s.

(** [s.rfind(sep)]: the highest index at which [sep] occurs *)
Fixpoint rfind (sep s : string) : option nat :=
  match s with
  | EmptyString => if prefix sep EmptyString then Some O else None
  | String _ s' =>
      match rfind sep s' with
      | Some i => Some (S i)
      | None => if prefix sep s then Some O else None
      end
  end.

(** [s.rsplit(sep, 1)] for a non-empty [sep] *)
Definition rsplit1 (sep s : string) : list string :=
  match rfind sep s with
  | Some i => [take i s; drop (i + String.length sep) s]
  | None => [s]
  end.

(** [str(n)] for an integer *)
Definition str_of_int (n : Z) : string := NilZero.string_of_int (Z.to_int n).

(** [int(s)] on a decimal literal with an optional minus sign; [None]
    stands for [ValueError].  (Python also accepts surrounding white
    space, a plus sign and underscores between digits; no string built by
    the code below contains them.) *)
Definition int_of_str (s : string) : option Z :=
  option_map Z.of_int (NilZero.int_of_string s).

(** [sub in s] for strings *)
Definition contains (sub s : string) : bool :=
  match index 0 sub s with Some _ => true | None => false end.

(** [c.isdigit()] for an ASCII character, and [s] made of digits only *)
Definition is_digit (c : ascii) : bool :=
  contains (String c "") "0123456789".

Fixpoint all_digits (s : string) : bool :=
  match s with
  | EmptyString => true
  | String c s' => is_digit c && all_digits s'
  end.

(** [s.lstrip(c)], [s.rstrip(c)] and [s.strip(c)] for one character *)
Fixpoint lstrip (c : ascii) (s : string) : string :=
  match s with
  | EmptyString => EmptyString
  | String x s' => if Ascii.eqb x c then lstrip c s' else s
  end.

Fixpoint rstrip (c : ascii) (s : string) : string :=
  match s with
  | EmptyString => EmptyString
  | String x s' =>
      match rstrip c s' with
      | EmptyString => if Ascii.eqb x c then EmptyString else String x EmptyString
      | r => String x r
      end
  end.

Definition strip (c : ascii) (s : string) : string := rstrip c (lstrip c s).

(** [s.endswith(c)] for one character *)
Fixpoint ends_with (c : ascii) (s : string) : bool :=
  match s with
  | EmptyString => false
  | String x EmptyString => Ascii.eqb x c
  | String _ s' => ends_with c s'
  end.

(** One step of [posixpath.join]: a component that starts with a slash
    replaces the path, any other is appended after a slash, which is
    left out when the path is empty or ends with one. *)
Definition join_step (path b : string) : string :=
  if prefix "/" b then b
  else if String.eqb path "" || ends_with "/" path then path ++ b
  else path ++ "/" ++ b.

(** [os.path.join(a, *p)] *)
Definition path_join (a : string) (p : list string) : string :=
  fold_left join_step p a.

(** [s.split(sep)] for a non-empty [sep]: the first piece and the others.
    [skip] counts the characters of a matched separator that are still to
    be dropped. *)
Fixpoint split_from (skip : nat) (sep s : string) : string * list string :=
  match s with
  | EmptyString => (EmptyString, [])
  | String c s' =>
      match skip with
      | S k => split_from k sep s'
      | O =>
          if prefix sep s
          then (EmptyString,
                let (h, t) := split_from (String.length sep - 1)%nat sep s' in h :: t)
          else let (h, t) := split_from O sep s' in (String c h, t)
      end
  end.

Definition split (sep s : string) : list string :=
  let (h, t) := split_from O sep s in h :: t.

End PyStr.

(* ===================================================================== *)
(** ** Outcomes and the effect monad *)
(* ===================================================================== *)

(** What a Python call does: it returns, it raises, or (for a [while]
    loop run with too little fuel) the model stops before it is done. *)
Inductive outcome (E A : Type) : Type :=
| Returns (a : A)
| Raises (e : E)
| OutOfFuel.
Arguments Returns {E A} a.
Arguments Raises {E A} e.
Arguments OutOfFuel {E A}.

(** A computation over a world [W] (object fields and the call trace). *)
Definition M (W E A : Type) : Type := W -> outcome E A * W.

Definition ret {W E A} (a : A) : M W E A := fun w => (Returns a, w).

Definition raise {W E A} (e : E) : M W E A := fun w => (Raises e, w).

Definition bind {W E A B} (m : M W E A) (k : A -> M W E B) : M W E B :=
  fun w =>
    match m w with
    | (Returns a, w') => k a w'
    | (Raises e, w') => (Raises e, w')
    | (OutOfFuel, w') => (OutOfFuel, w')
    end.

(** [try: m except Exception as e: h e] *)
Definition try_except {W E A} (m : M W E A) (h : E -> M W E A) : M W E A :=
  fun w =>
    match m w with
    | (Raises e, w') => h e w'
    | r => r
    end.

Definition get_world {W E} : M W E W := fun w => (Returns w, w).

Definition modify {W E} (f : W -> W) : M W E unit := fun w => (Returns tt, f w).

Declare Scope py_scope.
Delimit Scope py_scope with py.
Notation "x <- m ;; k" := (bind m (fun x => k))
  (at level 61, m at next level, right associativity) : py_scope.
Notation "m ;;; k" := (bind m (fun _ => k))
  (at level 61, right associativity) : py_scope.

(** [for x in xs: s = body(x, s)] over the local variables [s] that the
    loop assigns. *)
Fixpoint for_each {W E A S} (xs : list A) (body : A -> S -> M W E S) (s : S)
  : M W E S :=
  match xs with
  | [] => ret s
  | x :: xs' => bind (body x s) (for_each xs' body)
  end.

(** The world of an object: its fields and the effects performed so far. *)
Record world (Self Ev : Type) : Type := { self : Self; history : list Ev }.
Arguments self {Self Ev} w.
Arguments history {Self Ev} w.

Definition update_self {Self Ev E} (f : Self -> Self) : M (world Self Ev) E unit :=
  modify (fun w => {| self := f (self w); history := history w |}).

Definition log {Self Ev} (ev : Ev) (w : world Self Ev) : world Self Ev :=
  {| self := self w; history := (history w ++ [ev])%list |}.

(** An effect that returns a value or raises; the environment answers
    from the history so far. *)
Definition perform {Self Ev E A} (ev : Ev) (answer : list Ev -> E + A)
  : M (world Self Ev) E A :=
  fun w =>
    match answer (history w) with
    | inr a => (Returns a, log ev w)
    | inl e => (Raises e, log ev w)
    end.

(** An effect that returns nothing or raises. *)
Definition perform_ {Self Ev E} (ev : Ev) (answer : list Ev -> option E)
  : M (world Self Ev) E unit :=
  perform ev (fun h => match answer h with Some e => inl e | None => inr tt end).

(** [while test(s): s = body(s)] over the local variables [s] of the
    loop; [fuel] bounds the number of times the body runs. *)
Fixpoint while_loop {W E S} (fuel : nat) (test : S -> bool)
         (body : S -> M W E S) (s : S) : M W E S :=
  if test s then
    match fuel with
    | O => fun w => (OutOfFuel, w)
    | S fuel' => bind (body s) (while_loop fuel' test body)
    end
  else ret s.

(** A frame condition on a computation: whatever it does, the fields
    before and after are related by [R] and every effect it adds to the
    history satisfies [P]. *)
Definition keeps {Self Ev E A} (R : Self -> Self -> Prop) (P : Ev -> Prop)
           (m : M (world Self Ev) E A) : Prop :=
  forall w,
    R (self w) (self (snd (m w))) /\
    exists evs, history (snd (m w)) = (history w ++ evs)%list /\ Forall P evs.

(** A computation that returns or raises: it never stops for lack of
    fuel. *)
Definition total {W E A} (m : M W E A) : Prop :=
  forall w, fst (m w) <> OutOfFuel.

(** A computation that raises, whatever the world it starts in. *)
Definition fails {W E A} (m : M W E A) : Prop :=
  forall w, exists e, fst (m w) = Raises e.

(* ===================================================================== *)
(** ** JSON documents, as [res.json()] returns them *)
(* ===================================================================== *)

Inductive json : Type :=
| JNull                                   (* None *)
| JBool (b : bool)
| JNum (q : Q)
| JStr (s : string)
| JArr (items : list json)
| JObj (fields : list (string * json)).   (* a dict, one pair per key *)

(** [d.get(key)] on the items of a dict *)
Fixpoint assoc {A} (key : string) (d : list (string * A)) : option A :=
  match d with
  | [] => None
  | (k, v) :: d' => if String.eqb k key then Some v else assoc key d'
  end.

(** Python truth value of a decoded document *)
Definition truthy (j : json) : bool :=
  match j with
  | JNull => false
  | JBool b => b
  | JNum q => negb (Qeq_bool q 0)
  | JStr s => negb (String.eqb s "")
  | JArr l => match l with [] => false | _ => true end
  | JObj d => match d with [] => false | _ => true end
  end.

(* ===================================================================== *)
(** ** cloudrun.py: [GCPCloudRunBackend] *)
(* ===================================================================== *)

Module CloudRun.

(** One entry of [res['status']['conditions']]. *)
Record condition : Type := { cond_type : string; cond_status : string }.

(** The [status] part of a Knative service resource, as the admin API
    returns it; a key that may be absent is an [option]. *)
Record service : Type := {
  conditions : option (list condition);
  status_url : option string
}.

(** The request body of [services().create]. *)
Record service_body : Type := {
  body_name : string;
  body_namespace : string;
  body_max_scale : string;
  body_revision : string;
  body_concurrency : Z;
  body_timeout : Z;
  body_service_account : string;
  body_image : string;
  body_memory : string;
  body_cpu : string
}.

(** The keys of [payload] that [invoke] reads; the whole payload is
    what is posted. *)
Record payload : Type := {
  executor_id : option string;
  job_id : option string;
  call_id : option string;
  service_route : option string;
  content : json
}.

(** An [AuthorizedSession], identified by its credentials' audience. *)
Record session : Type := { target_audience : string }.

(** A [requests] response: [res.status_code] and [res.json()], which
    raises when the body is not JSON. *)
Record response : Type := { status_code : Z; body : option json }.

Inductive exn : Type :=
| LibraryError (msg : string)      (* raised by a library or service call *)
| KeyError (key : string)
| TypeError
| ValueError
| ZeroDivisionError
| MaximumRetriesReached (res : service)
    (* Exception('Maximum retries reached: {}'.format(res)) *)
| UnableToExtract (e : exn)
    (* Exception("Unable to extract the preinstalled modules ...: {}".format(e)) *)
| FailedRuntimeMeta (meta : json)
    (* Exception('Failed getting runtime metadata: {}'.format(runtime_meta)) *)
| DockerNotFound.

(** Every effect of the class, in the order it happens. *)
Inductive event : Type :=
| EvBuildApi                                  (* credentials file + discovery build *)
| EvBuildDefaultRuntime                       (* docker build and push *)
| EvApiCreate (parent : string) (b : service_body)
| EvApiGet (name : string)
| EvIdToken (target : string)                 (* IDTokenCredentials for an audience *)
| EvPost (s : session) (url : string) (p : payload)
| EvSleep (seconds : Q).

Definition trace := list event.

(** The environment answers each effect from the history so far. *)
Record environment : Type := {
  env_build_api : trace -> option exn;
  env_build_default_runtime : trace -> option exn;
  env_api_create : trace -> string -> service_body -> exn + service;
  env_api_get : trace -> string -> exn + service;
  env_id_token : trace -> string -> option exn;
  env_post : trace -> session -> string -> payload -> exn + response
}.

(** The fields of [self]. *)
Record backend : Type := {
  project_name : string;
  service_account : string;
  runtime_cpus : Z;
  container_runtime_concurrency : Z;
  workers : Z;
  _invoker_sess : option session;
  _invoker_sess_route : string;
  _service_url : option string;
  _api_resource : bool                         (* built or still None *)
}.

Definition Py (A : Type) : Type := M (world backend event) exn A.

Definition set_invoker_sess (s : session) (route : string) (b : backend) : backend :=
  {| project_name := project_name b; service_account := service_account b;
     runtime_cpus := runtime_cpus b;
     container_runtime_concurrency := container_runtime_concurrency b;
     workers := workers b;
     _invoker_sess := Some s; _invoker_sess_route := route;
     _service_url := _service_url b; _api_resource := _api_resource b |}.

Definition set_service_url (u : string) (b : backend) : backend :=
  {| project_name := project_name b; service_account := service_account b;
     runtime_cpus := runtime_cpus b;
     container_runtime_concurrency := container_runtime_concurrency b;
     workers := workers b;
     _invoker_sess := _invoker_sess b; _invoker_sess_route := _invoker_sess_route b;
     _service_url := Some u; _api_resource := _api_resource b |}.

Definition set_api_resource (b : backend) : backend :=
  {| project_name := project_name b; service_account := service_account b;
     runtime_cpus := runtime_cpus b;
     container_runtime_concurrency := container_runtime_concurrency b;
     workers := workers b;
     _invoker_sess := _invoker_sess b; _invoker_sess_route := _invoker_sess_route b;
     _service_url := _service_url b; _api_resource := true |}.

Section Methods.

(** [lithops.version.__version__] and [config.DEFAULT_RUNTIME_NAME] are
    constants of modules outside this class. *)
Variable version : string.
Variable DEFAULT_RUNTIME_NAME : string.
Variable env : environment.

Definition _format_service_name (runtime_name : string) (runtime_memory : Z) : string :=
  "lithops--" ++ PyStr.replace_all "." "-" version
    ++ "--" ++ PyStr.replace_all "." "" runtime_name
    ++ "--" ++ PyStr.str_of_int runtime_memory ++ "mb".

Definition _unformat_service_name (service_name : string) : exn + (string * Z) :=
  match PyStr.rsplit1 "--" service_name with
  | [runtime_name; memory] =>
      let image_name := PyStr.replace "--" "/" 1 runtime_name in
      let image_name := PyStr.replace "--" ":" (-1) image_name in
      match PyStr.int_of_str (PyStr.replace_all "mb" "" memory) with
      | Some m => inr (image_name, m)
      | None => inl ValueError
      end
  | _ => inl ValueError      (* unpacking a one-element list *)
  end.

Definition _build_api_resource : Py unit :=
  (w <- get_world ;;
   if _api_resource (self w) then ret tt
   else perform_ EvBuildApi (env_build_api env) ;;;
        update_self set_api_resource)%py.

Definition service_path (project runtime_name : string) (memory : Z) : string :=
  "namespaces/" ++ project ++ "/services/" ++ _format_service_name runtime_name memory.

Definition _get_service_endpoint (runtime_name : string) (memory : Z) : Py string :=
  (w <- get_world ;;
   match _service_url (self w) with
   | Some u => ret u
   | None =>
       _build_api_resource ;;;
       let name := service_path (project_name (self w)) runtime_name memory in
       res <- perform (EvApiGet name) (fun h => env_api_get env h name) ;;
       match status_url res with
       | Some u => update_self (set_service_url u) ;;; ret u
       | None => raise (KeyError "url")
       end
   end)%py.

Definition _build_invoker_sess (runtime_name : string) (memory : Z)
           (route : string) : Py session :=
  (w <- get_world ;;
   match _invoker_sess (self w) with
   | Some s =>
       if negb (String.eqb route (_invoker_sess_route (self w)))
       then
         endpoint <- _get_service_endpoint runtime_name memory ;;
         let target := endpoint ++ route in
         perform_ (EvIdToken target) (fun h => env_id_token env h target) ;;;
         let s' := {| target_audience := target |} in
         update_self (set_invoker_sess s' route) ;;; ret s'
       else ret s
   | None =>
       endpoint <- _get_service_endpoint runtime_name memory ;;
       let target := endpoint ++ route in
       perform_ (EvIdToken target) (fun h => env_id_token env h target) ;;;
       let s' := {| target_audience := target |} in
       update_self (set_invoker_sess s' route) ;;; ret s'
   end)%py.

Definition _format_image_name (project runtime_name : string) : string :=
  let runtime_name := PyStr.replace_all "_" "-" (PyStr.replace_all "." "" runtime_name) in
  let revision := if PyStr.contains "dev" version then "latest"
                  else PyStr.replace_all "." "" version in
  "gcr.io/" ++ project ++ "/lithops-" ++ runtime_name ++ ":" ++ revision.

(** [_build_default_runtime] shells out to docker; only its success or
    failure matters here. *)
Definition _build_default_runtime : Py unit :=
  perform_ EvBuildDefaultRuntime (env_build_default_runtime env).

(** [data["activationId"]] *)
Definition getitem (data : json) (key : string) : Py json :=
  match data with
  | JObj d => match assoc key d with
              | Some v => ret v
              | None => raise (KeyError key)
              end
  | _ => raise TypeError
  end.

Definition success_status (code : Z) : bool := (code =? 200) || (code =? 202).

Definition invoke (runtime_name : string) (memory : Z) (p : payload)
           (return_result : bool) : Py json :=
  (let route := match service_route p with Some r => r | None => "/" end in
   sess <- _build_invoker_sess runtime_name memory route ;;
   endpoint <- _get_service_endpoint runtime_name memory ;;
   let url := endpoint ++ route in
   res <- perform (EvPost sess url p) (fun h => env_post env h sess url p) ;;
   if success_status (status_code res) then
     match body res with
     | None => raise ValueError
     | Some data => if return_result then ret data else getitem data "activationId"
     end
   else ret JNull)%py.

(** ['preinstalls' in runtime_meta] *)
Definition has_preinstalls (meta : json) : exn + bool :=
  match meta with
  | JObj d => inr (match assoc "preinstalls" d with Some _ => true | None => false end)
  | JArr l => inr (existsb (fun j => match j with
                                     | JStr s => String.eqb s "preinstalls"
                                     | _ => false
                                     end) l)
  | JStr s => inr (PyStr.contains "preinstalls" s)
  | _ => inl TypeError
  end.

Definition preinstalls_route : payload :=
  {| executor_id := None; job_id := None; call_id := None;
     service_route := Some "/preinstalls";
     content := JObj [("service_route", JStr "/preinstalls")] |}.

Definition _generate_runtime_meta (runtime_name : string) (memory : Z) : Py json :=
  (runtime_meta <- try_except (invoke runtime_name memory preinstalls_route true)
                              (fun e => raise (UnableToExtract e)) ;;
   if negb (truthy runtime_meta) then raise (FailedRuntimeMeta runtime_meta)
   else match has_preinstalls runtime_meta with
        | inl e => raise e
        | inr true => ret runtime_meta
        | inr false => raise (FailedRuntimeMeta runtime_meta)
        end)%py.

(** [all(cond['status'] == 'True' for cond in conditions)] *)
Definition all_true (conds : list condition) : bool :=
  forallb (fun c => String.eqb (cond_status c) "True") conds.

(** [time.sleep((1 / retry) * 25)]; the delay is kept as an exact
    fraction. *)
Definition sleep_for (retry : Z) : Py unit :=
  if retry =? 0 then raise ZeroDivisionError
  else if retry <? 0 then raise ValueError
  else let seconds := (/ inject_Z retry * 25)%Q in
       perform_ (EvSleep seconds) (fun _ => None).

(** The body of the loop "Wait until service is up"; the loop's local
    variables are [ready] and [retry]. *)
Definition poll_service (runtime_name : string) (memory : Z)
           (vars : bool * Z) : Py (bool * Z) :=
  (let retry := snd vars in
   _build_api_resource ;;;
   w <- get_world ;;
   let name := service_path (project_name (self w)) runtime_name memory in
   res <- perform (EvApiGet name) (fun h => env_api_get env h name) ;;
   match conditions res with
   | None => raise (KeyError "conditions")
   | Some conds =>
       let ready := all_true conds in
       if negb ready then
         sleep_for retry ;;;
         let retry := retry - 1 in
         if retry =? 0 then raise (MaximumRetriesReached res)
         else ret (ready, retry)
       else
         match status_url res with
         | Some u => update_self (set_service_url u) ;;; ret (ready, retry)
         | None => raise (KeyError "url")
         end
   end)%py.

Definition wait_until_up (fuel : nat) (runtime_name : string) (memory : Z)
  : Py (bool * Z) :=
  while_loop fuel (fun vars => negb (fst vars))
             (poll_service runtime_name memory) (false, 15).

Definition create_body (b : backend) (runtime_name : string) (memory timeout : Z)
  : service_body :=
  let service_name := _format_service_name runtime_name memory in
  {| body_name := service_name;
     body_namespace := project_name b;
     body_max_scale := PyStr.str_of_int (workers b);
     body_revision := service_name ++ "-rev";
     body_concurrency := container_runtime_concurrency b;
     body_timeout := timeout;
     body_service_account := service_account b;
     body_image := _format_image_name (project_name b) runtime_name;
     body_memory := PyStr.str_of_int memory ++ "Mi";
     body_cpu := PyStr.str_of_int (runtime_cpus b) |}.

Definition create_runtime (fuel : nat) (runtime_name : string)
           (memory timeout : Z) : Py json :=
  ((if String.eqb runtime_name DEFAULT_RUNTIME_NAME
    then _build_default_runtime else ret tt) ;;;
   w <- get_world ;;
   let b := create_body (self w) runtime_name memory timeout in
   let parent := "namespaces/" ++ project_name (self w) in
   _build_api_resource ;;;
   perform (EvApiCreate parent b) (fun h => env_api_create env h parent b) ;;;
   wait_until_up fuel runtime_name memory ;;;
   _generate_runtime_meta runtime_name memory)%py.

Definition get_runtime_key (b : backend) (runtime_name : string) (memory : Z) : string :=
  let service_name := _format_service_name runtime_name memory in
  PyStr.path_join (project_name b) [service_name].

End Methods.

(** *** Vocabulary of the properties *)

(** The effects of [k] rounds of the waiting loop that found the service
    not ready: a [get] and a sleep each, the budget going down from 15. *)
Fixpoint waited (name : string) (k : nat) : trace :=
  match k with
  | O => []
  | S k' => waited name k'
              ++ [EvApiGet name; EvSleep (/ inject_Z (15 - Z.of_nat k') * 25)%Q]
  end%list.

(** A polled status in which every condition reports ['True']. *)
Definition ready (r : service) : bool :=
  match conditions r with
  | Some conds => all_true conds
  | None => false
  end.

(** What [create_runtime] does before it creates the service: it builds
    the default image for the default runtime name, and the admin API
    session unless the backend holds one. *)
Definition default_build (DEFAULT_RUNTIME_NAME runtime_name : string) : trace :=
  if String.eqb runtime_name DEFAULT_RUNTIME_NAME then [EvBuildDefaultRuntime] else [].

Definition preparation (DEFAULT_RUNTIME_NAME runtime_name : string) (b : backend)
  : trace :=
  (default_build DEFAULT_RUNTIME_NAME runtime_name
     ++ (if _api_resource b then [] else [EvBuildApi]))%list.

(** The world after [k] rounds that found the service not ready. *)
Definition after_rounds (w0 : world backend event) (name : string) (k : nat)
  : world backend event :=
  {| self := self w0; history := (history w0 ++ waited name k)%list |}.

(** The answer of the control plane to the poll that comes after [k]
    rounds that found the service not ready, in a loop entered after
    the history [h]. *)
Definition polled (env : environment) (h : trace) (name : string) (k : nat)
  : exn + service :=
  env_api_get env (h ++ waited name k)%list name.

(** An answer that lists the conditions, one of them not ['True']. *)
Definition still_waiting (a : exn + service) : Prop :=
  exists r conds,
    a = inr r /\ conditions r = Some conds
    /\ Exists (fun c => cond_status c <> "True"%string) conds.

(** An answer in which every condition is ['True'], with the URL [u]. *)
Definition up_at (a : exn + service) (u : string) : Prop :=
  exists r conds,
    a = inr r /\ conditions r = Some conds
    /\ Forall (fun c => cond_status c = "True"%string) conds
    /\ status_url r = Some u.

(** Counting the effects of one kind, and the seconds slept. *)
Definition is_post (ev : event) : bool :=
  match ev with EvPost _ _ _ => true | _ => false end.

Definition is_get (ev : event) : bool :=
  match ev with EvApiGet _ => true | _ => false end.

Definition is_sleep (ev : event) : bool :=
  match ev with EvSleep _ => true | _ => false end.

Definition is_create (ev : event) : bool :=
  match ev with EvApiCreate _ _ => true | _ => false end.

Definition count (kind : event -> bool) (evs : trace) : nat :=
  List.length (filter kind evs).

Fixpoint slept (evs : trace) : Q :=
  match evs with
  | [] => 0
  | EvSleep seconds :: rest => seconds + slept rest
  | _ :: rest => slept rest
  end%Q.

(** The pauses of a loop that starts with a budget of [n]:
    25/n + ... + 25/1 seconds. *)
Fixpoint sleep_budget (n : nat) : Q :=
  match n with
  | O => 0
  | S k => / inject_Z (Z.of_nat (S k)) * 25 + sleep_budget k
  end%Q.

(** The effects that provision: building the default image and creating
    the service. *)
Definition provisions (ev : event) : Prop :=
  match ev with
  | EvBuildDefaultRuntime | EvApiCreate _ _ => True
  | _ => False
  end.

End CloudRun.

(** *** Sample runs of the Cloud Run backend *)

Module CloudRunSamples.
Import CloudRun.

(** The backend as [__init__] leaves it. *)
Definition fresh : backend :=
  {| project_name := "proj"; service_account := "sa@proj";
     runtime_cpus := 1; container_runtime_concurrency := 1; workers := 100;
     _invoker_sess := None; _invoker_sess_route := "/";
     _service_url := None; _api_resource := false |}.

(** The backend once the admin API session is built. *)
Definition built : backend := set_api_resource fresh.

(** A service that is still being provisioned, and the same service up. *)
Definition provisioning : service :=
  {| conditions := Some [ {| cond_type := "Ready"; cond_status := "Unknown" |};
                          {| cond_type := "RoutesReady"; cond_status := "True" |} ];
     status_url := Some "https://svc.example" |}.

Definition up : service :=
  {| conditions := Some [ {| cond_type := "Ready"; cond_status := "True" |};
                          {| cond_type := "RoutesReady"; cond_status := "True" |} ];
     status_url := Some "https://svc.example" |}.

Definition gets (h : trace) : nat :=
  List.length (filter (fun ev => match ev with EvApiGet _ => true | _ => false end) h).

(** The statuses of a service that is up at the third poll. *)
Definition third_time (k : nat) : service :=
  if (k <? 2)%nat then provisioning else up.

(** An environment in which nothing fails: the control plane reports
    the status [status_at] says for the number of earlier polls, and the
    unit answers every POST with [code] and [document]. *)
Definition answering (status_at : nat -> service) (code : Z) (document : json)
  : environment :=
  {| env_build_api := fun _ => None;
     env_build_default_runtime := fun _ => None;
     env_api_create := fun _ _ _ => inr provisioning;
     env_api_get := fun h _ => inr (status_at (gets h));
     env_id_token := fun _ _ => None;
     env_post := fun _ _ _ _ => inr {| status_code := code; body := Some document |} |}.

Definition accepted : json := JObj [("activationId", JStr "abc123")].

Definition job : payload :=
  {| executor_id := Some "e0"; job_id := Some "7"; call_id := Some "3";
     service_route := None;
     content := JObj [("x", JNum 1)] |}.

(** A unit that answers 500. *)
Definition failing : environment :=
  answering (fun _ => up) 500 (JObj [("error", JStr "boom")]).

(** The backend after an earlier invocation on the default route. *)
Definition warm : world backend event :=
  {| self := set_invoker_sess {| target_audience := "https://svc.example/" |} "/"
               (set_service_url "https://svc.example" built);
     history := [] |}.

(** The answer of a runtime to the [/preinstalls] probe. *)
Definition modules : json := JObj [("preinstalls", JArr [JStr "numpy"])].

(** The backend after the probe of [create_runtime]. *)
Definition probed : world backend event :=
  {| self := set_invoker_sess {| target_audience := "https://svc.example/preinstalls" |}
               "/preinstalls" (set_service_url "https://svc.example" built);
     history := [] |}.

(** The resource name of runtime [py39] with 256 MB under release 2.2.5. *)
Definition py39 : string := "namespaces/proj/services/lithops--2-2-5--py39--256mb".

End CloudRunSamples.

(* ===================================================================== *)
(** ** ibm_vpc.py: [IBMVPCInstanceClient] *)
(* ===================================================================== *)

Module IbmVpc.

(** [{'id': ..., 'primary_ipv4_address': ...}]: a network interface as an
    instance or a floating IP's [target] refers to it. *)
Record interface : Type := { ni_id : string; primary_ipv4_address : string }.

(** An instance, as [list_instances] and [create_instance] return it. *)
Record instance : Type := {
  inst_name : string;
  inst_id : string;
  primary_network_interface : interface;
  network_interfaces : list interface
}.

(** A floating IP; [target] is present once it is bound. *)
Record floating_ip : Type := {
  fip_name : string;
  fip_id : string;
  fip_address : string;
  fip_target : option interface
}.

(** One entry of [list_instance_network_interfaces]; [floating_ips] may
    be absent. *)
Record nic : Type := { nic_id : string; nic_floating_ips : option (list floating_ip) }.

(** The keys of [self.config] that are only read and passed through. *)
Record settings : Type := {
  security_group_id : string; subnet_id : string; key_id : string;
  volume_tier_name : string; profile_name : string;
  resource_group_id : string; vpc_id : string; image_id : string;
  zone_name : string
}.

Record instance_prototype : Type := {
  proto_name : string;
  proto_boot_name : string;
  proto_volume_name : string;
  proto_settings : settings
}.

Record floating_ip_prototype : Type := {
  fproto_name : string;
  fproto_zone : string;
  fproto_resource_group : string
}.

(** The answer to an instance action: status code and [errors]. *)
Record action_response : Type := { action_status : Z; action_errors : option string }.

(** [get_instance()]: the decoded instance document. *)
Record instance_data : Type := { data_status : option string }.

Inductive exn : Type :=
| ApiException (msg : string)      (* raised by the SDK, the session or the token manager *)
| KeyError (key : string)
| TypeError
| UnboundLocalError
| FormatIndexError
    (* 'Failed to attach floating ip {} to {} : '.format(str(e)) has two
       fields and one argument *)
| ActionUnknown (action : string)
    (* Exception('An error occurred cant create instance action "{}"') *)
| ActionFailed (action errors : string).
    (* Exception('An error occurred creating instance action {}: {}') *)

Inductive event : Type :=
| EvNameGen                                        (* namegenerator.gen() *)
| EvListInstances
| EvCreateInstance (p : instance_prototype)
| EvListFloatingIps
| EvCreateFloatingIp (p : floating_ip_prototype)
| EvAttachFloatingIp (instance_id nic_id fip_id : string)
| EvListInstanceNics (instance_id : option string)
| EvDeleteFloatingIp (fip_id : string)
| EvDeleteInstance (instance_id : option string)
| EvGetToken
| EvPostAction (instance_id action : string)
| EvGetInstance (instance_id : string)
| EvSleep (seconds : Z).

Definition trace := list event.

Record environment : Type := {
  env_namegen : trace -> string;
  env_list_instances : trace -> exn + list instance;
  env_create_instance : trace -> instance_prototype -> exn + instance;
  env_list_floating_ips : trace -> exn + list floating_ip;
  env_create_floating_ip : trace -> floating_ip_prototype -> exn + floating_ip;
  env_attach_floating_ip : trace -> string -> string -> string -> option exn;
  env_list_instance_nics : trace -> option string -> exn + list nic;
  env_delete_floating_ip : trace -> string -> option exn;
  env_delete_instance : trace -> option string -> option exn;
  env_get_token : trace -> option exn;
  env_post_action : trace -> string -> string -> exn + action_response;
  env_get_instance : trace -> string -> exn + instance_data
}.

(** The fields of [self] and the keys of [self.config] that are written. *)
Record client : Type := {
  instance_id : option string;
  ip_address : option string;
  last_instance_data : option instance_data;
  config_instance_id : option string;
  config_ip_address : option string;
  delete_on_dismantle : bool;
  config : settings
}.

Definition Py (A : Type) : Type := M (world client event) exn A.

Definition set_instance_id (i : option string) (c : client) : client :=
  {| instance_id := i; ip_address := ip_address c;
     last_instance_data := last_instance_data c;
     config_instance_id := config_instance_id c;
     config_ip_address := config_ip_address c;
     delete_on_dismantle := delete_on_dismantle c; config := config c |}.

Definition set_config_instance_id (i : option string) (c : client) : client :=
  {| instance_id := instance_id c; ip_address := ip_address c;
     last_instance_data := last_instance_data c;
     config_instance_id := i;
     config_ip_address := config_ip_address c;
     delete_on_dismantle := delete_on_dismantle c; config := config c |}.

Definition set_config_ip_address (a : string) (c : client) : client :=
  {| instance_id := instance_id c; ip_address := ip_address c;
     last_instance_data := last_instance_data c;
     config_instance_id := config_instance_id c;
     config_ip_address := Some a;
     delete_on_dismantle := delete_on_dismantle c; config := config c |}.

Definition set_instance_data (d : instance_data) (c : client) : client :=
  {| instance_id := instance_id c; ip_address := ip_address c;
     last_instance_data := Some d;
     config_instance_id := config_instance_id c;
     config_ip_address := config_ip_address c;
     delete_on_dismantle := delete_on_dismantle c; config := config c |}.

Section Methods.

Variable env : environment.

(** [job_key] and [call_id] are the strings the job layer passes ([str]
    of a string is the string); [None] is the default of [create]. *)
Definition _generate_name (r_type : string) (job_key call_id : option string)
  : Py string :=
  match job_key, call_id with
  | Some job_key, Some call_id =>
      ret ("lithops" ++ job_key ++ "-" ++ call_id ++ "-" ++ r_type)
  | _, _ =>
      (g <- perform EvNameGen (fun h => inr (env_namegen env h)) ;;
       ret ("lithops-" ++ g ++ "-" ++ r_type))%py
  end.

Definition _create_instance (job_key call_id : option string) : Py instance :=
  (w <- get_world ;;
   volume <- _generate_name "volume" job_key call_id ;;
   boot <- _generate_name "boot" job_key call_id ;;
   name <- _generate_name "instance" job_key call_id ;;
   let p := {| proto_name := name; proto_boot_name := boot;
               proto_volume_name := volume;
               proto_settings := config (self w) |} in
   perform (EvCreateInstance p) (fun h => env_create_instance env h p))%py.

(** [for vip in floating_ip_list: if vip['name'] == name: floating_ip = vip] *)
Definition find_floating_ip (name : string) (l : list floating_ip)
  : option floating_ip :=
  fold_left (fun found vip => if String.eqb (fip_name vip) name then Some vip else found)
            l None.

(** The test "floating ip already attached" of
    [_create_and_attach_floating_ip]. *)
Definition already_attached (fip : floating_ip) (primary_ni : interface) : bool :=
  match fip_target fip with
  | Some t => String.eqb (primary_ipv4_address t) (primary_ipv4_address primary_ni)
              && String.eqb (ni_id t) (ni_id primary_ni)
  | None => false
  end.

Definition _create_and_attach_floating_ip (inst : instance)
           (job_key call_id : option string) : Py string :=
  (floating_ip_name <- _generate_name "fip" job_key call_id ;;
   found <- try_except
              (l <- perform EvListFloatingIps (env_list_floating_ips env) ;;
               ret (find_floating_ip floating_ip_name l))
              (fun _ => ret None) ;;
   w <- get_world ;;
   fip <- match found with
          | Some fip => ret fip
          | None =>
              let p := {| fproto_name := floating_ip_name;
                          fproto_zone := zone_name (config (self w));
                          fproto_resource_group := resource_group_id (config (self w)) |} in
              try_except
                (perform (EvCreateFloatingIp p) (fun h => env_create_floating_ip env h p))
                (fun e => raise e)
          end ;;
   if already_attached fip (primary_network_interface inst)
   then ret (fip_address fip)
   else
     try_except
       (match network_interfaces inst with
        | [] => raise FormatIndexError          (* replaced by the handler *)
        | ni0 :: _ =>
            perform_ (EvAttachFloatingIp (inst_id inst) (ni_id ni0) (fip_id fip))
                     (fun h => env_attach_floating_ip env h (inst_id inst) (ni_id ni0)
                                                     (fip_id fip))
        end)
       (fun _ => raise FormatIndexError) ;;;
     ret (fip_address fip))%py.

(** The floating IPs of the interfaces, in the order the two nested
    loops of [_delete_instance] visit them. *)
Definition attached_floating_ips (nics : list nic) : list floating_ip :=
  flat_map (fun n => match nic_floating_ips n with Some l => l | None => [] end) nics.

Definition _delete_instance : Py unit :=
  (w <- get_world ;;
   let id := config_instance_id (self w) in
   nics <- perform (EvListInstanceNics id) (fun h => env_list_instance_nics env h id) ;;
   for_each nics
     (fun n (_ : unit) =>
        match nic_floating_ips n with
        | Some fips =>
            for_each fips
              (fun fip (_ : unit) =>
                 perform_ (EvDeleteFloatingIp (fip_id fip))
                          (fun h => env_delete_floating_ip env h (fip_id fip)))
              tt
        | None => ret tt
        end) tt ;;;
   perform_ (EvDeleteInstance id) (fun h => env_delete_instance env h id))%py.

(** The loop "check if VSI exists" of [create].  Its variables are
    [vsi_exists] and the loop variable [instance], which stays bound to
    the last element once the loop is over. *)
Definition check_vsi (job_key call_id : option string) (inst : instance)
           (vars : bool * option instance) : Py (bool * option instance) :=
  (name <- _generate_name "instance" job_key call_id ;;
   if String.eqb (inst_name inst) name
   then update_self (set_instance_id (Some (inst_id inst))) ;;;
        ret (true, Some inst)
   else ret (fst vars, Some inst))%py.

(** The first half of [create], up to the creation of the instance; it
    leaves [vsi_exists] and the variable [instance]. *)
Definition lookup_or_create (job_key call_id : option string)
  : Py (bool * option instance) :=
  (update_self (set_instance_id None) ;;;
   all_instances <- perform EvListInstances (env_list_instances env) ;;
   vars <- for_each all_instances (check_vsi job_key call_id) (false, None) ;;
   let vsi_exists := fst vars in
   if negb vsi_exists then
     try_except
       (inst <- _create_instance job_key call_id ;;
        update_self (set_instance_id (Some (inst_id inst))) ;;;
        update_self (set_config_instance_id (Some (inst_id inst))) ;;;
        ret (vsi_exists, Some inst))
       (fun e => raise e)
   else ret vars)%py.

Definition create (job_key call_id : option string) : Py (option string * string) :=
  (vars <- lookup_or_create job_key call_id ;;
   try_except
     (inst <- match snd vars with
              | Some inst => ret inst
              | None => raise UnboundLocalError
              end ;;
      floating_ip <- _create_and_attach_floating_ip inst job_key call_id ;;
      update_self (set_config_ip_address floating_ip) ;;;
      w <- get_world ;;
      ret (instance_id (self w), floating_ip))
     (fun e => _delete_instance ;;; raise e))%py.

Definition _authorize_session : Py unit :=
  perform_ EvGetToken (env_get_token env).

Definition get_instance : Py instance_data :=
  (w <- get_world ;;
   match instance_id (self w) with
   | None => raise TypeError                 (* None + str *)
   | Some id =>
       _authorize_session ;;;
       perform (EvGetInstance id) (fun h => env_get_instance env h id)
   end)%py.

(** [self.instance_data['status'] != expected_status] *)
Definition status_differs (expected : string) (d : instance_data) : exn + bool :=
  match data_status d with
  | Some s => inr (negb (String.eqb s expected))
  | None => inl (KeyError "status")
  end.

(** The body of the [while] loop of [create_instance_action].  The test
    of the loop reads [self.instance_data['status']]; a document without
    that key raises here, where the test would read it. *)
Definition poll_instance (expected : string) (_ : instance_data) : Py instance_data :=
  (perform_ (EvSleep 1) (fun _ => None) ;;;
   d <- get_instance ;;
   update_self (set_instance_data d) ;;;
   match status_differs expected d with
   | inl e => raise e
   | inr _ => ret d
   end)%py.

Definition create_instance_action (fuel : nat) (action : string) : Py unit :=
  (expected_status <-
     (if String.eqb action "start" || String.eqb action "reboot" then ret "running"
      else if String.eqb action "stop" then ret "stopped"
      else raise (ActionUnknown action)) ;;
   w <- get_world ;;
   match config_instance_id (self w) with
   | None => raise TypeError              (* '/'.join of a list holding None *)
   | Some id =>
       _authorize_session ;;;
       res <- perform (EvPostAction id action) (fun h => env_post_action env h id action) ;;
       if negb (action_status res =? 201) then
         match action_errors res with
         | Some errors => raise (ActionFailed action errors)
         | None => raise (KeyError "errors")
         end
       else
         d <- get_instance ;;
         update_self (set_instance_data d) ;;;
         match status_differs expected_status d with
         | inl e => raise e
         | inr _ =>
             while_loop fuel
               (fun d => match status_differs expected_status d with
                         | inr b => b
                         | inl _ => false
                         end)
               (poll_instance expected_status) d ;;;
             ret tt
         end
   end)%py.

Definition start (fuel : nat) : Py unit := create_instance_action fuel "start".

(** [self.region] of [__init__]: [endpoint.split('//')[1].split('.')[0]];
    [None] stands for the [IndexError] of an endpoint without ['//']. *)
Definition region_of (endpoint : string) : option string :=
  match PyStr.split "//" endpoint with
  | _ :: host :: _ => hd_error (PyStr.split "." host)
  | _ => None
  end.

(** [get_runtime_key]; [self.name] is ['ibm_vpc'], and a component that
    is [None] makes [os.path.join] raise [TypeError]. *)
Definition get_runtime_key (c : client) (runtime_name : string) : exn + string :=
  match ip_address c, instance_id c with
  | Some ip, Some id =>
      inr (PyStr.path_join "ibm_vpc" [ip; id; PyStr.strip "/" runtime_name])
  | _, _ => inl TypeError
  end.

Definition stop (fuel : nat) : Py unit :=
  (w <- get_world ;;
   if delete_on_dismantle (self w) then _delete_instance
   else create_instance_action fuel "stop")%py.

End Methods.

(** *** Vocabulary of the properties *)

(** The name that [_generate_name] returns for a job key and a call id. *)
Definition scoped_name (r_type job_key call_id : string) : string :=
  "lithops" ++ job_key ++ "-" ++ call_id ++ "-" ++ r_type.
#[global] Arguments scoped_name : simpl never.

(** A string without the separator of [_generate_name]. *)
Definition dash_free (s : string) : Prop := PyStr.mem "-" s = false.

(** The listed instance that the loop of [create] adopts for [name]:
    the last one that bears it. *)
Definition last_named (name : string) (insts : list instance) : option instance :=
  find (fun i => String.eqb (inst_name i) name) (rev insts).

(** The loop variable once the loop is over. *)
Definition last_visited (insts : list instance) : option instance :=
  hd_error (rev insts).

Definition creates_instance (ev : event) : Prop :=
  match ev with EvCreateInstance _ => True | _ => False end.

(** Allocating a floating IP or attaching one. *)
Definition binds_address (ev : event) : Prop :=
  match ev with
  | EvCreateFloatingIp _ | EvAttachFloatingIp _ _ _ => True
  | _ => False
  end.

(** Releasing a floating IP or deleting an instance. *)
Definition releases (ev : event) : Prop :=
  match ev with
  | EvDeleteFloatingIp _ | EvDeleteInstance _ => True
  | _ => False
  end.

(** What [create_instance_action('stop')] may do. *)
Definition suspends (ev : event) : Prop :=
  match ev with
  | EvGetToken | EvGetInstance _ | EvSleep _ => True
  | EvPostAction _ action => action = "stop"%string
  | _ => False
  end.

(** The status that [create_instance_action] waits for. *)
Definition expected_status (action : string) : option string :=
  if String.eqb action "start" || String.eqb action "reboot" then Some "running"
  else if String.eqb action "stop" then Some "stopped"
  else None.

(** The calls of a complete [_delete_instance] on instance [id] whose
    interfaces are [nics]. *)
Definition teardown (id : option string) (nics : list nic) : trace :=
  (EvListInstanceNics id
     :: map (fun fip => EvDeleteFloatingIp (fip_id fip)) (attached_floating_ips nics)
     ++ [EvDeleteInstance id])%list.

(** The name that [_generate_name] builds on the draw made after the
    history [h]. *)
Definition drawn_name (env : environment) (r_type : string) (h : trace) : string :=
  "lithops-" ++ env_namegen env h ++ "-" ++ r_type.

(** The loop of [create] for an identity that lacks a component, entered
    after the history [h]: every listed instance is compared with a name
    of its own draw, and the last one that equals its draw is kept. *)
Fixpoint last_hit (env : environment) (h : trace) (insts : list instance)
  : option instance :=
  match insts with
  | [] => None
  | i :: rest =>
      match last_hit env (h ++ [EvNameGen])%list rest with
      | Some j => Some j
      | None => if String.eqb (inst_name i) (drawn_name env "instance" h)
                then Some i else None
      end
  end.

(** The releases of the floating IPs [fips], one after the other. *)
Definition releases_of (fips : list floating_ip) : trace :=
  map (fun fip => EvDeleteFloatingIp (fip_id fip)) fips.

(** After the history [h] the service accepts the release of each of
    [fips] in turn. *)
Definition releasable (env : environment) (h : trace) (fips : list floating_ip) : Prop :=
  forall done fip rest,
    fips = (done ++ fip :: rest)%list ->
    env_delete_floating_ip env (h ++ releases_of done)%list (fip_id fip) = None.

(** [l] is what a computation did before it stopped in the middle of [full]. *)
Definition prefix_of {A} (l full : list A) : Prop := exists rest, full = (l ++ rest)%list.

End IbmVpc.

(** *** Sample runs of the VPC client *)

Module IbmVpcSamples.
Import IbmVpc.

Definition eth0 : interface := {| ni_id := "nic-0"; primary_ipv4_address := "10.0.0.4" |}.
Definition eth1 : interface := {| ni_id := "nic-1"; primary_ipv4_address := "10.0.0.5" |}.

Definition plan : settings :=
  {| security_group_id := "sg"; subnet_id := "subnet"; key_id := "key";
     volume_tier_name := "10iops-tier"; profile_name := "bx2-8x32";
     resource_group_id := "rg"; vpc_id := "vpc"; image_id := "image";
     zone_name := "us-south-3" |}.

(** The client as [__init__] leaves it, with the keep-alive flag. *)
Definition client0 (delete : bool) : client :=
  {| instance_id := None; ip_address := None; last_instance_data := None;
     config_instance_id := None; config_ip_address := None;
     delete_on_dismantle := delete; config := plan |}.

Definition start0 (delete : bool) : world client event :=
  {| self := client0 delete; history := [] |}.

(** A cloud that lists [insts], [fips] and [nics], creates what it is
    asked for, and fails the calls that [fails] names, each with an
    exception that bears the name of the call. *)
Definition cloud (insts : list instance) (fips : list floating_ip)
           (nics : list nic) (fails : string -> bool) : environment :=
  let answer {A} (call : string) (a : A) : exn + A :=
    if fails call then inl (ApiException call) else inr a in
  let done (call : string) : option exn :=
    if fails call then Some (ApiException call) else None in
  {| env_namegen := fun h => ("otter" ++ PyStr.str_of_int (Z.of_nat (List.length h)))%string;
     env_list_instances := fun _ => answer "list_instances" insts;
     env_create_instance := fun _ p =>
       answer "create_instance"
              {| inst_name := proto_name p; inst_id := "vsi-new";
                 primary_network_interface := eth0; network_interfaces := [eth0] |};
     env_list_floating_ips := fun _ => answer "list_floating_ips" fips;
     env_create_floating_ip := fun _ p =>
       answer "create_floating_ip"
              {| fip_name := fproto_name p; fip_id := "fip-new";
                 fip_address := "203.0.113.9"; fip_target := None |};
     env_attach_floating_ip := fun _ _ _ _ => done "attach_floating_ip";
     env_list_instance_nics := fun _ _ => answer "list_instance_nics" nics;
     env_delete_floating_ip := fun _ _ => done "delete_floating_ip";
     env_delete_instance := fun _ _ => done "delete_instance";
     env_get_token := fun _ => done "get_token";
     env_post_action := fun _ _ _ =>
       answer "post_action" {| action_status := 201; action_errors := None |};
     env_get_instance := fun _ _ =>
       answer "get_instance" {| data_status := Some "stopped" |} |}.

(** The instance of job 7, call 3, and an unrelated one. *)
Definition vsi7 : instance :=
  {| inst_name := "lithops7-3-instance"; inst_id := "vsi-7";
     primary_network_interface := eth0; network_interfaces := [eth0] |}.

Definition bystander : instance :=
  {| inst_name := "lithops-happy-otter-instance"; inst_id := "vsi-0";
     primary_network_interface := eth1; network_interfaces := [eth1] |}.

(** The floating IP of job 7, call 3, bound to [eth0], and a second one
    of the same name that is bound to nothing. *)
Definition bound_ip : floating_ip :=
  {| fip_name := "lithops7-3-fip"; fip_id := "fip-7";
     fip_address := "203.0.113.7"; fip_target := Some eth0 |}.

Definition spare_ip : floating_ip :=
  {| fip_name := "lithops7-3-fip"; fip_id := "fip-8";
     fip_address := "203.0.113.8"; fip_target := None |}.

Definition interfaces : list nic :=
  [ {| nic_id := "nic-0"; nic_floating_ips := Some [bound_ip] |};
    {| nic_id := "nic-1"; nic_floating_ips := None |} ].

(** The client once [create] has made or adopted [vsi-7]. *)
Definition running (delete : bool) : world client event :=
  {| self := set_config_instance_id (Some "vsi-7")
               (set_instance_id (Some "vsi-7") (client0 delete));
     history := [] |}.

Definition nothing (_ : string) : bool := false.

Definition only (call : string) (c : string) : bool := String.eqb c call.

Definition both (call1 call2 : string) (c : string) : bool :=
  String.eqb c call1 || String.eqb c call2.

(** The cloud [c] with its two answers replaced: every allocation hands
    out [fip], every instance action is answered with [res]. *)
Definition answering (fip : floating_ip) (res : action_response) (c : environment)
  : environment :=
  {| env_namegen := env_namegen c;
     env_list_instances := env_list_instances c;
     env_create_instance := env_create_instance c;
     env_list_floating_ips := env_list_floating_ips c;
     env_create_floating_ip := fun _ _ => inr fip;
     env_attach_floating_ip := env_attach_floating_ip c;
     env_list_instance_nics := env_list_instance_nics c;
     env_delete_floating_ip := env_delete_floating_ip c;
     env_delete_instance := env_delete_instance c;
     env_get_token := env_get_token c;
     env_post_action := fun _ _ _ => inr res;
     env_get_instance := env_get_instance c |}.

Definition done : action_response := {| action_status := 201; action_errors := None |}.

Definition busy : action_response :=
  {| action_status := 409; action_errors := Some "instance_busy" |}.

(** A client configured with the address and the id of [vsi-7]. *)
Definition reachable : client :=
  {| instance_id := Some "vsi-7"; ip_address := Some "203.0.113.7";
     last_instance_data := None;
     config_instance_id := Some "vsi-7"; config_ip_address := Some "203.0.113.7";
     delete_on_dismantle := false; config := plan |}.

(** The cloud [c] with a name generator that repeats itself. *)
Definition repeating (c : environment) : environment :=
  {| env_namegen := fun _ => "otter";
     env_list_instances := env_list_instances c;
     env_create_instance := env_create_instance c;
     env_list_floating_ips := env_list_floating_ips c;
     env_create_floating_ip := env_create_floating_ip c;
     env_attach_floating_ip := env_attach_floating_ip c;
     env_list_instance_nics := env_list_instance_nics c;
     env_delete_floating_ip := env_delete_floating_ip c;
     env_delete_instance := env_delete_instance c;
     env_get_token := env_get_token c;
     env_post_action := env_post_action c;
     env_get_instance := env_get_instance c |}.

(** The instance that a [create] without a job key makes under that
    generator. *)
Definition otter : instance :=
  {| inst_name := "lithops-otter-instance"; inst_id := "vsi-new";
     primary_network_interface := eth0; network_interfaces := [eth0] |}.

End IbmVpcSamples.

(* ===================================================================== *)
(** ** Facts about the effect monad *)
(* ===================================================================== *)

Section Frames.

Context {Self Ev E : Type}.
Variable R : Self -> Self -> Prop.
Variable P : Ev -> Prop.
Hypothesis R_refl : forall s, R s s.
Hypothesis R_trans : forall a b c, R a b -> R b c -> R a c.

#[local] Abbreviation W := (world Self Ev).

Lemma keeps_ret {A} (a : A) : keeps R P (ret a : M W E A).
Proof. intros w. split; [apply R_refl |]. exists []. now rewrite app_nil_r. Qed.

Lemma keeps_raise {A} (e : E) : keeps R P (raise e : M W E A).
Proof. intros w. split; [apply R_refl |]. exists []. now rewrite app_nil_r. Qed.

Lemma keeps_out_of_fuel {A} : keeps R P (fun w => (OutOfFuel, w) : outcome E A * W).
Proof. intros w. split; [apply R_refl |]. exists []. now rewrite app_nil_r. Qed.

Lemma keeps_get_world : keeps R P (get_world : M W E W).
Proof. intros w. split; [apply R_refl |]. exists []. now rewrite app_nil_r. Qed.

Lemma keeps_update_self (f : Self -> Self) :
  (forall s, R s (f s)) -> keeps R P (update_self f : M W E unit).
Proof. intros H w. split; [apply H |]. exists []. simpl. now rewrite app_nil_r. Qed.

Lemma keeps_perform {A} (ev : Ev) (answer : list Ev -> E + A) :
  P ev -> keeps R P (perform ev answer : M W E A).
Proof.
  intros H w. unfold perform.
  destruct (answer (history w)); simpl; (split; [apply R_refl |]);
    exists [ev]; auto.
Qed.

Lemma keeps_perform_ (ev : Ev) (answer : list Ev -> option E) :
  P ev -> keeps R P (perform_ ev answer : M W E unit).
Proof. intros H. now apply keeps_perform. Qed.

Lemma keeps_bind {A B} (m : M W E A) (k : A -> M W E B) :
  keeps R P m -> (forall a, keeps R P (k a)) -> keeps R P (bind m k).
Proof.
  intros Hm Hk w. unfold bind.
  destruct (Hm w) as [HR [evs [Hh HP]]].
  destruct (m w) as [[a | e |] w1]; simpl in *.
  - destruct (Hk a w1) as [HR' [evs' [Hh' HP']]].
    split; [eapply R_trans; eauto |].
    exists (evs ++ evs')%list. rewrite Hh', Hh, app_assoc.
    split; [reflexivity | now apply Forall_app].
  - split; [assumption | now exists evs].
  - split; [assumption | now exists evs].
Qed.

Lemma keeps_try {A} (m : M W E A) (h : E -> M W E A) :
  keeps R P m -> (forall e, keeps R P (h e)) -> keeps R P (try_except m h).
Proof.
  intros Hm Hh w. unfold try_except.
  destruct (Hm w) as [HR [evs [Hhist HP]]].
  destruct (m w) as [[a | e |] w1]; simpl in *.
  - split; [assumption | now exists evs].
  - destruct (Hh e w1) as [HR' [evs' [Hh' HP']]].
    split; [eapply R_trans; eauto |].
    exists (evs ++ evs')%list. rewrite Hh', Hhist, app_assoc.
    split; [reflexivity | now apply Forall_app].
  - split; [assumption | now exists evs].
Qed.

Lemma keeps_for_each {A S} (xs : list A) (body : A -> S -> M W E S) :
  (forall x s, keeps R P (body x s)) -> forall s, keeps R P (for_each xs body s).
Proof.
  intros Hb. induction xs as [|x xs IH]; intros s; simpl.
  - apply keeps_ret.
  - apply keeps_bind; [apply Hb | apply IH].
Qed.

Lemma keeps_while {S} (fuel : nat) (test : S -> bool) (body : S -> M W E S) :
  (forall s, keeps R P (body s)) -> forall s, keeps R P (while_loop fuel test body s).
Proof.
  intros Hb. induction fuel as [|fuel IH]; intros s; simpl;
    destruct (test s); try apply keeps_ret.
  - apply keeps_out_of_fuel.
  - apply keeps_bind; [apply Hb | apply IH].
Qed.

End Frames.

Lemma for_each_app {W E A S} (xs ys : list A) (body : A -> S -> M W E S) (s : S) (w : W) :
  for_each (xs ++ ys) body s w = bind (for_each xs body s) (for_each ys body) w.
Proof.
  revert s w. induction xs as [|x xs IH]; intros s w; cbn [app for_each].
  - reflexivity.
  - unfold bind. unfold bind in IH.
    destruct (body x s w) as [[s1 | e |] w1]; [apply IH | reflexivity ..].
Qed.

Lemma bind_returns {W E A B} (m : M W E A) (k : A -> M W E B) (w w1 : W) (a : A) :
  m w = (Returns a, w1) -> bind m k w = k a w1.
Proof. intros H. unfold bind. now rewrite H. Qed.

Lemma bind_raises {W E A B} (m : M W E A) (k : A -> M W E B) (w w1 : W) (e : E) :
  m w = (Raises e, w1) -> bind m k w = (Raises e, w1).
Proof. intros H. unfold bind. now rewrite H. Qed.

Lemma bind_inv {W E A B} (m : M W E A) (k : A -> M W E B) (w w' : W) (b : B) :
  bind m k w = (Returns b, w') ->
  exists a w1, m w = (Returns a, w1) /\ k a w1 = (Returns b, w').
Proof.
  unfold bind. destruct (m w) as [[a | e |] w1]; try discriminate.
  intros H. now exists a, w1.
Qed.

(** A handler that raises again lets no exception turn into a result. *)
Lemma try_reraise_inv {W E A} (m : M W E A) (w w' : W) (a : A) :
  try_except m (fun e => raise e) w = (Returns a, w') -> m w = (Returns a, w').
Proof.
  unfold try_except. destruct (m w) as [[a' | e |] w1]; try discriminate.
  exact (fun H => H).
Qed.

(** A loop that returns has left its test false, and keeps what every
    round keeps. *)
Lemma while_inv {W E S} (I : S -> W -> Prop) (fuel : nat) (test : S -> bool)
      (body : S -> M W E S) :
  (forall s w s' w', I s w -> test s = true -> body s w = (Returns s', w') -> I s' w') ->
  forall s w s' w',
    I s w -> while_loop fuel test body s w = (Returns s', w') ->
    I s' w' /\ test s' = false.
Proof.
  intros Hbody. induction fuel as [|fuel IH]; intros s w s' w' Hi; cbn [while_loop];
    destruct (test s) eqn:Ht; try discriminate;
    try (intros [= <- <-]; now split).
  intros H. apply bind_inv in H. destruct H as [s1 [w1 [Hb H]]].
  exact (IH s1 w1 s' w' (Hbody s w s1 w1 Hi Ht Hb) H).
Qed.

(** A [for] loop that returns keeps what every round keeps. *)
Lemma for_each_inv {W E A S} (I : S -> W -> Prop) (xs : list A)
      (body : A -> S -> M W E S) :
  (forall x s w s' w', I s w -> body x s w = (Returns s', w') -> I s' w') ->
  forall s w s' w', I s w -> for_each xs body s w = (Returns s', w') -> I s' w'.
Proof.
  intros Hbody. induction xs as [|x xs IH]; intros s w s' w' Hi; cbn [for_each].
  - now intros [= <- <-].
  - intros H. apply bind_inv in H. destruct H as [s1 [w1 [Hb H]]].
    exact (IH s1 w1 s' w' (Hbody x s w s1 w1 Hi Hb) H).
Qed.

(** A result of [try: m except: h] with a handler that never returns is
    a result of [m]. *)
Lemma try_inv {W E A} (m : M W E A) (h : E -> M W E A) (w w' : W) (a : A) :
  (forall e w0 a0 w1, h e w0 <> (Returns a0, w1)) ->
  try_except m h w = (Returns a, w') -> m w = (Returns a, w').
Proof.
  intros Hh. unfold try_except. destruct (m w) as [[a' | e |] w1]; try discriminate.
  - exact (fun H => H).
  - intros H. now apply Hh in H.
Qed.

Section Totality.

Context {W E : Type}.

Lemma total_ret {A} (a : A) : total (ret a : M W E A).
Proof. intros w. discriminate. Qed.

Lemma total_raise {A} (e : E) : total (raise e : M W E A).
Proof. intros w. discriminate. Qed.

Lemma total_get_world : total (get_world : M W E W).
Proof. intros w. discriminate. Qed.

Lemma total_modify (f : W -> W) : total (modify f : M W E unit).
Proof. intros w. discriminate. Qed.

Lemma total_bind {A B} (m : M W E A) (k : A -> M W E B) :
  total m -> (forall a, total (k a)) -> total (bind m k).
Proof.
  intros Hm Hk w. unfold bind. specialize (Hm w).
  destruct (m w) as [[a | e |] w1]; simpl in *;
    [apply Hk | discriminate | congruence].
Qed.

Lemma total_try {A} (m : M W E A) (h : E -> M W E A) :
  total m -> (forall e, total (h e)) -> total (try_except m h).
Proof.
  intros Hm Hh w. unfold try_except. specialize (Hm w).
  destruct (m w) as [[a | e |] w1]; simpl in *;
    [discriminate | apply Hh | congruence].
Qed.

Lemma total_for_each {A S} (xs : list A) (body : A -> S -> M W E S) :
  (forall x s, total (body x s)) -> forall s, total (for_each xs body s).
Proof.
  intros Hb. induction xs as [|x xs IH]; intros s; simpl.
  - apply total_ret.
  - apply total_bind; [apply Hb | apply IH].
Qed.

End Totality.

Lemma total_perform {Self Ev E A} (ev : Ev) (answer : list Ev -> E + A) :
  total (perform ev answer : M (world Self Ev) E A).
Proof. intros w. unfold perform. destruct (answer (history w)); discriminate. Qed.

Lemma total_perform_ {Self Ev E} (ev : Ev) (answer : list Ev -> option E) :
  total (perform_ ev answer : M (world Self Ev) E unit).
Proof. apply total_perform. Qed.

Lemma total_update_self {Self Ev E} (f : Self -> Self) :
  total (update_self f : M (world Self Ev) E unit).
Proof. intros w. discriminate. Qed.

Lemma perform_returns {Self Ev E A} (ev : Ev) (answer : list Ev -> E + A)
      (w : world Self Ev) (a : A) :
  answer (history w) = inr a -> perform ev answer w = (Returns a, log ev w).
Proof. intros H. unfold perform. now rewrite H. Qed.

Lemma perform_raises {Self Ev E A} (ev : Ev) (answer : list Ev -> E + A)
      (w : world Self Ev) (e : E) :
  answer (history w) = inl e -> perform ev answer w = (Raises e, log ev w).
Proof. intros H. unfold perform. now rewrite H. Qed.

Lemma perform__returns {Self Ev E} (ev : Ev) (answer : list Ev -> option E)
      (w : world Self Ev) :
  answer (history w) = None -> perform_ ev answer w = (Returns tt, log ev w).
Proof. intros H. unfold perform_, perform. now rewrite H. Qed.

Lemma perform__raises {Self Ev E} (ev : Ev) (answer : list Ev -> option E)
      (w : world Self Ev) (e : E) :
  answer (history w) = Some e -> perform_ ev answer w = (Raises e, log ev w).
Proof. intros H. unfold perform_, perform. now rewrite H. Qed.

Lemma fails_bind_l {W E A B} (m : M W E A) (k : A -> M W E B) :
  fails m -> fails (bind m k).
Proof.
  intros Hm w. destruct (Hm w) as [e He]. exists e. unfold bind.
  destruct (m w) as [[a | e' |] w1]; cbn [fst] in *; congruence.
Qed.

Lemma fails_bind_r {W E A B} (m : M W E A) (k : A -> M W E B) :
  total m -> (forall a, fails (k a)) -> fails (bind m k).
Proof.
  intros Hm Hk w. unfold bind. specialize (Hm w).
  destruct (m w) as [[a | e |] w1]; cbn [fst] in *;
    [apply Hk | now exists e | congruence].
Qed.

(** What follows a computation that raises adds nothing to it. *)
Lemma keeps_bind_fails {Self Ev E A B} (R : Self -> Self -> Prop) (P : Ev -> Prop)
      (m : M (world Self Ev) E A) (k : A -> M (world Self Ev) E B) :
  keeps R P m -> fails m -> keeps R P (bind m k).
Proof.
  intros Hk Hf w. specialize (Hk w). destruct (Hf w) as [e He]. unfold bind.
  destruct (m w) as [[a | e' |] w1]; cbn [fst snd] in *; [discriminate | exact Hk ..].
Qed.

(** Decomposes a totality goal along the structure of the computation. *)
Ltac total_step :=
  first
    [ apply total_ret | apply total_raise | apply total_get_world
    | apply total_update_self | apply total_perform_ | apply total_perform
    | apply total_bind; [| intros]
    | apply total_try; [| intros]
    | apply total_for_each; intros
    | match goal with
      | |- total (match ?x with _ => _ end) => destruct x
      end ].

(** Decomposes a frame goal along the structure of the computation;
    [side] closes the conditions on [R] and [P]. *)
Ltac frame side :=
  repeat first
    [ assumption
    | match goal with
      | H : forall _, _ |- keeps _ _ _ => apply H
      end
    | apply keeps_ret; side
    | apply keeps_raise; side
    | apply keeps_get_world; side
    | apply keeps_update_self; side
    | apply keeps_perform_; side
    | apply keeps_perform; side
    | apply keeps_bind; [side | | intros]
    | apply keeps_try; [side | | intros]
    | apply keeps_for_each; [side | side | intros]
    | apply keeps_while; [side | side | intros]
    | match goal with
      | |- keeps _ _ (match ?x with _ => _ end) => destruct x
      end ].

(* ===================================================================== *)
(** ** Facts about the string primitives *)
(* ===================================================================== *)

Module PyStrFacts.
Import PyStr.

Lemma append_assoc (a b c : string) : ((a ++ b) ++ c)%string = (a ++ b ++ c)%string.
Proof. induction a as [|x a IH]; simpl; [reflexivity | now rewrite IH]. Qed.

Lemma append_nil_r (a : string) : (a ++ "")%string = a.
Proof. induction a as [|x a IH]; simpl; [reflexivity | now rewrite IH]. Qed.

Lemma length_append (a b : string) :
  String.length (a ++ b) = (String.length a + String.length b)%nat.
Proof. induction a as [|x a IH]; simpl; [reflexivity | now rewrite IH]. Qed.

Lemma append_inv_head (a b c : string) : (a ++ b)%string = (a ++ c)%string -> b = c.
Proof. induction a as [|x a IH]; simpl; intros H; [exact H | injection H; auto]. Qed.

Lemma append_inv_tail (a b c : string) : (a ++ c)%string = (b ++ c)%string -> a = b.
Proof.
  revert b. induction a as [|x a IH]; intros [|y b] H; simpl in H.
  - reflexivity.
  - exfalso. apply (f_equal String.length) in H. simpl in H.
    rewrite length_append in H. lia.
  - exfalso. apply (f_equal String.length) in H. simpl in H.
    rewrite length_append in H. lia.
  - injection H as -> H. f_equal. now apply IH.
Qed.

Lemma mem_append (c : ascii) (a b : string) :
  mem c (a ++ b) = mem c a || mem c b.
Proof.
  induction a as [|x a IH]; simpl; [reflexivity |].
  rewrite IH. now rewrite orb_assoc.
Qed.

Lemma take_append (a b : string) : take (String.length a) (a ++ b) = a.
Proof. induction a as [|x a IH]; simpl; [now destruct b | now rewrite IH]. Qed.

Lemma drop_append (a b : string) : drop (String.length a) (a ++ b) = b.
Proof. induction a as [|x a IH]; simpl; [reflexivity | exact IH]. Qed.

(** A separator made of one character twice does not occur in a string
    that lacks the character. *)
Lemma rfind_absent (c : ascii) (s : string) :
  mem c s = false -> rfind (String c (String c "")) s = None.
Proof.
  induction s as [|x s IH]; simpl; [reflexivity |].
  intros H. apply orb_false_elim in H. destruct H as [Hx Hs].
  rewrite (IH Hs). destruct (ascii_dec c x) as [->|]; [|reflexivity].
  now rewrite Ascii.eqb_refl in Hx.
Qed.

Lemma prefix_single_absent (c : ascii) (t : string) :
  mem c t = false -> prefix (String c "") t = false.
Proof.
  destruct t as [|y t]; simpl; [reflexivity |].
  intros H. apply orb_false_elim in H. destruct H as [Hy _].
  destruct (ascii_dec c y) as [->|]; [|reflexivity].
  now rewrite Ascii.eqb_refl in Hy.
Qed.

(** [rfind] finds the separator that is followed by no other one. *)
Lemma rfind_last (c : ascii) (p t : string) :
  mem c t = false ->
  rfind (String c (String c "")) (p ++ String c (String c t))
  = Some (String.length p).
Proof.
  intros Ht. induction p as [|x p IH].
  - cbn [append rfind String.length].
    rewrite (rfind_absent c t Ht).
    cbn [prefix]. destruct (ascii_dec c c) as [_|N]; [|now elim N].
    rewrite (prefix_single_absent c t Ht).
    now destruct t.
  - cbn [append rfind String.length]. now rewrite IH.
Qed.

Lemma rsplit1_last (c : ascii) (p t : string) :
  mem c t = false ->
  rsplit1 (String c (String c "")) (p ++ String c (String c t)) = [p; t].
Proof.
  intros Ht. unfold rsplit1. rewrite (rfind_last c p t Ht).
  rewrite take_append. f_equal. f_equal.
  cbn [String.length].
  replace (String.length p + 2)%nat with (String.length (p ++ String c (String c "")))
    by (rewrite length_append; reflexivity).
  rewrite <- (drop_append (p ++ String c (String c "")) t) at 2.
  now rewrite append_assoc.
Qed.

Lemma prefix_empty_string (r : string) : prefix "" r = true.
Proof. now destruct r. Qed.

(** With no replacement left, [replace] copies its argument. *)
Lemma replace_from_zero (old new s : string) : replace_from 0 old new 0 s = s.
Proof. induction s as [|x s IH]; simpl; [reflexivity | now rewrite IH]. Qed.

(** Stripping the unit suffix of a string that has no [m] in it. *)
Lemma replace_mb_suffix (d : string) :
  mem "m" d = false -> replace_all "mb" "" (d ++ "mb") = d.
Proof.
  unfold replace_all, replace.
  induction d as [|x d IH]; intros H.
  - reflexivity.
  - simpl in H. apply orb_false_elim in H. destruct H as [Hx Hd].
    cbn [append replace_from]. cbn [prefix].
    destruct (ascii_dec "m" x) as [<-|_]; [discriminate Hx |].
    cbn [negb andb Z.eqb]. now rewrite (IH Hd).
Qed.

Lemma all_digits_uint (d : Decimal.uint) : all_digits (NilEmpty.string_of_uint d) = true.
Proof. induction d; simpl; auto. Qed.

Lemma all_digits_mem (c : ascii) (s : string) :
  is_digit c = false -> all_digits s = true -> mem c s = false.
Proof.
  intros Hc. induction s as [|x s IH]; simpl; [reflexivity |].
  intros H. apply andb_prop in H. destruct H as [Hx Hs].
  rewrite (IH Hs), orb_false_r.
  destruct (Ascii.eqb_spec c x) as [->|]; [congruence | reflexivity].
Qed.

Lemma all_digits_str_of_int (n : Z) : 0 <= n -> all_digits (str_of_int n) = true.
Proof.
  intros Hn. unfold str_of_int. destruct n as [|p|p]; [reflexivity | | lia].
  simpl. unfold NilZero.string_of_uint.
  generalize (all_digits_uint (Pos.to_uint p)).
  now destruct (Pos.to_uint p).
Qed.

(** [int(str(n)) == n] *)
Lemma int_of_str_of_int (n : Z) : int_of_str (str_of_int n) = Some n.
Proof.
  unfold int_of_str, str_of_int.
  rewrite NilZero.isi.
  - simpl. now rewrite DecimalZ.of_to.
  - destruct n; simpl; try discriminate.
    intros [= H]. now apply DecimalPos.Unsigned.to_uint_nonnil in H.
  - destruct n; simpl; try discriminate.
    intros [= H]. now apply DecimalPos.Unsigned.to_uint_nonnil in H.
Qed.

End PyStrFacts.


(* ===================================================================== *)
(** ** Properties of [GCPCloudRunBackend] *)
(* ===================================================================== *)

Module CloudRunProps.
Import PyStr PyStrFacts CloudRun.

Section Names.

Variable version : string.

(** The name that [_format_service_name] builds ends in the memory
    size, and [rsplit] cuts it there. *)
Lemma rsplit_service_name (runtime_name : string) (memory : Z) :
  0 <= memory ->
  rsplit1 "--" (_format_service_name version runtime_name memory)
  = [ ("lithops--" ++ replace_all "." "-" version
         ++ "--" ++ replace_all "." "" runtime_name)%string;
      (str_of_int memory ++ "mb")%string ].
Proof.
  intros Hm. unfold _format_service_name.
  set (v := replace_all "." "-" version).
  set (n := replace_all "." "" runtime_name).
  set (t := (str_of_int memory ++ "mb")%string).
  replace ("lithops--" ++ v ++ "--" ++ n ++ "--" ++ t)%string
    with (("lithops--" ++ v ++ "--" ++ n) ++ String "-" (String "-" t))%string
    by (rewrite !append_assoc; reflexivity).
  apply (rsplit1_last "-").
  unfold t. rewrite mem_append.
  rewrite (all_digits_mem "-" _ eq_refl (all_digits_str_of_int memory Hm)).
  reflexivity.
Qed.

Lemma prefix_empty (r : string) : prefix "" r = true.
Proof. now destruct r. Qed.

(** The two [replace] calls of [_unformat_service_name] on a name that
    starts with ["lithops--"]. *)
Lemma replace_first_separator (r : string) :
  replace "--" ":" (-1) (replace "--" "/" 1 ("lithops" ++ String "-" (String "-" r)))
  = ("lithops/" ++ replace "--" ":" (-1) r)%string.
Proof.
  unfold replace. cbn -[Z.sub Z.eqb]. rewrite prefix_empty.
  cbn -[replace_from]. cbn [replace_from].
  destruct r as [|c r]; [reflexivity |].
  change (1 - 1) with 0. rewrite replace_from_zero.
  reflexivity.
Qed.

(** What [_unformat_service_name] makes of a name built by
    [_format_service_name]: the memory size, and as the name the whole
    prefix ["lithops--<version>--<name>"] with its first separator turned
    into a slash and the others into colons. *)
Lemma unformat_of_format_service_name (runtime_name : string) (memory : Z) :
  0 <= memory ->
  _unformat_service_name (_format_service_name version runtime_name memory)
  = inr (("lithops/" ++ replace "--" ":" (-1)
                          (replace_all "." "-" version
                             ++ "--" ++ replace_all "." "" runtime_name))%string,
         memory).
Proof.
  intros Hm. unfold _unformat_service_name.
  rewrite (rsplit_service_name runtime_name memory Hm).
  rewrite replace_mb_suffix
    by (apply (all_digits_mem "m" _ eq_refl), all_digits_str_of_int, Hm).
  rewrite int_of_str_of_int.
  do 2 f_equal.
  set (r := (replace_all "." "-" version ++ "--" ++ replace_all "." "" runtime_name)%string).
  change ("lithops--" ++ r)%string with ("lithops" ++ String "-" (String "-" r))%string.
  rewrite replace_first_separator. reflexivity.
Qed.


End Names.



Section Polling.

Variable version : string.
Variable DEFAULT_RUNTIME_NAME : string.
Variable env : environment.
Variable runtime_name : string.
Variable memory : Z.

#[local] Abbreviation poll := (poll_service version env runtime_name memory).
#[local] Abbreviation waiting fuel := (wait_until_up version env fuel runtime_name memory).

Lemma total_build_api : total (_build_api_resource env).
Proof. unfold _build_api_resource. repeat total_step. Qed.

Lemma total_poll (vars : bool * Z) : total (poll vars).
Proof.
  unfold poll_service, sleep_for. pose proof total_build_api.
  repeat (assumption || total_step).
Qed.

(** A round of the loop that leaves the loop running leaves a budget
    that is smaller by one and still positive. *)
Lemma poll_decreases (retry : Z) (w : world backend event) (vars : bool * Z)
      (w' : world backend event) :
  poll (false, retry) w = (Returns vars, w') ->
  fst vars = false -> 0 < retry -> snd vars = retry - 1 /\ 0 < retry - 1.
Proof.
  unfold poll_service, sleep_for, bind, get_world, perform_, perform, ret, raise.
  cbn [snd].
  destruct (_build_api_resource env w) as [[[] | e |] w1]; try discriminate.
  destruct (env_api_get env (history w1) _) as [e | r]; try discriminate.
  destruct (conditions r) as [conds |]; try discriminate.
  destruct (all_true conds); cbn [negb].
  - destruct (status_url r); try discriminate.
    unfold update_self, modify. intros [= <- _]. discriminate.
  - destruct (Z.eqb_spec retry 0); try discriminate.
    destruct (Z.ltb_spec retry 0); try discriminate.
    destruct (Z.eqb_spec (retry - 1) 0); try discriminate.
    intros [= <- _] _ _. cbn. lia.
Qed.

(** The loop stops within as many rounds as its budget. *)
Lemma wait_total_from (n : nat) :
  forall (fuel : nat) (retry : Z) (w : world backend event),
    retry = Z.of_nat (S n) -> (S n <= fuel)%nat ->
    fst (while_loop fuel (fun vars => negb (fst vars)) poll (false, retry) w)
    <> OutOfFuel.
Proof.
  induction n as [|n IH]; intros fuel retry w Hr Hf;
    (destruct fuel as [|fuel]; [lia |]);
    cbn [while_loop fst negb]; unfold bind;
    pose proof (total_poll (false, retry) w) as Ht;
    pose proof (poll_decreases retry w) as Hd;
    destruct (poll (false, retry) w) as [[[rdy retry'] | e |] w1];
    cbn [fst] in *; try discriminate; try congruence.
  - destruct rdy.
    + destruct fuel; cbn; discriminate.
    + destruct (Hd _ _ eq_refl eq_refl) as [_ H]; lia.
  - destruct rdy.
    + destruct fuel; cbn; discriminate.
    + destruct (Hd _ _ eq_refl eq_refl) as [H1 H2]; [lia |].
      cbn [snd] in H1. subst retry'. apply IH; lia.
Qed.

Lemma total_waiting (fuel : nat) : (15 <= fuel)%nat -> total (waiting fuel).
Proof.
  intros Hf w. unfold wait_until_up.
  apply (wait_total_from 14); [reflexivity | exact Hf].
Qed.

(** [all(...)] says what it should. *)
Lemma all_true_Forall (conds : list condition) :
  all_true conds = true <-> Forall (fun c => cond_status c = "True"%string) conds.
Proof.
  unfold all_true. rewrite forallb_forall, Forall_forall.
  split; intros H c Hc; [apply String.eqb_eq | apply String.eqb_eq]; now apply H.
Qed.

Lemma all_true_Exists (conds : list condition) :
  all_true conds = false <-> Exists (fun c => cond_status c <> "True"%string) conds.
Proof.
  unfold all_true. induction conds as [|c conds IH]; cbn [forallb].
  - split; [discriminate | intros H; inversion H].
  - destruct (String.eqb_spec (cond_status c) "True") as [Hc | Hc]; cbn [andb].
    + rewrite IH. split; intros H; [now right |].
      inversion H as [? ? Hn | ? ? Ht]; [contradiction | exact Ht].
    + split; [intros _; now left | reflexivity].
Qed.

Section Rounds.

Variable w0 : world backend event.
Hypothesis built : _api_resource (self w0) = true.

#[local] Abbreviation name :=
  (service_path version (project_name (self w0)) runtime_name memory).

#[local] Abbreviation after k := (after_rounds w0 name k).
#[local] Abbreviation answer k := (polled env (history w0) name k).

(** A round that finds the service not ready pauses and goes on, unless
    it was the fifteenth. *)
Lemma poll_still_waiting (j : nat) (r : service) (conds : list condition) :
  (j < 15)%nat ->
  answer j = inr r -> conditions r = Some conds -> all_true conds = false ->
  poll (false, 15 - Z.of_nat j) (after j)
  = if (j =? 14)%nat
    then (Raises (MaximumRetriesReached r), after (S j))
    else (Returns (false, 15 - Z.of_nat (S j)), after (S j)).
Proof.
  intros Hj Ha Hc Hall. unfold polled in Ha.
  unfold poll_service, _build_api_resource, bind, get_world, perform, ret.
  cbn -[service_path waited Z.sub Z.of_nat].
  rewrite built. cbn -[service_path waited Z.sub Z.of_nat]. rewrite Ha.
  unfold after_rounds. rewrite Hc, Hall. cbn -[service_path waited Z.sub Z.of_nat].
  unfold sleep_for.
  destruct (Z.eqb_spec (15 - Z.of_nat j) 0); [lia |].
  destruct (Z.ltb_spec (15 - Z.of_nat j) 0); [lia |].
  unfold perform_, perform, log. cbn -[service_path waited Z.sub Z.of_nat].
  rewrite <- !app_assoc. cbn [app].
  destruct (Nat.eqb_spec j 14) as [-> | Hne].
  - reflexivity.
  - destruct (Z.eqb_spec (15 - Z.of_nat j - 1) 0); [lia |].
    do 3 f_equal. lia.
Qed.

(** A round that finds the service up caches its URL and leaves the
    budget as it is. *)
Lemma poll_up (j : nat) (retry : Z) (r : service) (conds : list condition)
      (u : string) :
  answer j = inr r -> conditions r = Some conds -> all_true conds = true ->
  status_url r = Some u ->
  poll (false, retry) (after j)
  = (Returns (true, retry),
     {| self := set_service_url u (self w0);
        history := (history w0 ++ waited name j ++ [EvApiGet name])%list |}).
Proof.
  intros Ha Hc Hall Hu. unfold polled in Ha.
  unfold poll_service, _build_api_resource, bind, get_world, perform, ret.
  cbn -[service_path waited Z.sub Z.of_nat].
  rewrite built. cbn -[service_path waited Z.sub Z.of_nat]. rewrite Ha.
  rewrite Hc, Hall. cbn -[service_path waited Z.sub Z.of_nat]. rewrite Hu.
  unfold update_self, modify, log. cbn -[service_path waited Z.sub Z.of_nat].
  now rewrite <- app_assoc.
Qed.

(** The rounds that find the service not ready, one after the other. *)
Lemma wait_skip (d : nat) :
  forall (j fuel : nat),
    (j + d <= 14)%nat ->
    (forall i, (j <= i < j + d)%nat -> still_waiting (answer i)) ->
    while_loop (d + fuel) (fun vars => negb (fst vars)) poll
               (false, 15 - Z.of_nat j) (after j)
    = while_loop fuel (fun vars => negb (fst vars)) poll
                 (false, 15 - Z.of_nat (j + d)) (after (j + d)).
Proof.
  induction d as [|d IH]; intros j fuel Hj Hw.
  - now rewrite Nat.add_0_r.
  - destruct (Hw j ltac:(lia)) as [r [conds [Ha [Hc Hex]]]].
    apply all_true_Exists in Hex.
    cbn [Nat.add while_loop fst negb]. unfold bind.
    rewrite (poll_still_waiting j r conds ltac:(lia) Ha Hc Hex).
    destruct (Nat.eqb_spec j 14) as [-> | _]; [lia |].
    rewrite (IH (S j) fuel ltac:(lia)).
    + now replace (S j + d)%nat with (j + S d)%nat by lia.
    + intros i Hi. apply Hw. lia.
Qed.

(** The loop ends at the first poll that finds the service up. *)
Lemma wait_found (k fuel : nat) (u : string) :
  (k < 15)%nat -> (k < fuel)%nat ->
  (forall j, (j < k)%nat -> still_waiting (answer j)) ->
  up_at (answer k) u ->
  waiting fuel (after 0)
  = (Returns (true, 15 - Z.of_nat k),
     {| self := set_service_url u (self w0);
        history := (history w0 ++ waited name k ++ [EvApiGet name])%list |}).
Proof.
  intros Hk Hf Hw [r [conds [Ha [Hc [Hall Hu]]]]].
  apply all_true_Forall in Hall.
  unfold wait_until_up.
  replace fuel with (k + S (fuel - S k))%nat by lia.
  pose proof (wait_skip k 0 (S (fuel - S k)) ltac:(lia)
                (fun i Hi => Hw i ltac:(lia))) as H.
  cbn [Z.of_nat Nat.add] in H. rewrite Z.sub_0_r in H.
  rewrite H. cbn [while_loop fst negb]. unfold bind.
  rewrite (poll_up k _ r conds u Ha Hc Hall Hu).
  destruct (fuel - S k)%nat; reflexivity.
Qed.

(** Fifteen polls that find the service not ready use the budget up. *)
Lemma wait_exhausted (fuel : nat) (last : service) :
  (15 <= fuel)%nat ->
  (forall j, (j < 15)%nat -> still_waiting (answer j)) ->
  answer 14 = inr last ->
  waiting fuel (after 0) = (Raises (MaximumRetriesReached last), after 15).
Proof.
  intros Hf Hw Hlast. unfold wait_until_up.
  replace fuel with (14 + S (fuel - 15))%nat by lia.
  pose proof (wait_skip 14 0 (S (fuel - 15)) ltac:(lia)
                (fun i Hi => Hw i ltac:(lia))) as H.
  change (0 + 14)%nat with 14%nat in H.
  change (15 - Z.of_nat 0) with 15 in H.
  rewrite H. cbn [while_loop fst negb]. unfold bind.
  destruct (Hw 14%nat ltac:(lia)) as [r [conds [Ha [Hc Hex]]]].
  apply all_true_Exists in Hex.
  rewrite (poll_still_waiting 14 r conds ltac:(lia) Ha Hc Hex).
  cbn [Nat.eqb]. rewrite Hlast in Ha. now injection Ha as ->.
Qed.

End Rounds.

Lemma total_get_service_endpoint : total (_get_service_endpoint version env runtime_name memory).
Proof.
  unfold _get_service_endpoint. pose proof total_build_api.
  repeat (assumption || total_step).
Qed.

Lemma total_invoke (p : payload) (return_result : bool) :
  total (invoke version env runtime_name memory p return_result).
Proof.
  unfold invoke, _build_invoker_sess, getitem.
  pose proof total_get_service_endpoint.
  repeat (assumption || total_step).
Qed.

Lemma total_generate_runtime_meta :
  total (_generate_runtime_meta version env runtime_name memory).
Proof.
  unfold _generate_runtime_meta. pose proof total_invoke.
  repeat (match goal with H : forall _ _, total _ |- _ => apply H end || total_step).
Qed.

Lemma total_create_runtime (fuel : nat) (timeout : Z) :
  (15 <= fuel)%nat ->
  total (create_runtime version DEFAULT_RUNTIME_NAME env fuel runtime_name memory timeout).
Proof.
  intros Hf. unfold create_runtime, _build_default_runtime.
  pose proof total_build_api. pose proof (total_waiting fuel Hf).
  pose proof total_generate_runtime_meta.
  repeat (assumption || total_step).
Qed.

Lemma set_api_resource_built (b : backend) :
  _api_resource b = true -> set_api_resource b = b.
Proof. destruct b. cbn. now intros ->. Qed.

(** What [create_runtime] does before its loop, when the image and the
    admin API session are built as far as they have to be and the
    service is created. *)
Lemma create_runtime_created (fuel : nat) (timeout : Z) (w : world backend event)
      (created : service) :
  let parent := ("namespaces/" ++ project_name (self w))%string in
  let body := create_body version (self w) runtime_name memory timeout in
  let pre := preparation DEFAULT_RUNTIME_NAME runtime_name (self w) in
  (String.eqb runtime_name DEFAULT_RUNTIME_NAME = true ->
   env_build_default_runtime env (history w) = None) ->
  (_api_resource (self w) = false ->
   env_build_api env (history w ++ default_build DEFAULT_RUNTIME_NAME runtime_name)%list
   = None) ->
  env_api_create env (history w ++ pre)%list parent body = inr created ->
  create_runtime version DEFAULT_RUNTIME_NAME env fuel runtime_name memory timeout w
  = bind (waiting fuel)
         (fun _ => _generate_runtime_meta version env runtime_name memory)
         {| self := set_api_resource (self w);
            history := (history w ++ pre ++ [EvApiCreate parent body])%list |}.
Proof.
  destruct w as [b h]. intros parent body pre Himg Hapi Hc.
  cbn [self history] in *.
  assert (H1 : (if String.eqb runtime_name DEFAULT_RUNTIME_NAME
                then _build_default_runtime env else ret tt)
                 {| self := b; history := h |}
               = (Returns tt,
                  {| self := b;
                     history := (h ++ default_build DEFAULT_RUNTIME_NAME
                                        runtime_name)%list |})).
  { unfold default_build in *.
    destruct (String.eqb runtime_name DEFAULT_RUNTIME_NAME).
    - unfold _build_default_runtime, perform_, perform. cbn [history].
      now rewrite (Himg eq_refl).
    - unfold ret. now rewrite app_nil_r. }
  assert (H2 : _build_api_resource env
                 {| self := b;
                    history := (h ++ default_build DEFAULT_RUNTIME_NAME
                                       runtime_name)%list |}
               = (Returns tt, {| self := set_api_resource b; history := (h ++ pre)%list |})).
  { subst pre. unfold preparation, _build_api_resource, bind, get_world.
    cbn [fst snd self]. destruct (_api_resource b) eqn:Hb.
    - rewrite app_nil_r, (set_api_resource_built b Hb). reflexivity.
    - unfold perform_, perform. cbn [history]. rewrite (Hapi eq_refl).
      unfold update_self, modify, log. cbn [self history]. now rewrite <- app_assoc. }
  unfold create_runtime.
  rewrite (bind_returns _ _ _ _ _ H1).
  rewrite (bind_returns get_world _ _ _ _ eq_refl). cbv beta. cbn [self].
  fold parent body.
  rewrite (bind_returns _ _ _ _ _ H2).
  rewrite (bind_returns _ _ _ _ _
             (perform_returns (EvApiCreate parent body)
                (fun h => env_api_create env h parent body)
                {| self := set_api_resource b; history := (h ++ pre)%list |}
                created Hc)).
  unfold log. cbn [self history]. now rewrite <- app_assoc.
Qed.

(** C2. The loop "Wait until service is up" of [create_runtime] always
    stops: with fuel for its 15 rounds the loop, and [create_runtime]
    around it, return or raise in every environment.  Once the service
    is created, let the polls that find it not ready be the first [k]:
    if the next poll, one of the 15, reports every condition ['True'],
    the loop ends there with that poll's URL in [_service_url], and
    [create_runtime] goes on to the metadata of the runtime, which is
    what it returns; if all 15 polls find the service not ready,
    [create_runtime] raises "Maximum retries reached" with the fifteenth,
    last polled status.  Only the polls that are made are constrained. *)
Theorem create_runtime_polling_bounded (fuel : nat) (timeout : Z)
        (w : world backend event) :
  (15 <= fuel)%nat ->
  let run := create_runtime version DEFAULT_RUNTIME_NAME env fuel
                            runtime_name memory timeout in
  let name := service_path version (project_name (self w)) runtime_name memory in
  let parent := ("namespaces/" ++ project_name (self w))%string in
  let body := create_body version (self w) runtime_name memory timeout in
  let pre := preparation DEFAULT_RUNTIME_NAME runtime_name (self w) in
  let h1 := (history w ++ pre ++ [EvApiCreate parent body])%list in
  total (waiting fuel)
  /\ total run
  /\ forall (created : service) (k : nat),
       (String.eqb runtime_name DEFAULT_RUNTIME_NAME = true ->
        env_build_default_runtime env (history w) = None) ->
       (_api_resource (self w) = false ->
        env_build_api env
          (history w ++ default_build DEFAULT_RUNTIME_NAME runtime_name)%list = None) ->
       env_api_create env (history w ++ pre)%list parent body = inr created ->
       (forall j, (j < k)%nat -> still_waiting (polled env h1 name j)) ->
       (forall u, (k < 15)%nat -> up_at (polled env h1 name k) u ->
          exists w2,
            waiting fuel {| self := set_api_resource (self w); history := h1 |}
            = (Returns (true, 15 - Z.of_nat k), w2)
            /\ _service_url (self w2) = Some u
            /\ history w2 = (h1 ++ waited name k ++ [EvApiGet name])%list
            /\ run w = _generate_runtime_meta version env runtime_name memory w2)
       /\ (k = 15%nat ->
           exists last,
             polled env h1 name 14 = inr last
             /\ run w = (Raises (MaximumRetriesReached last),
                         {| self := set_api_resource (self w);
                            history := (h1 ++ waited name 15)%list |})).
Proof.
  intros Hf run name parent body pre h1.
  split; [exact (total_waiting fuel Hf) |].
  split; [exact (total_create_runtime fuel timeout Hf) |].
  intros created k Himg Hapi Hc Hw.
  pose proof (create_runtime_created fuel timeout w created Himg Hapi Hc) as Hrun.
  cbv zeta in Hrun. fold parent body pre h1 in Hrun.
  split.
  - intros u Hk Hup.
    pose proof (wait_found {| self := set_api_resource (self w); history := h1 |}
                  eq_refl k fuel u Hk ltac:(lia) Hw Hup) as Hwait.
    unfold after_rounds in Hwait.
    cbn [self history waited project_name set_api_resource] in Hwait.
    rewrite app_nil_r in Hwait. fold name in Hwait.
    eexists. split; [exact Hwait |].
    split; [reflexivity |]. split; [reflexivity |].
    subst run. rewrite Hrun. unfold bind at 1. now rewrite Hwait.
  - intros ->.
    destruct (Hw 14%nat ltac:(lia)) as [last [conds [Ha _]]].
    exists last. split; [exact Ha |].
    pose proof (wait_exhausted {| self := set_api_resource (self w); history := h1 |}
                  eq_refl fuel last Hf Hw Ha) as Hwait.
    unfold after_rounds in Hwait at 1.
    cbn [self history waited project_name set_api_resource] in Hwait.
    rewrite app_nil_r in Hwait. unfold after_rounds in Hwait.
    cbn [self history project_name set_api_resource] in Hwait. fold name in Hwait.
    subst run. rewrite Hrun. unfold bind at 1. rewrite Hwait. reflexivity.
Qed.

End Polling.

Section Invoking.

Variable version : string.
Variable env : environment.
Variable runtime_name : string.
Variable memory : Z.

#[local] Abbreviation route_of p :=
  (match service_route p with Some r => r | None => "/"%string end).

(** C5. A response outside the success class is swallowed: when the
    session and the endpoint are obtained and the unit answers the POST
    with a status other than 200 and 202, [invoke] returns [None]; it
    raises nothing. *)
Theorem invoke_swallows_failure (p : payload) (return_result : bool)
        (w w1 w2 : world backend event) (sess : session) (endpoint : string)
        (res : response) :
  _build_invoker_sess version env runtime_name memory (route_of p) w
    = (Returns sess, w1) ->
  _get_service_endpoint version env runtime_name memory w1
    = (Returns endpoint, w2) ->
  env_post env (history w2) sess (endpoint ++ route_of p)%string p = inr res ->
  success_status (status_code res) = false ->
  invoke version env runtime_name memory p return_result w
  = (Returns JNull, log (EvPost sess (endpoint ++ route_of p)%string p) w2).
Proof.
  intros Hs He Hp Hcode. unfold invoke, bind.
  rewrite Hs, He. unfold perform. rewrite Hp, Hcode. reflexivity.
Qed.

Lemma build_api_never_provisions :
  keeps (fun _ _ => True) (fun ev => ~ provisions ev) (_build_api_resource env).
Proof.
  unfold _build_api_resource.
  frame ltac:(solve [intros; simpl; auto]).
Qed.

Lemma get_service_endpoint_never_provisions :
  keeps (fun _ _ => True) (fun ev => ~ provisions ev)
        (_get_service_endpoint version env runtime_name memory).
Proof.
  unfold _get_service_endpoint. pose proof build_api_never_provisions.
  frame ltac:(solve [intros; simpl; auto]).
Qed.

Lemma invoke_never_provisions (p : payload) (return_result : bool) :
  keeps (fun _ _ => True) (fun ev => ~ provisions ev)
        (invoke version env runtime_name memory p return_result).
Proof.
  unfold invoke, _build_invoker_sess, getitem.
  pose proof get_service_endpoint_never_provisions.
  frame ltac:(solve [intros; simpl; auto]).
Qed.

(** C6 (as amended). [invoke] has no readiness check and never
    provisions: in every execution it issues no create call and no image
    build; and with nothing cached, once the control plane returns the
    service resource with a URL in its status -- whatever its conditions
    report -- [invoke] builds a session for that URL and posts the
    payload to it, and what it returns depends on the answer to the POST
    alone. *)
Theorem invoke_has_no_readiness_check (p : payload) (return_result : bool)
        (w : world backend event) (r : service) (u : string) (res : response) :
  let name := service_path version (project_name (self w)) runtime_name memory in
  let target := (u ++ route_of p)%string in
  let sess := {| target_audience := target |} in
  _api_resource (self w) = true ->
  _service_url (self w) = None ->
  _invoker_sess (self w) = None ->
  env_api_get env (history w) name = inr r ->
  status_url r = Some u ->
  env_id_token env (history w ++ [EvApiGet name])%list target = None ->
  env_post env (history w ++ [EvApiGet name; EvIdToken target])%list sess target p
    = inr res ->
  keeps (fun _ _ => True) (fun ev => ~ provisions ev)
        (invoke version env runtime_name memory p return_result)
  /\ history (snd (invoke version env runtime_name memory p return_result w))
     = (history w ++ [EvApiGet name; EvIdToken target; EvPost sess target p])%list
  /\ fst (invoke version env runtime_name memory p return_result w)
     = if success_status (status_code res) then
         match body res with
         | None => Raises ValueError
         | Some data =>
             if return_result then Returns data
             else fst (getitem data "activationId" w)
         end
       else Returns JNull.
Proof.
  intros name target sess Hb Hu Hs Hg Hurl Hid Hpost.
  split; [apply invoke_never_provisions |].
  unfold invoke, _build_invoker_sess, _get_service_endpoint, _build_api_resource,
    bind, get_world, perform_, perform, update_self, modify, ret, log.
  cbn -[service_path success_status].
  rewrite Hs. cbn -[service_path success_status].
  rewrite Hu, Hb. cbn -[service_path success_status].
  fold name. rewrite Hg. cbn -[service_path success_status].
  rewrite Hurl. cbn -[service_path success_status].
  fold name target. rewrite Hid. cbn -[service_path success_status].
  fold name target sess. rewrite <- !app_assoc. cbn [app].
  rewrite Hpost. cbn -[service_path success_status].
  destruct (success_status (status_code res)); [| split; reflexivity].
  destruct (body res) as [data |]; [| split; reflexivity].
  destruct return_result; [split; reflexivity |].
  unfold getitem. destruct data; try (split; reflexivity).
  destruct (assoc "activationId" fields); split; reflexivity.
Qed.

End Invoking.


Section Samples.

Import CloudRunSamples.

Lemma gets_waited (k : nat) : (k < 15)%nat -> gets (waited py39 k) = k.
Proof.
  intros Hk.
  do 15 (destruct k as [|k]; [reflexivity |]). lia.
Qed.

(** A service that is not ready twice and then up: the loop stops at the
    third poll with the URL cached, and the metadata are next. *)
Lemma create_runtime_polling_third_time :
  let h1 := [EvApiCreate "namespaces/proj"
               (create_body "2.2.5" built "py39" 256 60)] in
  exists w2,
    wait_until_up "2.2.5" (answering third_time 200 modules) 15 "py39" 256
                  {| self := built; history := h1 |}
    = (Returns (true, 13), w2)
    /\ _service_url (self w2) = Some "https://svc.example"%string
    /\ history w2 = (h1 ++ waited py39 2 ++ [EvApiGet py39])%list
    /\ create_runtime "2.2.5" "default" (answering third_time 200 modules)
                      15 "py39" 256 60 {| self := built; history := [] |}
       = _generate_runtime_meta "2.2.5" (answering third_time 200 modules)
                                "py39" 256 w2.
Proof.
  destruct (create_runtime_polling_bounded
              "2.2.5" "default" (answering third_time 200 modules) "py39" 256
              15 60 {| self := built; history := [] |} (le_n 15))
    as [_ [_ H]].
  refine (proj1 (H provisioning 2%nat ltac:(discriminate) ltac:(discriminate)
                   eq_refl _)
                "https://svc.example"%string ltac:(repeat constructor) _).
  - intros j Hj. exists provisioning, (match conditions provisioning with
                                        | Some c => c | None => [] end).
    split.
    + unfold polled. cbn [env_api_get answering].
      do 2 (destruct j as [|j]; [reflexivity |]). lia.
    + split; [reflexivity |]. left. discriminate.
  - exists up, (match conditions up with Some c => c | None => [] end).
    split; [reflexivity |]. split; [reflexivity |].
    split; [| reflexivity]. repeat constructor.
Defined.

(** A unit that answers 500 to a warm backend: [invoke] returns [None]. *)
Lemma invoke_swallows_500 :
  success_status 500 = false /\
  invoke "2.2.5" failing "py39" 256 job false warm
  = (Returns JNull,
     log (EvPost {| target_audience := "https://svc.example/" |}
                 "https://svc.example/" job) warm).
Proof.
  split; [reflexivity |].
  apply (invoke_swallows_failure "2.2.5" failing "py39" 256 job false warm warm warm
           {| target_audience := "https://svc.example/" |} "https://svc.example"
           {| status_code := 500; body := Some (JObj [("error", JStr "boom")]) |});
    reflexivity.
Defined.

(** C6, as stated, fails: a service that is still provisioning (its
    [Ready] condition is [Unknown]) is invoked by a backend with nothing
    cached; [invoke] raises nothing, reaches the control plane, posts
    the payload to the unit's endpoint and returns the activation id. *)
Lemma invoke_posts_while_provisioning :
  let run := invoke "2.2.5" (answering (fun _ => provisioning) 202 accepted)
                    "py39" 256 job false {| self := built; history := [] |} in
  ready provisioning = false
  /\ fst run = Returns (JStr "abc123")
  /\ history (snd run)
     = [ EvApiGet py39;
         EvIdToken "https://svc.example/";
         EvPost {| target_audience := "https://svc.example/" |}
                "https://svc.example/" job ].
Proof. repeat split. Qed.

(** The same run, through the statement above. *)
Lemma invoke_provisioning_sample :
  history (snd (invoke "2.2.5" (answering (fun _ => provisioning) 202 accepted)
                       "py39" 256 job false {| self := built; history := [] |}))
  = [ EvApiGet py39;
      EvIdToken "https://svc.example/";
      EvPost {| target_audience := "https://svc.example/" |}
             "https://svc.example/" job ].
Proof.
  refine (proj1 (proj2
    (invoke_has_no_readiness_check
       "2.2.5" (answering (fun _ => provisioning) 202 accepted) "py39" 256
       job false {| self := built; history := [] |} provisioning
       "https://svc.example" {| status_code := 202; body := Some accepted |}
       _ _ _ _ _ _ _)));
    reflexivity.
Defined.

End Samples.

End CloudRunProps.

(* ===================================================================== *)
(** ** Properties of [IBMVPCInstanceClient] *)
(* ===================================================================== *)

Module IbmVpcProps.
Import PyStr PyStrFacts IbmVpc.

Section Names.

Variable env : environment.

(** With both components given the name is the plain concatenation and
    nothing is drawn. *)
Lemma generate_name_scoped (r_type job_key call_id : string) (w : world client event) :
  _generate_name env r_type (Some job_key) (Some call_id) w
  = (Returns (scoped_name r_type job_key call_id), w).
Proof. reflexivity. Qed.

(** With a component missing the name is drawn. *)
Lemma generate_name_random (r_type : string) (job_key call_id : option string)
      (w : world client event) :
  job_key = None \/ call_id = None ->
  _generate_name env r_type job_key call_id w
  = (Returns ("lithops-" ++ env_namegen env (history w) ++ "-" ++ r_type)%string,
     log EvNameGen w).
Proof.
  intros [-> | ->]; [| destruct job_key]; reflexivity.
Qed.

(** The last dash of a string splits it in one way only. *)
Lemma split_at_last_dash (a b c d : string) :
  dash_free b -> dash_free d ->
  (a ++ String "-" b)%string = (c ++ String "-" d)%string -> a = c /\ b = d.
Proof.
  unfold dash_free. intros Hb Hd. revert c.
  induction a as [|x a IH]; intros [|y c] H; cbn [append] in H.
  - injection H as ->. now split.
  - injection H as <- ->. rewrite mem_append in Hb. cbn in Hb.
    now rewrite orb_true_r in Hb.
  - injection H as -> <-. rewrite mem_append in Hd. cbn in Hd.
    now rewrite orb_true_r in Hd.
  - injection H as -> H. destruct (IH c H) as [-> ->]. now split.
Qed.

End Names.

(** C9 (as amended). Names scoped to a job and a call are the same for
    the same identity, whatever the state of the client, and differ for
    two identities whose call ids hold no dash. *)
Theorem generate_name_injective (env : environment) (r_type : string)
        (job_key1 call_id1 job_key2 call_id2 : string) (w1 w2 : world client event) :
  dash_free call_id1 -> dash_free call_id2 ->
  ((job_key1, call_id1) <> (job_key2, call_id2) ->
   fst (_generate_name env r_type (Some job_key1) (Some call_id1) w1)
   <> fst (_generate_name env r_type (Some job_key2) (Some call_id2) w2))
  /\ fst (_generate_name env r_type (Some job_key1) (Some call_id1) w1)
     = fst (_generate_name env r_type (Some job_key1) (Some call_id1) w2)
  /\ snd (_generate_name env r_type (Some job_key1) (Some call_id1) w1) = w1.
Proof.
  intros H1 H2. split; [| split; reflexivity].
  intros Hne. rewrite !generate_name_scoped. cbn [fst]. unfold scoped_name.
  intros [= H].
  apply Hne.
  assert (H' : ((job_key1 ++ String "-" call_id1) ++ String "-" r_type)%string
               = ((job_key2 ++ String "-" call_id2) ++ String "-" r_type)%string)
    by (rewrite !append_assoc; exact H).
  apply append_inv_tail in H'.
  destruct (split_at_last_dash _ _ _ _ H1 H2 H') as [-> ->]. reflexivity.
Qed.

Section Lookup.

Variable env : environment.

Lemma last_visited_cons (i : instance) (insts : list instance) :
  last_visited (i :: insts)
  = match last_visited insts with Some j => Some j | None => Some i end.
Proof.
  unfold last_visited. cbn [rev]. now destruct (rev insts).
Qed.

(** The loop of [create] for an identity that lacks a component: a name is
    drawn for every listed instance. *)
Lemma scan_drawn (job_key call_id : option string) (insts : list instance) :
  job_key = None \/ call_id = None ->
  forall (b : bool) (v : option instance) (s : client) (h : trace),
    for_each insts (check_vsi env job_key call_id) (b, v) {| self := s; history := h |}
    = (Returns (match last_hit env h insts with Some _ => true | None => b end,
                match last_visited insts with Some i => Some i | None => v end),
       {| self := match last_hit env h insts with
                  | Some i => set_instance_id (Some (inst_id i)) s
                  | None => s
                  end;
          history := (h ++ repeat EvNameGen (List.length insts))%list |}).
Proof.
  intros Hid. induction insts as [|i insts IH]; intros b v s h.
  - cbn. now rewrite app_nil_r.
  - cbn [for_each]. unfold bind at 1. unfold check_vsi at 1. unfold bind at 1.
    rewrite (generate_name_random env "instance" job_key call_id _ Hid).
    cbn [history last_hit]. fold (drawn_name env "instance" h).
    rewrite last_visited_cons.
    destruct (String.eqb (inst_name i) (drawn_name env "instance" h)).
    + unfold bind, update_self, modify, ret, log. cbn [fst snd self history].
      rewrite IH. cbn [List.length repeat]. rewrite <- app_assoc. cbn [app].
      destruct (last_hit env (h ++ [EvNameGen])%list insts);
        destruct (last_visited insts); reflexivity.
    + unfold ret, log. cbn [fst snd self history].
      rewrite IH. cbn [List.length repeat]. rewrite <- app_assoc. cbn [app].
      destruct (last_hit env (h ++ [EvNameGen])%list insts);
        destruct (last_visited insts); reflexivity.
Qed.

(** No listed instance bears the name drawn for it. *)
Lemma last_hit_none (insts : list instance) :
  forall h,
    (forall k i, nth_error insts k = Some i ->
       inst_name i <> drawn_name env "instance" (h ++ repeat EvNameGen k)%list) ->
    last_hit env h insts = None.
Proof.
  induction insts as [|x insts IH]; intros h Hno; [reflexivity |].
  cbn [last_hit]. rewrite IH.
  - pose proof (Hno 0%nat x eq_refl) as H. cbn [repeat] in H. rewrite app_nil_r in H.
    apply String.eqb_neq in H. now rewrite H.
  - intros k i Hk. rewrite <- app_assoc. exact (Hno (S k) i Hk).
Qed.

(** The last listed instance that bears the name drawn for it. *)
Lemma last_hit_last (insts : list instance) :
  forall h k i,
    nth_error insts k = Some i ->
    inst_name i = drawn_name env "instance" (h ++ repeat EvNameGen k)%list ->
    (forall k' i', (k < k')%nat -> nth_error insts k' = Some i' ->
       inst_name i' <> drawn_name env "instance" (h ++ repeat EvNameGen k')%list) ->
    last_hit env h insts = Some i.
Proof.
  induction insts as [|x insts IH]; intros h k i Hk Hn Hlater.
  - destruct k; discriminate Hk.
  - cbn [last_hit]. destruct k as [|k].
    + injection Hk as ->. cbn [repeat] in Hn. rewrite app_nil_r in Hn.
      rewrite last_hit_none.
      * apply String.eqb_eq in Hn. now rewrite Hn.
      * intros k' i' Hk'. rewrite <- app_assoc.
        exact (Hlater (S k') i' ltac:(lia) Hk').
    + rewrite (IH (h ++ [EvNameGen])%list k i Hk).
      * reflexivity.
      * now rewrite <- app_assoc.
      * intros k' i' Hlt Hk'. rewrite <- app_assoc.
        exact (Hlater (S k') i' ltac:(lia) Hk').
Qed.

(** The loop of [create] for an identity scoped to a job and a call:
    it adopts the last listed instance that bears the name. *)
Lemma scan_scoped (j c : string) (insts : list instance) (w : world client event) :
  let n := scoped_name "instance" j c in
  for_each insts (check_vsi env (Some j) (Some c)) (false, None) w
  = (Returns (match last_named n insts with Some _ => true | None => false end,
              last_visited insts),
     {| self := match last_named n insts with
                | Some i => set_instance_id (Some (inst_id i)) (self w)
                | None => self w
                end;
        history := history w |}).
Proof.
  intros n. destruct w as [s h]. induction insts as [|x xs IH] using rev_ind.
  - reflexivity.
  - rewrite for_each_app. unfold bind at 1. rewrite IH.
    unfold last_named, last_visited. rewrite !rev_unit. cbn [find hd_error for_each].
    unfold bind, check_vsi, bind. rewrite generate_name_scoped. fold n.
    destruct (String.eqb (inst_name x) n); cbn.
    + now destruct (find _ (rev xs)).
    + now destruct (find _ (rev xs)).
Qed.

Lemma last_named_some (n : string) (insts : list instance) (i : instance) :
  last_named n insts = Some i -> In i insts /\ inst_name i = n.
Proof.
  unfold last_named. intros H. apply find_some in H. destruct H as [Hin Hn].
  split; [now apply in_rev | now apply String.eqb_eq].
Qed.

Lemma last_named_none (n : string) (insts : list instance) :
  last_named n insts = None -> forall i, In i insts -> inst_name i <> n.
Proof.
  unfold last_named. intros H i Hi Hn.
  pose proof (find_none _ _ H i (proj1 (in_rev insts i) Hi)) as Hf.
  cbn in Hf. apply String.eqb_neq in Hf. contradiction.
Qed.

Lemma last_named_exists (n : string) (insts : list instance) :
  (exists i, In i insts /\ inst_name i = n) -> exists i, last_named n insts = Some i.
Proof.
  intros [i [Hi Hn]]. destruct (last_named n insts) as [i' |] eqn:H; [now exists i' |].
  exfalso. exact (last_named_none n insts H i Hi Hn).
Qed.

(** The first half of [create] for an identity scoped to a job and a
    call, once the instances are listed. *)
Lemma lookup_scoped (j c : string) (insts : list instance) (w : world client event) :
  env_list_instances env (history w) = inr insts ->
  let n := scoped_name "instance" j c in
  let p := {| proto_name := n;
              proto_boot_name := scoped_name "boot" j c;
              proto_volume_name := scoped_name "volume" j c;
              proto_settings := config (self w) |} in
  lookup_or_create env (Some j) (Some c) w
  = match last_named n insts with
    | Some i =>
        (Returns (true, last_visited insts),
         {| self := set_instance_id (Some (inst_id i)) (self w);
            history := (history w ++ [EvListInstances])%list |})
    | None =>
        match env_create_instance env (history w ++ [EvListInstances])%list p with
        | inr inst =>
            (Returns (false, Some inst),
             {| self := set_config_instance_id (Some (inst_id inst))
                          (set_instance_id (Some (inst_id inst)) (self w));
                history := (history w ++ [EvListInstances; EvCreateInstance p])%list |})
        | inl e =>
            (Raises e,
             {| self := set_instance_id None (self w);
                history := (history w ++ [EvListInstances; EvCreateInstance p])%list |})
        end
    end.
Proof.
  intros Hl n p. unfold lookup_or_create, bind, update_self, modify, perform.
  cbn [fst snd history self log]. rewrite Hl.
  rewrite scan_scoped. fold n. cbn [fst snd history self].
  destruct (last_named n insts) as [i |]; cbn [negb].
  - reflexivity.
  - unfold try_except, _create_instance, bind, get_world.
    rewrite !generate_name_scoped. fold n. cbn [self config set_instance_id].
    unfold perform. cbn [history]. subst p.
    destruct (env_create_instance env _ _) as [e | inst];
      unfold raise, ret, update_self, modify, log; cbn;
      rewrite <- app_assoc; reflexivity.
Qed.

(** The first half of [create] for an identity that lacks a component,
    once the instances are listed. *)
Lemma lookup_drawn (job_key call_id : option string) (insts : list instance)
      (w : world client event) :
  job_key = None \/ call_id = None ->
  env_list_instances env (history w) = inr insts ->
  let h1 := (history w ++ [EvListInstances])%list in
  let h2 := (h1 ++ repeat EvNameGen (List.length insts))%list in
  match last_hit env h1 insts with
  | Some i =>
      lookup_or_create env job_key call_id w
      = (Returns (true, last_visited insts),
         {| self := set_instance_id (Some (inst_id i)) (self w); history := h2 |})
  | None =>
      history (snd (lookup_or_create env job_key call_id w))
      = (h2 ++ [EvNameGen; EvNameGen; EvNameGen;
                EvCreateInstance
                  {| proto_name :=
                       drawn_name env "instance" (h2 ++ [EvNameGen; EvNameGen])%list;
                     proto_boot_name := drawn_name env "boot" (h2 ++ [EvNameGen])%list;
                     proto_volume_name := drawn_name env "volume" h2;
                     proto_settings := config (self w) |}])%list
  end.
Proof.
  intros Hid Hl h1 h2.
  unfold lookup_or_create, bind, update_self, modify, perform.
  cbn [fst snd history self log]. rewrite Hl. unfold log. cbn [self history].
  fold h1. rewrite (scan_drawn job_key call_id insts Hid). fold h2.
  destruct (last_hit env h1 insts) as [i |]; cbn [fst snd negb].
  - unfold ret. do 2 f_equal.
    unfold last_visited. now destruct (rev insts).
  - unfold try_except, _create_instance, bind, get_world. cbn [fst snd].
    rewrite !(generate_name_random env _ job_key call_id _ Hid).
    unfold log, perform. cbn [self history config set_instance_id].
    unfold drawn_name.
    match goal with
    | |- context [env_create_instance env ?h ?p] =>
        destruct (env_create_instance env h p) as [e | inst]
    end;
      unfold raise, ret, update_self, modify, log; cbn [fst snd self history];
      rewrite <- !app_assoc; reflexivity.
Qed.

(** C10 (as amended). [_generate_name] is deterministic only when both
    the job key and the call id are given: it then returns the scoped
    name and draws nothing.  With either one missing it returns a name
    built on a fresh draw of the generator, and two such calls get the
    same name exactly when their draws are equal: nothing in the code
    keeps the draws apart.  A [create] with such an identity compares
    every listed instance with a name of its own draw; it adopts the
    last listed instance that equals its draw, and when there is none it
    asks for an instance whose name is built on a further draw. *)
Theorem generate_name_needs_both (r_type : string) (job_key call_id : option string)
        (w : world client event) :
  (forall j c, job_key = Some j -> call_id = Some c ->
     _generate_name env r_type job_key call_id w
     = (Returns ("lithops" ++ j ++ "-" ++ c ++ "-" ++ r_type)%string, w))
  /\ (job_key = None \/ call_id = None ->
      _generate_name env r_type job_key call_id w
      = (Returns ("lithops-" ++ env_namegen env (history w) ++ "-" ++ r_type)%string,
         log EvNameGen w))
  /\ (job_key = None \/ call_id = None ->
      forall (w' : world client event),
        fst (_generate_name env r_type job_key call_id w)
        = fst (_generate_name env r_type job_key call_id w')
        <-> env_namegen env (history w) = env_namegen env (history w'))
  /\ (job_key = None \/ call_id = None ->
      forall insts,
        env_list_instances env (history w) = inr insts ->
        let h1 := (history w ++ [EvListInstances])%list in
        let h2 := (h1 ++ repeat EvNameGen (List.length insts))%list in
        let found := lookup_or_create env job_key call_id w in
        (forall k i,
           nth_error insts k = Some i ->
           inst_name i = drawn_name env "instance" (h1 ++ repeat EvNameGen k)%list ->
           (forall k' i', (k < k')%nat -> nth_error insts k' = Some i' ->
              inst_name i'
              <> drawn_name env "instance" (h1 ++ repeat EvNameGen k')%list) ->
           found = (Returns (true, last_visited insts),
                    {| self := set_instance_id (Some (inst_id i)) (self w);
                       history := h2 |}))
        /\ ((forall k i,
               nth_error insts k = Some i ->
               inst_name i
               <> drawn_name env "instance" (h1 ++ repeat EvNameGen k)%list) ->
            exists p,
              proto_name p
              = drawn_name env "instance" (h2 ++ [EvNameGen; EvNameGen])%list
              /\ history (snd found)
                 = (h2 ++ [EvNameGen; EvNameGen; EvNameGen; EvCreateInstance p])%list)).
Proof.
  split; [| split; [| split]].
  - intros j c -> ->. reflexivity.
  - apply generate_name_random.
  - intros Hid w'.
    rewrite !(generate_name_random env r_type job_key call_id _ Hid). cbn [fst].
    split.
    + intros [= H]. now apply append_inv_tail in H.
    + now intros ->.
  - intros Hid insts Hl h1 h2 found.
    pose proof (lookup_drawn job_key call_id insts w Hid Hl) as Hlook.
    cbv zeta in Hlook. fold h1 h2 found in Hlook. split.
    + intros k i Hk Hn Hlater.
      now rewrite (last_hit_last insts h1 k i Hk Hn Hlater) in Hlook.
    + intros Hno. rewrite (last_hit_none insts h1 Hno) in Hlook.
      eexists. split; [| exact Hlook]. reflexivity.
Qed.

(** Keeping [self.instance_id] and issuing no creation call. *)
#[local] Abbreviation keeps_instance :=
  (keeps (fun s s' : client => instance_id s' = instance_id s)
         (fun ev => ~ creates_instance ev)).

Ltac side_instance := solve [intros; cbn; auto; congruence].

Lemma generate_name_keeps_instance (r_type : string) (job_key call_id : option string) :
  keeps_instance (_generate_name env r_type job_key call_id).
Proof.
  unfold _generate_name. destruct job_key, call_id; frame side_instance.
Qed.

Lemma attach_keeps_instance (inst : instance) (job_key call_id : option string) :
  keeps_instance (_create_and_attach_floating_ip env inst job_key call_id).
Proof.
  unfold _create_and_attach_floating_ip.
  pose proof (generate_name_keeps_instance "fip" job_key call_id).
  frame side_instance.
Qed.

Lemma delete_keeps_instance : keeps_instance (_delete_instance env).
Proof. unfold _delete_instance. frame side_instance. Qed.

(** The second half of [create]: the floating IP, or the roll back. *)
Lemma create_keeps_instance (job_key call_id : option string)
      (w w1 : world client event) (vars : bool * option instance) :
  lookup_or_create env job_key call_id w = (Returns vars, w1) ->
  instance_id (self (snd (create env job_key call_id w))) = instance_id (self w1)
  /\ exists evs, history (snd (create env job_key call_id w)) = (history w1 ++ evs)%list
                 /\ Forall (fun ev => ~ creates_instance ev) evs.
Proof.
  intros Hl. unfold create. rewrite (bind_returns _ _ _ _ _ Hl).
  match goal with
  | |- context [try_except ?m ?h w1] =>
      assert (K : keeps_instance (try_except m h))
  end.
  { pose proof (attach_keeps_instance).
    pose proof delete_keeps_instance.
    frame side_instance. }
  exact (K w1).
Qed.

(** C1. [create] is create-or-adopt for an identity scoped to a job and
    a call.  Whenever the listing holds an instance that bears the
    derived name, [create] sets [instance_id] to the id of such an
    instance (the last one listed) and issues no creation call; a
    creation call is issued, with the derived name, only when no listed
    instance bears it. *)
Theorem create_adopts_existing (j c n : string) (insts : list instance)
        (w : world client event) :
  _generate_name env "instance" (Some j) (Some c) w = (Returns n, w) ->
  env_list_instances env (history w) = inr insts ->
  let w' := snd (create env (Some j) (Some c) w) in
  exists evs,
    history w' = (history w ++ EvListInstances :: evs)%list
    /\ ((exists i, In i insts /\ inst_name i = n) ->
        (exists i, In i insts /\ inst_name i = n
                   /\ last_named n insts = Some i
                   /\ instance_id (self w') = Some (inst_id i))
        /\ Forall (fun ev => ~ creates_instance ev) evs)
    /\ ((forall i, In i insts -> inst_name i <> n) ->
        exists p evs', proto_name p = n /\ evs = EvCreateInstance p :: evs'
                       /\ Forall (fun ev => ~ creates_instance ev) evs').
Proof.
  rewrite generate_name_scoped. intros [= <-] Hl w'.
  pose proof (lookup_scoped j c insts w Hl) as Hlook. cbv zeta in Hlook.
  set (n := scoped_name "instance" j c) in *.
  destruct (last_named n insts) as [i |] eqn:Hlast.
  - (* adoption *)
    destruct (create_keeps_instance _ _ _ _ _ Hlook) as [Hid [evs [Hh HP]]].
    fold w' in Hid, Hh. cbn [self history set_instance_id instance_id] in Hid, Hh.
    exists evs. rewrite Hh, <- app_assoc. split; [reflexivity |]. split.
    + intros _. split; [| exact HP].
      destruct (last_named_some n insts i Hlast) as [Hin Hn].
      exists i. repeat split; assumption.
    + intros Hnone. exfalso.
      destruct (last_named_some n insts i Hlast) as [Hin Hn].
      exact (Hnone i Hin Hn).
  - (* creation *)
    match type of Hlook with
    | context [env_create_instance env ?h ?p] =>
        set (proto := p) in *; destruct (env_create_instance env h proto) as [e | inst]
    end.
    + (* the creation call raises *)
      exists [EvCreateInstance proto]. unfold w', create.
      rewrite (bind_raises _ _ _ _ _ Hlook).
      cbn [snd history]. split; [reflexivity |]. split.
      * intros [i [Hin Hn]]. exfalso. exact (last_named_none n insts Hlast i Hin Hn).
      * intros _. exists proto, []. repeat split. constructor.
    + destruct (create_keeps_instance _ _ _ _ _ Hlook) as [_ [evs [Hh HP]]].
      fold w' in Hh. cbn [history] in Hh.
      exists (EvCreateInstance proto :: evs).
      rewrite Hh, <- app_assoc. split; [reflexivity |]. split.
      * intros [i [Hin Hn]]. exfalso. exact (last_named_none n insts Hlast i Hin Hn).
      * intros _. exists proto, evs. repeat split. exact HP.
Qed.

End Lookup.

Section Teardown.

Variable env : environment.

#[local] Abbreviation release :=
  (fun (fip : floating_ip) (_ : unit) =>
     perform_ (EvDeleteFloatingIp (fip_id fip))
              (fun h => env_delete_floating_ip env h (fip_id fip))
     : Py unit).

#[local] Abbreviation released fips :=
  (map (fun fip => EvDeleteFloatingIp (fip_id fip)) fips).

(** The two nested loops of [_delete_instance] visit the floating IPs
    of the interfaces one after the other. *)
Lemma release_nested (nics : list nic) (w : world client event) :
  for_each nics
    (fun n (_ : unit) =>
       match nic_floating_ips n with
       | Some fips => for_each fips release tt
       | None => ret tt
       end) tt w
  = for_each (attached_floating_ips nics) release tt w.
Proof.
  revert w. induction nics as [|n nics IH]; intros w; [reflexivity |].
  cbn [for_each attached_floating_ips flat_map].
  rewrite for_each_app. unfold bind at 1 2.
  destruct (nic_floating_ips n) as [fips |].
  - destruct (for_each fips release tt w) as [[[] | e |] w1]; [apply IH | reflexivity ..].
  - cbn. apply IH.
Qed.

(** Releasing a list of floating IPs: the calls issued are those for
    the IPs up to the first failure, all of them when the loop returns. *)
Lemma release_run (fips : list floating_ip) (w : world client event) :
  exists done rest,
    fips = (done ++ rest)%list
    /\ snd (for_each fips release tt w)
       = {| self := self w; history := (history w ++ released done)%list |}
    /\ match fst (for_each fips release tt w) with
       | Returns _ => rest = []
       | Raises _ => True
       | OutOfFuel => False
       end.
Proof.
  revert w. induction fips as [|fip fips IH]; intros [s h].
  - exists [], []. cbn. rewrite app_nil_r. auto.
  - cbn [for_each]. cbv beta.
    destruct (env_delete_floating_ip env h (fip_id fip)) as [e |] eqn:Ha.
    + rewrite (bind_raises _ _ _ _ _
                 (perform__raises (EvDeleteFloatingIp (fip_id fip))
                    (fun h => env_delete_floating_ip env h (fip_id fip))
                    {| self := s; history := h |} e Ha)).
      exists [fip], fips. cbn. auto.
    + rewrite (bind_returns _ _ _ _ _
                 (perform__returns (EvDeleteFloatingIp (fip_id fip))
                    (fun h => env_delete_floating_ip env h (fip_id fip))
                    {| self := s; history := h |} Ha)).
      destruct (IH (log (EvDeleteFloatingIp (fip_id fip)) {| self := s; history := h |}))
        as [done [rest [Hsplit [Hw Hout]]]].
      exists (fip :: done), rest. split; [cbn; now f_equal |].
      rewrite Hw. cbn [self history map log]. rewrite <- app_assoc. auto.
Qed.

Lemma release_all (fips : list floating_ip) (w : world client event) :
  (forall h id, env_delete_floating_ip env h id = None) ->
  for_each fips release tt w
  = (Returns tt, {| self := self w; history := (history w ++ released fips)%list |}).
Proof.
  intros Hok. revert w. induction fips as [|fip fips IH]; intros [s h].
  - cbn. now rewrite app_nil_r.
  - cbn [for_each]. cbv beta.
    rewrite (bind_returns _ _ _ _ _
               (perform__returns (EvDeleteFloatingIp (fip_id fip))
                  (fun h => env_delete_floating_ip env h (fip_id fip))
                  {| self := s; history := h |} (Hok _ _))).
    rewrite IH. cbn [self history map log]. now rewrite <- app_assoc.
Qed.

(** [_delete_instance] once the interfaces are listed. *)
Lemma delete_instance_listed (w : world client event) (nics : list nic) :
  let id := config_instance_id (self w) in
  env_list_instance_nics env (history w) id = inr nics ->
  _delete_instance env w
  = bind (for_each (attached_floating_ips nics) release tt)
         (fun _ => perform_ (EvDeleteInstance id)
                            (fun h => env_delete_instance env h id))
         (log (EvListInstanceNics id) w).
Proof.
  intros id Hl. unfold _delete_instance.
  rewrite (bind_returns get_world _ w w w eq_refl). cbv beta. fold id.
  rewrite (bind_returns _ _ _ _ _
             (perform_returns (EvListInstanceNics id)
                (fun h => env_list_instance_nics env h id) w nics Hl)).
  unfold bind. now rewrite release_nested.
Qed.

(** A run of [_delete_instance] once the interfaces are listed: it
    touches no field, what it issues is the start of the complete
    teardown, and the whole of it when it returns. *)
Lemma delete_instance_run (w : world client event) (nics : list nic) :
  let id := config_instance_id (self w) in
  let r := _delete_instance env w in
  env_list_instance_nics env (history w) id = inr nics ->
  self (snd r) = self w
  /\ (exists evs, history (snd r) = (history w ++ evs)%list
                  /\ prefix_of evs (teardown id nics))
  /\ (fst r = Returns tt -> history (snd r) = (history w ++ teardown id nics)%list)
  /\ fst r <> OutOfFuel.
Proof.
  intros id r Hl. subst r. rewrite (delete_instance_listed w nics Hl). fold id.
  unfold bind.
  pose proof (release_run (attached_floating_ips nics) (log (EvListInstanceNics id) w))
    as [done [rest [Hsplit [Hw Hout]]]].
  unfold teardown. rewrite Hsplit in *.
  destruct (for_each (done ++ rest) release tt
                     (log (EvListInstanceNics id) w)) as [[[] | e |] w1];
    cbn [fst snd] in *; subst w1; cbn [self history log] in *.
  - subst rest. rewrite app_nil_r. unfold perform_, perform. cbn [history].
    destruct (env_delete_instance env _ id) as [e |]; cbn [fst snd self history log];
      rewrite <- !app_assoc; cbn [app];
      (split; [reflexivity |]);
      (split; [| split; [intros; reflexivity || discriminate | discriminate]]);
      eexists; (split; [reflexivity |]); exists []; now rewrite app_nil_r.
  - split; [reflexivity |]. split; [| split; discriminate].
    exists (EvListInstanceNics id :: released done). rewrite <- app_assoc. cbn [app].
    split; [reflexivity |].
    exists (released rest ++ [EvDeleteInstance id])%list.
    cbn [app]. now rewrite map_app, <- app_assoc.
  - contradiction.
Qed.

(** When no release and no deletion fails, [_delete_instance] returns. *)
Lemma delete_instance_returns (w : world client event) (nics : list nic) :
  let id := config_instance_id (self w) in
  env_list_instance_nics env (history w) id = inr nics ->
  (forall h f, env_delete_floating_ip env h f = None) ->
  (forall h, env_delete_instance env h id = None) ->
  fst (_delete_instance env w) = Returns tt.
Proof.
  intros id Hl Hf Hd. rewrite (delete_instance_listed w nics Hl). fold id.
  unfold bind. rewrite (release_all _ _ Hf). unfold perform_, perform. now rewrite Hd.
Qed.

Lemma suspends_not_releases (ev : event) : suspends ev -> ~ releases ev.
Proof. destruct ev; cbn; auto. Qed.

(** Whatever happens, the action [stop] issues the calls of a
    suspension only. *)
Lemma stop_action_suspends (fuel : nat) :
  keeps (fun _ _ : client => True) suspends (create_instance_action env fuel "stop").
Proof.
  unfold create_instance_action, poll_instance, get_instance, _authorize_session.
  frame ltac:(solve [intros; cbn; auto]).
Qed.

(** The action [stop] on an instance that reports [stopped] at once. *)
Lemma stop_action_returns (fuel : nat) (w : world client event)
      (id iid : string) (res : action_response) (d : instance_data) :
  config_instance_id (self w) = Some id ->
  instance_id (self w) = Some iid ->
  (forall h, env_get_token env h = None) ->
  (forall h, env_post_action env h id "stop" = inr res) ->
  action_status res = 201 ->
  (forall h, env_get_instance env h iid = inr d) ->
  data_status d = Some "stopped"%string ->
  create_instance_action env fuel "stop" w
  = (Returns tt,
     {| self := set_instance_data d (self w);
        history := (history w ++ [EvGetToken; EvPostAction id "stop"; EvGetToken;
                                  EvGetInstance iid])%list |}).
Proof.
  intros Hc Hi Htok Hpost H201 Hget Hd.
  unfold create_instance_action, get_instance, _authorize_session,
    bind, get_world, perform_, perform, update_self, modify, ret, log.
  cbn [String.eqb Ascii.eqb Bool.eqb orb fst snd self history].
  rewrite Hc. cbn [fst snd self history]. rewrite Htok, Hpost, H201.
  cbn [Z.eqb Pos.eqb negb fst snd self history]. rewrite Hi, Htok, Hget.
  unfold status_differs. cbn [self set_instance_data last_instance_data]. rewrite Hd.
  cbn [String.eqb Ascii.eqb Bool.eqb negb].
  destruct fuel; cbn [while_loop ret]; rewrite Hd; cbn; rewrite <- !app_assoc; reflexivity.
Qed.

(** C8. [stop] follows the flag [delete_on_dismantle].  When it is set,
    [stop] is a teardown of the instance in [config]: what it issues
    is, in this order, the listing of the interfaces, the release of
    every floating IP of each interface and the deletion of the instance
    -- all of it when [stop] returns, which it does when no release and
    no deletion fails, and a start of it otherwise.  When it is not set,
    [stop] issues nothing but the token, the instance action [stop], the
    status polls and their pauses: no address is released and nothing is
    deleted. *)
Theorem stop_obeys_policy (fuel : nat) (w : world client event) :
  let id := config_instance_id (self w) in
  let r := stop env fuel w in
  (delete_on_dismantle (self w) = true ->
   forall nics,
     env_list_instance_nics env (history w) id = inr nics ->
     (exists evs, history (snd r) = (history w ++ evs)%list
                  /\ prefix_of evs (teardown id nics))
     /\ (fst r = Returns tt ->
         history (snd r) = (history w ++ teardown id nics)%list)
     /\ ((forall h f, env_delete_floating_ip env h f = None) ->
         (forall h, env_delete_instance env h id = None) ->
         fst r = Returns tt))
  /\ (delete_on_dismantle (self w) = false ->
      (exists evs, history (snd r) = (history w ++ evs)%list
                   /\ Forall (fun ev => suspends ev /\ ~ releases ev) evs)
      /\ (forall i iid res d,
            id = Some i -> instance_id (self w) = Some iid ->
            (forall h, env_get_token env h = None) ->
            (forall h, env_post_action env h i "stop" = inr res) ->
            action_status res = 201 ->
            (forall h, env_get_instance env h iid = inr d) ->
            data_status d = Some "stopped"%string ->
            fst r = Returns tt
            /\ history (snd r)
               = (history w ++ [EvGetToken; EvPostAction i "stop"; EvGetToken;
                                EvGetInstance iid])%list)).
Proof.
  intros id r. subst r. unfold stop.
  rewrite (bind_returns get_world _ w w w eq_refl). cbv beta.
  split; intros Hflag; rewrite Hflag.
  - intros nics Hl.
    destruct (delete_instance_run w nics Hl) as [_ [Hpre [Hall _]]].
    split; [exact Hpre |]. split; [exact Hall |].
    intros Hf Hd. exact (delete_instance_returns w nics Hl Hf Hd).
  - split.
    + destruct (stop_action_suspends fuel w) as [_ [evs [Hh HP]]].
      exists evs. split; [exact Hh |].
      eapply Forall_impl; [| exact HP].
      intros ev Hev. split; [exact Hev | now apply suspends_not_releases].
    + intros i iid res d Hc Hi Htok Hpost H201 Hget Hd.
      rewrite (stop_action_returns fuel w i iid res d Hc Hi Htok Hpost H201 Hget Hd).
      split; reflexivity.
Qed.

(** An instance created by the first half of [create] is the one that
    [config] names afterwards. *)
Lemma lookup_created (job_key call_id : option string) (w w1 : world client event)
      (inst : instance) :
  lookup_or_create env job_key call_id w = (Returns (false, Some inst), w1) ->
  config_instance_id (self w1) = Some (inst_id inst).
Proof.
  unfold lookup_or_create. intros H.
  apply bind_inv in H. destruct H as [[] [wa [_ H]]].
  apply bind_inv in H. destruct H as [insts [wb [_ H]]].
  apply bind_inv in H. destruct H as [vars [wc [_ H]]].
  destruct (fst vars) eqn:Hv; cbn [negb] in H.
  - injection H as H _. rewrite H in Hv. discriminate.
  - apply try_reraise_inv in H.
    apply bind_inv in H. destruct H as [i [wd [_ H]]].
    apply bind_inv in H. destruct H as [[] [we [Hset1 H]]].
    apply bind_inv in H. destruct H as [[] [wf [Hset2 H]]].
    injection H as Hi Hw. injection Hset2 as Hf. subst. reflexivity.
Qed.

Lemma attach_keeps_config (inst : instance) (job_key call_id : option string) :
  keeps (fun s s' : client => config_instance_id s' = config_instance_id s)
        (fun _ => True)
        (_create_and_attach_floating_ip env inst job_key call_id).
Proof.
  unfold _create_and_attach_floating_ip, _generate_name.
  frame ltac:(solve [intros; cbn; auto; congruence]).
Qed.

(** Releasing floating IPs that the service lets go. *)
Lemma release_done (fips : list floating_ip) :
  forall w : world client event,
    releasable env (history w) fips ->
    for_each fips release tt w
    = (Returns tt, {| self := self w; history := (history w ++ releases_of fips)%list |}).
Proof.
  induction fips as [|fip fips IH]; intros [s h] Hok.
  - cbn. now rewrite app_nil_r.
  - cbn [for_each]. cbv beta.
    assert (Hfip : env_delete_floating_ip env h (fip_id fip) = None).
    { pose proof (Hok [] fip fips eq_refl) as H. cbn in H.
      now rewrite app_nil_r in H. }
    rewrite (bind_returns _ _ _ _ _
               (perform__returns (EvDeleteFloatingIp (fip_id fip))
                  (fun h => env_delete_floating_ip env h (fip_id fip))
                  {| self := s; history := h |} Hfip)).
    rewrite IH.
    + cbn [self history map log releases_of]. now rewrite <- app_assoc.
    + intros done f rest Hsplit. cbn [history log].
      pose proof (Hok (fip :: done) f rest) as H. cbn [app] in H.
      rewrite Hsplit in H. specialize (H eq_refl).
      cbn [releases_of map] in H. unfold releases_of.
      now rewrite <- app_assoc.
Qed.

(** The release that fails ends the loop: the floating IPs after it are
    not visited. *)
Lemma release_fails (done rest : list floating_ip) (fip : floating_ip) (e : exn)
      (w : world client event) :
  releasable env (history w) done ->
  env_delete_floating_ip env (history w ++ releases_of done)%list (fip_id fip) = Some e ->
  for_each (done ++ fip :: rest) release tt w
  = (Raises e,
     {| self := self w; history := (history w ++ releases_of (done ++ [fip]))%list |}).
Proof.
  intros Hok Hfip. rewrite for_each_app.
  rewrite (bind_returns _ _ _ _ _ (release_done done w Hok)).
  cbn [for_each]. cbv beta.
  rewrite (bind_raises _ _ _ _ _
             (perform__raises (EvDeleteFloatingIp (fip_id fip))
                (fun h => env_delete_floating_ip env h (fip_id fip))
                {| self := self w; history := (history w ++ releases_of done)%list |}
                e Hfip)).
  unfold log, releases_of. cbn [self history].
  now rewrite map_app, <- app_assoc.
Qed.

(** Once the instance is created and the floating IP has failed, the
    rest of [create] is the roll back on the created instance, followed
    by the exception of the floating IP. *)
Lemma create_after_failure (job_key call_id : option string)
      (w w1 w2 : world client event) (inst : instance) (e : exn) :
  lookup_or_create env job_key call_id w = (Returns (false, Some inst), w1) ->
  _create_and_attach_floating_ip env inst job_key call_id w1 = (Raises e, w2) ->
  config_instance_id (self w2) = Some (inst_id inst)
  /\ create env job_key call_id w
     = bind (_delete_instance env) (fun _ => raise e) w2.
Proof.
  intros Hlook Hattach. split.
  - destruct (attach_keeps_config inst job_key call_id w1) as [H _].
    rewrite Hattach in H. cbn [snd] in H. rewrite H.
    exact (lookup_created _ _ _ _ _ Hlook).
  - unfold create. rewrite (bind_returns _ _ _ _ _ Hlook). cbn [snd].
    unfold try_except.
    rewrite (bind_returns (ret inst) _ w1 w1 inst eq_refl).
    now rewrite (bind_raises _ _ _ _ _ Hattach).
Qed.

(** C4 (as amended). When the instance was created by this call and
    [_create_and_attach_floating_ip] raises, [create] runs
    [_delete_instance] on the created instance and nothing else.  The
    roll back lists the interfaces of the instance, releases each of
    their floating IPs and deletes the instance, in this order; when all
    of these calls succeed, [create] raises the exception of the failed
    floating IP.  The first of these calls that raises ends [create]
    with its own exception in place of that one, and the calls after it
    are not made: a listing that fails leaves the floating IPs and the
    instance, a release that fails leaves the later floating IPs and
    the instance. *)
Theorem create_rolls_back (job_key call_id : option string)
        (w w1 w2 : world client event) (inst : instance) (e : exn) :
  lookup_or_create env job_key call_id w = (Returns (false, Some inst), w1) ->
  _create_and_attach_floating_ip env inst job_key call_id w1 = (Raises e, w2) ->
  let id := Some (inst_id inst) in
  let run := create env job_key call_id w in
  let h3 := (history w2 ++ [EvListInstanceNics id])%list in
  (forall e',
     env_list_instance_nics env (history w2) id = inl e' ->
     run = (Raises e', {| self := self w2; history := h3 |}))
  /\ forall nics,
       env_list_instance_nics env (history w2) id = inr nics ->
       let fips := attached_floating_ips nics in
       (forall done fip rest e',
          fips = (done ++ fip :: rest)%list ->
          releasable env h3 done ->
          env_delete_floating_ip env (h3 ++ releases_of done)%list (fip_id fip)
            = Some e' ->
          run = (Raises e',
                 {| self := self w2;
                    history := (h3 ++ releases_of (done ++ [fip]))%list |}))
       /\ (releasable env h3 fips ->
           (forall e',
              env_delete_instance env (h3 ++ releases_of fips)%list id = Some e' ->
              run = (Raises e',
                     {| self := self w2;
                        history := (history w2 ++ teardown id nics)%list |}))
           /\ (env_delete_instance env (h3 ++ releases_of fips)%list id = None ->
               run = (Raises e,
                      {| self := self w2;
                         history := (history w2 ++ teardown id nics)%list |}))).
Proof.
  intros Hlook Hattach id run h3.
  destruct (create_after_failure _ _ _ _ _ _ _ Hlook Hattach) as [Hc Hrun].
  fold id in Hc. subst run. rewrite Hrun. clear Hrun. split.
  - intros e' Hl.
    assert (Hd : _delete_instance env w2 = (Raises e', log (EvListInstanceNics id) w2)).
    { unfold _delete_instance.
      rewrite (bind_returns get_world _ w2 w2 w2 eq_refl). cbv beta. rewrite Hc.
      exact (bind_raises _ _ _ _ _
               (perform_raises (EvListInstanceNics id)
                  (fun h => env_list_instance_nics env h id) w2 e' Hl)). }
    rewrite (bind_raises _ _ _ _ _ Hd). reflexivity.
  - intros nics Hl fips.
    pose proof (delete_instance_listed w2 nics) as Hd. cbv zeta in Hd.
    rewrite Hc in Hd. specialize (Hd Hl). fold fips in Hd.
    split.
    + intros done fip rest e' Hsplit Hok Hfip. rewrite Hsplit in Hd.
      pose proof (eq_trans Hd
                    (bind_raises _ _ _ _ _
                       (release_fails done rest fip e' (log (EvListInstanceNics id) w2)
                          Hok Hfip))) as Hres.
      rewrite (bind_raises _ _ _ _ _ Hres). reflexivity.
    + intros Hok.
      pose proof (release_done fips (log (EvListInstanceNics id) w2) Hok) as Hrel.
      assert (Hall : ((h3 ++ releases_of fips) ++ [EvDeleteInstance id])%list
                     = (history w2 ++ teardown id nics)%list).
      { unfold h3, teardown, releases_of. fold fips.
        rewrite <- !app_assoc. reflexivity. }
      split.
      * intros e' Hdel.
        pose proof (eq_trans Hd
                      (eq_trans
                         (bind_returns _ _ _ _ _ Hrel)
                         (perform__raises (EvDeleteInstance id)
                            (fun h => env_delete_instance env h id)
                            {| self := self w2;
                               history := (h3 ++ releases_of fips)%list |} e' Hdel)))
          as Hres.
        rewrite (bind_raises _ _ _ _ _ Hres).
        unfold log. cbn [self history]. fold h3. now rewrite Hall.
      * intros Hdel.
        pose proof (eq_trans Hd
                      (eq_trans
                         (bind_returns _ _ _ _ _ Hrel)
                         (perform__returns (EvDeleteInstance id)
                            (fun h => env_delete_instance env h id)
                            {| self := self w2;
                               history := (h3 ++ releases_of fips)%list |} Hdel)))
          as Hres.
        rewrite (bind_returns _ _ _ _ _ Hres).
        unfold raise, log. cbn [self history]. fold h3. now rewrite Hall.
Qed.

End Teardown.

Section Addresses.

Variable env : environment.

Lemma find_floating_ip_app (n : string) (l : list floating_ip) (fip : floating_ip) :
  find_floating_ip n (l ++ [fip])
  = if String.eqb (fip_name fip) n then Some fip else find_floating_ip n l.
Proof. unfold find_floating_ip. now rewrite fold_left_app. Qed.

Lemma find_floating_ip_some (n : string) (l : list floating_ip) (fip : floating_ip) :
  find_floating_ip n l = Some fip -> In fip l /\ fip_name fip = n.
Proof.
  induction l as [|x l IH] using rev_ind; [discriminate |].
  rewrite find_floating_ip_app.
  destruct (String.eqb_spec (fip_name x) n) as [Hn | _].
  - intros [= <-]. split; [apply in_or_app; right; now left | exact Hn].
  - intros H. destruct (IH H) as [Hin Hname].
    split; [apply in_or_app; now left | exact Hname].
Qed.

(** A name borne by one listed floating IP only is found there. *)
Lemma find_floating_ip_unique (n : string) (l : list floating_ip) (fip : floating_ip) :
  In fip l -> fip_name fip = n ->
  (forall f, In f l -> fip_name f = n -> f = fip) ->
  find_floating_ip n l = Some fip.
Proof.
  intros Hin Hn Huniq.
  destruct (find_floating_ip n l) as [f |] eqn:Hf.
  - destruct (find_floating_ip_some n l f Hf) as [Hinf Hnf].
    now rewrite (Huniq f Hinf Hnf).
  - exfalso. clear Huniq. induction l as [|x l IH] using rev_ind; [contradiction |].
    rewrite find_floating_ip_app in Hf.
    destruct (String.eqb_spec (fip_name x) n) as [_ | Hne]; [discriminate |].
    apply in_app_or in Hin. destruct Hin as [Hin | [-> | []]]; [auto | contradiction].
Qed.

(** C7 (as amended). Attaching is idempotent for the floating IP that
    the lookup keeps: when the last listed floating IP that bears the
    derived name is bound to the primary interface of the instance (same
    id, same primary IPv4 address), [_create_and_attach_floating_ip]
    returns its address after the listing, having allocated no floating
    IP and attached none.  This is the case whenever the derived name is
    borne by one listed floating IP only. *)
Theorem attach_is_idempotent (inst : instance) (job_key call_id : option string)
        (w w1 : world client event) (n : string)
        (l : list floating_ip) (fip : floating_ip) (target : interface) :
  _generate_name env "fip" job_key call_id w = (Returns n, w1) ->
  env_list_floating_ips env (history w1) = inr l ->
  find_floating_ip n l = Some fip ->
  fip_target fip = Some target ->
  ni_id target = ni_id (primary_network_interface inst) ->
  primary_ipv4_address target = primary_ipv4_address (primary_network_interface inst) ->
  _create_and_attach_floating_ip env inst job_key call_id w
  = (Returns (fip_address fip), log EvListFloatingIps w1)
  /\ In fip l /\ fip_name fip = n
  /\ exists evs, history (log EvListFloatingIps w1) = (history w ++ evs)%list
                 /\ Forall (fun ev => ~ binds_address ev) evs.
Proof.
  intros Hn Hl Hfind Ht Hid Hip.
  split; [| split; [exact (proj1 (find_floating_ip_some n l fip Hfind)) |
            split; [exact (proj2 (find_floating_ip_some n l fip Hfind)) |]]].
  - unfold _create_and_attach_floating_ip.
    rewrite (bind_returns _ _ _ _ _ Hn).
    unfold bind at 1. unfold try_except.
    rewrite (bind_returns _ _ _ _ _
               (perform_returns EvListFloatingIps (env_list_floating_ips env) w1 l Hl)).
    cbn [ret]. rewrite Hfind.
    unfold bind, get_world, ret. unfold already_attached.
    rewrite Ht, Hid, Hip, !String.eqb_refl. reflexivity.
  - destruct job_key as [j |], call_id as [c |]; cbn in Hn; injection Hn as _ <-.
    + exists [EvListFloatingIps]. cbn. split; [reflexivity |]. repeat constructor; auto.
    + exists [EvNameGen; EvListFloatingIps]. cbn. rewrite <- app_assoc.
      split; [reflexivity |]. repeat constructor; auto.
    + exists [EvNameGen; EvListFloatingIps]. cbn. rewrite <- app_assoc.
      split; [reflexivity |]. repeat constructor; auto.
    + exists [EvNameGen; EvListFloatingIps]. cbn. rewrite <- app_assoc.
      split; [reflexivity |]. repeat constructor; auto.
Qed.

End Addresses.

Section Samples.

Import IbmVpcSamples.

(** C9, as stated, fails: two different identities whose dashes fall
    differently get the same name. *)
Lemma generate_name_collision :
  (Some "a-b", Some "c") <> (Some "a", Some "b-c")
  /\ fst (_generate_name (cloud [] [] [] nothing) "instance"
                          (Some "a-b") (Some "c") (start0 true))
     = fst (_generate_name (cloud [] [] [] nothing) "instance"
                           (Some "a") (Some "b-c") (start0 true)).
Proof. split; [discriminate | reflexivity]. Qed.

(** Job [7-A000] and job [7-A001], call [00003]: two names. *)
Lemma generate_name_two_jobs :
  fst (_generate_name (cloud [] [] [] nothing) "instance"
                      (Some "7-A000") (Some "00003") (start0 true))
  <> fst (_generate_name (cloud [] [] [] nothing) "instance"
                         (Some "7-A001") (Some "00003") (start0 true)).
Proof.
  apply (generate_name_injective (cloud [] [] [] nothing) "instance"
           "7-A000" "00003" "7-A001" "00003" (start0 true) (start0 true));
    [reflexivity | reflexivity | discriminate].
Defined.

(** A second [create] for job 7, call 3 adopts [vsi-7]. *)
Lemma create_adopts_vsi7 :
  let w' := snd (create (cloud [bystander; vsi7] [bound_ip] interfaces nothing)
                        (Some "7") (Some "3") (start0 true)) in
  exists evs,
    history w' = ([] ++ EvListInstances :: evs)%list
    /\ ((exists i, In i [bystander; vsi7] /\ inst_name i = "lithops7-3-instance"%string) ->
        (exists i, In i [bystander; vsi7] /\ inst_name i = "lithops7-3-instance"%string
                   /\ last_named "lithops7-3-instance" [bystander; vsi7] = Some i
                   /\ instance_id (self w') = Some (inst_id i))
        /\ Forall (fun ev => ~ creates_instance ev) evs)
    /\ ((forall i, In i [bystander; vsi7] -> inst_name i <> "lithops7-3-instance"%string) ->
        exists p evs', proto_name p = "lithops7-3-instance"%string
                       /\ evs = EvCreateInstance p :: evs'
                       /\ Forall (fun ev => ~ creates_instance ev) evs').
Proof.
  exact (create_adopts_existing
           (cloud [bystander; vsi7] [bound_ip] interfaces nothing)
           "7" "3" "lithops7-3-instance" [bystander; vsi7] (start0 true)
           eq_refl eq_refl).
Defined.

(** C4, as stated, fails: the instance is created, the allocation of
    the floating IP fails, and so does the listing of the interfaces
    that starts the roll back.  [create] raises the exception of the
    listing, not that of the allocation, and the instance stays. *)
Lemma create_roll_back_fails :
  let env := cloud [] [] interfaces (both "create_floating_ip" "list_instance_nics") in
  let created := lookup_or_create env (Some "7") (Some "3") (start0 true) in
  let run := create env (Some "7") (Some "3") (start0 true) in
  (exists inst,
     fst created = Returns (false, Some inst)
     /\ fst (_create_and_attach_floating_ip env inst (Some "7") (Some "3") (snd created))
        = Raises (ApiException "create_floating_ip"))
  /\ fst run = Raises (ApiException "list_instance_nics")
  /\ ~ In (EvDeleteInstance (Some "vsi-new")) (history (snd run)).
Proof.
  cbv zeta. split; [eexists; split; reflexivity |]. split; [reflexivity |].
  vm_compute. intros H.
  repeat (destruct H as [H | H]; [discriminate H |]). exact H.
Qed.

(** The same failure of the allocation with a roll back that works. *)
Lemma create_rolls_back_vsi_new :
  let env := cloud [] [] interfaces (only "create_floating_ip") in
  create env (Some "7") (Some "3") (start0 true)
  = (Raises (ApiException "create_floating_ip"),
     {| self := set_config_instance_id (Some "vsi-new")
                  (set_instance_id (Some "vsi-new") (client0 true));
        history :=
          [ EvListInstances;
            EvCreateInstance {| proto_name := "lithops7-3-instance";
                                proto_boot_name := "lithops7-3-boot";
                                proto_volume_name := "lithops7-3-volume";
                                proto_settings := plan |};
            EvListFloatingIps;
            EvCreateFloatingIp {| fproto_name := "lithops7-3-fip";
                                  fproto_zone := "us-south-3";
                                  fproto_resource_group := "rg" |};
            EvListInstanceNics (Some "vsi-new");
            EvDeleteFloatingIp "fip-7";
            EvDeleteInstance (Some "vsi-new") ] |}).
Proof.
  cbv zeta.
  set (env := cloud [] [] interfaces (only "create_floating_ip")).
  set (created := lookup_or_create env (Some "7") (Some "3") (start0 true)).
  set (inst := {| inst_name := "lithops7-3-instance"; inst_id := "vsi-new";
                  primary_network_interface := eth0; network_interfaces := [eth0] |}).
  exact (proj2 (proj2 (proj2
           (create_rolls_back env (Some "7") (Some "3") (start0 true) (snd created)
              (snd (_create_and_attach_floating_ip env inst (Some "7") (Some "3")
                      (snd created)))
              inst (ApiException "create_floating_ip") eq_refl eq_refl)
           interfaces eq_refl)
           (fun _ _ _ _ => eq_refl)) eq_refl).
Defined.

(** C7, as stated, fails: the listing holds a floating IP of the derived
    name that is bound to the primary interface, and after it a second
    one of that name that is bound to nothing; the second one is
    attached and its address returned. *)
Lemma attach_again_with_two_names :
  let run := _create_and_attach_floating_ip
               (cloud [vsi7] [bound_ip; spare_ip] interfaces nothing)
               vsi7 (Some "7") (Some "3") (running true) in
  In bound_ip [bound_ip; spare_ip]
  /\ fip_name bound_ip = "lithops7-3-fip"%string
  /\ already_attached bound_ip (primary_network_interface vsi7) = true
  /\ fst run = Returns "203.0.113.8"%string
  /\ history (snd run) = [EvListFloatingIps; EvAttachFloatingIp "vsi-7" "nic-0" "fip-8"].
Proof. cbv zeta. repeat split. now left. Qed.

(** With the bound floating IP alone in the listing nothing is done. *)
Lemma attach_again_vsi7 :
  _create_and_attach_floating_ip
    (cloud [vsi7] [bound_ip] interfaces nothing) vsi7 (Some "7") (Some "3") (running true)
  = (Returns "203.0.113.7"%string, log EvListFloatingIps (running true)).
Proof.
  exact (proj1 (attach_is_idempotent
                  (cloud [vsi7] [bound_ip] interfaces nothing) vsi7
                  (Some "7") (Some "3") (running true) (running true)
                  "lithops7-3-fip" [bound_ip] bound_ip eth0
                  eq_refl eq_refl eq_refl eq_refl eq_refl eq_refl)).
Defined.

(** [stop] tears [vsi-7] down when the flag is set and suspends it when
    the flag is cleared. *)
Lemma stop_vsi7 :
  history (snd (stop (cloud [vsi7] [bound_ip] interfaces nothing) 0 (running true)))
  = [EvListInstanceNics (Some "vsi-7"); EvDeleteFloatingIp "fip-7";
     EvDeleteInstance (Some "vsi-7")]
  /\ history (snd (stop (cloud [vsi7] [bound_ip] interfaces nothing) 0 (running false)))
     = [EvGetToken; EvPostAction "vsi-7" "stop"; EvGetToken; EvGetInstance "vsi-7"].
Proof.
  split.
  - exact (proj1 (proj2
             (proj1 (stop_obeys_policy (cloud [vsi7] [bound_ip] interfaces nothing)
                                       0 (running true))
                    eq_refl interfaces eq_refl))
             eq_refl).
  - exact (proj2
             (proj2 (proj2 (stop_obeys_policy (cloud [vsi7] [bound_ip] interfaces nothing)
                                              0 (running false))
                           eq_refl)
                    "vsi-7"%string "vsi-7"%string
                    {| action_status := 201; action_errors := None |}
                    {| data_status := Some "stopped"%string |}
                    eq_refl eq_refl (fun _ => eq_refl) (fun _ => eq_refl) eq_refl
                    (fun _ => eq_refl) eq_refl)).
Defined.

(** C10, as stated, fails: under a generator that repeats a draw, a
    first [create] without a job key makes the instance [otter], and a
    second [create] with the same partial identity, on the cloud that
    now lists [otter], derives the same name, adopts that instance and
    creates none. *)
Lemma create_adopts_on_repeated_draw :
  let first := create (repeating (cloud [] [] [] nothing)) None (Some "3") (start0 true) in
  let second := create (repeating (cloud [otter] [] [] nothing)) None (Some "3")
                       (start0 true) in
  (exists p, proto_name p = inst_name otter
             /\ In (EvCreateInstance p) (history (snd first))
             /\ env_create_instance (repeating (cloud [] [] [] nothing))
                  [EvListInstances; EvNameGen; EvNameGen; EvNameGen] p = inr otter)
  /\ fst first = Returns (Some (inst_id otter), "203.0.113.9"%string)
  /\ instance_id (self (snd second)) = Some (inst_id otter)
  /\ Forall (fun ev => ~ creates_instance ev) (history (snd second)).
Proof.
  cbv zeta. split; [| split; [| split]].
  - eexists. split; [| split]; [| right; right; right; right; left; reflexivity |];
      reflexivity.
  - reflexivity.
  - reflexivity.
  - vm_compute. repeat constructor; intros H; exact H.
Qed.

(** A [create] without a call id on a cloud that lists an unrelated
    instance: four names are drawn, and the last one is asked for. *)
Lemma generate_name_drawn :
  exists p,
    proto_name p = "lithops-otter4-instance"%string
    /\ history (snd (lookup_or_create (cloud [bystander] [] [] nothing)
                                      (Some "7") None (start0 true)))
       = [EvListInstances; EvNameGen; EvNameGen; EvNameGen; EvNameGen;
          EvCreateInstance p].
Proof.
  refine (proj2 (proj2 (proj2 (proj2 (generate_name_needs_both
                                        (cloud [bystander] [] [] nothing)
                                        "instance" (Some "7") None (start0 true))))
                       (or_intror eq_refl) [bystander] eq_refl) _).
  intros k i Hk.
  destruct k as [|k]; [injection Hk as <-; discriminate |].
  destruct k; discriminate Hk.
Defined.

End Samples.

End IbmVpcProps.

(* ===================================================================== *)
(** ** Further properties of [GCPCloudRunBackend] *)
(* ===================================================================== *)

Module CloudRunExtra.
Import PyStr PyStrFacts CloudRun.

Section Caches.

Variable version : string.
Variable env : environment.

(** X3. The admin API session is built at most once: a call of
    [_build_api_resource] that returns leaves the session built, and
    every later call does nothing; a call whose build raises leaves the
    backend as it was, so that the next call builds again. *)
Theorem build_api_resource_once (w : world backend event) :
  (forall w1, _build_api_resource env w = (Returns tt, w1) ->
     _api_resource (self w1) = true
     /\ _build_api_resource env w1 = (Returns tt, w1))
  /\ (forall e w1, _build_api_resource env w = (Raises e, w1) ->
      self w1 = self w /\ history w1 = (history w ++ [EvBuildApi])%list).
Proof.
  unfold _build_api_resource, bind, get_world, perform_, perform, update_self, modify, ret.
  split.
  - intros w1. destruct (_api_resource (self w)) eqn:Hb.
    + intros [= <-]. rewrite Hb. now split.
    + destruct (env_build_api env (history w)); [discriminate |].
      intros [= <-]. cbn. now split.
  - intros e w1. destruct (_api_resource (self w)) eqn:Hb; [discriminate |].
    destruct (env_build_api env (history w)); [| discriminate].
    intros [= _ <-]. now split.
Qed.

(** A URL that [_get_service_endpoint] returns is the cached one. *)
Lemma get_service_endpoint_sets (runtime_name : string) (memory : Z)
      (w w1 : world backend event) (u : string) :
  _get_service_endpoint version env runtime_name memory w = (Returns u, w1) ->
  _service_url (self w1) = Some u.
Proof.
  unfold _get_service_endpoint, _build_api_resource, bind, get_world, perform_,
    perform, update_self, modify, ret, raise.
  destruct (_service_url (self w)) as [u0 |] eqn:Hu.
  - intros [= <- <-]. exact Hu.
  - destruct (_api_resource (self w)).
    + destruct (env_api_get env _ _) as [e | r]; [discriminate |].
      destruct (status_url r); [| discriminate]. now intros [= <- <-].
    + destruct (env_build_api env (history w)); [discriminate |].
      cbn [self history log set_api_resource project_name].
      destruct (env_api_get env _ _) as [e | r]; [discriminate |].
      destruct (status_url r); [| discriminate]. now intros [= <- <-].
Qed.

(** X1. The service endpoint is resolved at most once, and the cache is
    not keyed by the runtime: once [_get_service_endpoint] has returned
    a URL, every later call, for any runtime name and memory size,
    returns that URL and does nothing else. *)
Theorem get_service_endpoint_cached (runtime_name : string) (memory : Z)
        (w w1 : world backend event) (u : string) :
  _get_service_endpoint version env runtime_name memory w = (Returns u, w1) ->
  _service_url (self w1) = Some u
  /\ forall runtime_name' memory',
       _get_service_endpoint version env runtime_name' memory' w1 = (Returns u, w1).
Proof.
  intros H.
  pose proof (get_service_endpoint_sets runtime_name memory w w1 u H) as Hu.
  split; [exact Hu |].
  intros runtime_name' memory'.
  unfold _get_service_endpoint, bind, get_world. now rewrite Hu.
Qed.

(** A session that [_build_invoker_sess] returns is the cached one, with
    its route. *)
Lemma build_invoker_sess_sets (runtime_name : string) (memory : Z)
      (route : string) (w w1 : world backend event) (s : session) :
  _build_invoker_sess version env runtime_name memory route w = (Returns s, w1) ->
  _invoker_sess (self w1) = Some s /\ _invoker_sess_route (self w1) = route.
Proof.
  unfold _build_invoker_sess. unfold bind at 1. cbn [get_world].
  destruct (_invoker_sess (self w)) as [s0 |] eqn:Hs0.
  - destruct (String.eqb_spec route (_invoker_sess_route (self w))) as [Hr | Hr];
      cbn [negb].
    + intros [= <- <-]. now split.
    + intros H. apply bind_inv in H. destruct H as [u [wa [_ H]]].
      apply bind_inv in H. destruct H as [[] [wb [_ H]]].
      apply bind_inv in H. destruct H as [[] [wc [Hset H]]].
      injection H as <- <-. injection Hset as <-. now split.
  - intros H. apply bind_inv in H. destruct H as [u [wa [_ H]]].
    apply bind_inv in H. destruct H as [[] [wb [_ H]]].
    apply bind_inv in H. destruct H as [[] [wc [Hset H]]].
    injection H as <- <-. injection Hset as <-. now split.
Qed.

(** X2. The invoker session is reused per route, whatever the runtime:
    once [_build_invoker_sess] has returned a session for a route, the
    session and the route are cached, and every later call for that
    route, for any runtime name and memory size, returns the same
    session and does nothing else. *)
Theorem build_invoker_sess_cached (runtime_name : string) (memory : Z)
        (route : string) (w w1 : world backend event) (s : session) :
  _build_invoker_sess version env runtime_name memory route w = (Returns s, w1) ->
  _invoker_sess (self w1) = Some s
  /\ _invoker_sess_route (self w1) = route
  /\ forall runtime_name' memory',
       _build_invoker_sess version env runtime_name' memory' route w1 = (Returns s, w1).
Proof.
  intros H.
  destruct (build_invoker_sess_sets runtime_name memory route w w1 s H) as [Hs Hr].
  split; [exact Hs |]. split; [exact Hr |].
  intros runtime_name' memory'.
  unfold _build_invoker_sess, bind, get_world. rewrite Hs, Hr, String.eqb_refl.
  reflexivity.
Qed.

End Caches.

Section Invoke.

Variable version : string.
Variable env : environment.
Variable runtime_name : string.
Variable memory : Z.

#[local] Abbreviation route_of p :=
  (match service_route p with Some r => r | None => "/"%string end).

(** Splits a goal along every choice the computation under study makes. *)
Ltac branches :=
  repeat match goal with
         | |- context [match ?x with _ => _ end] =>
             lazymatch x with
             | context [match _ with _ => _ end] => fail
             | _ => destruct x eqn:?
             end
         end.

(** X4. On a warm backend -- session cached for the requested route,
    endpoint cached -- [invoke] does one thing only: it posts the
    payload to the cached endpoint plus the route with the cached
    session, whatever the runtime name and memory size; it reaches
    neither the control plane nor the credentials and changes no field. *)
Theorem invoke_warm (p : payload) (return_result : bool)
        (w : world backend event) (s : session) (u : string) :
  _invoker_sess (self w) = Some s ->
  _invoker_sess_route (self w) = route_of p ->
  _service_url (self w) = Some u ->
  history (snd (invoke version env runtime_name memory p return_result w))
  = (history w ++ [EvPost s (u ++ route_of p)%string p])%list
  /\ self (snd (invoke version env runtime_name memory p return_result w)) = self w.
Proof.
  intros Hs Hr Hu.
  unfold invoke, _build_invoker_sess, _get_service_endpoint, bind, get_world, perform,
    getitem, ret, raise.
  rewrite Hs, Hr, String.eqb_refl. cbn [negb]. rewrite Hu.
  branches; now split.
Qed.

(** X5. [invoke] never retries: in every execution it posts at most
    once, reads the service resource at most once and builds at most one
    set of credentials; and it returns only after exactly one POST. *)
Theorem invoke_posts_once (p : payload) (return_result : bool)
        (w : world backend event) :
  let r := invoke version env runtime_name memory p return_result w in
  exists evs,
    history (snd r) = (history w ++ evs)%list
    /\ (count is_post evs <= 1)%nat
    /\ (count is_get evs <= 1)%nat
    /\ (count (fun ev => match ev with EvIdToken _ => true | _ => false end) evs <= 1)%nat
    /\ (forall v, fst r = Returns v -> count is_post evs = 1%nat).
Proof.
  cbv zeta.
  unfold invoke, _build_invoker_sess, _get_service_endpoint, _build_api_resource,
    bind, get_world, perform_, perform, update_self, modify, getitem, ret, raise, log.
  branches;
    cbn [fst snd self history set_service_url set_invoker_sess set_api_resource
         _service_url _invoker_sess _api_resource] in *;
    try congruence;
    rewrite <- ?app_assoc; cbn [app];
    eexists; (split; [first [reflexivity | symmetry; apply app_nil_r] |]);
    cbn; repeat split; try lia; try discriminate; intros; try discriminate; lia.
Qed.

End Invoke.

Section Metadata.

Variable version : string.
Variable env : environment.
Variable runtime_name : string.
Variable memory : Z.

(** [key in d] for the items of a dict. *)
Lemma assoc_some {A} (key : string) (d : list (string * A)) :
  (exists v, In (key, v) d) -> exists v, assoc key d = Some v.
Proof.
  induction d as [|[k x] d IH]; intros [v Hv]; [destruct Hv |].
  cbn [assoc]. destruct (String.eqb_spec k key) as [-> | Hne]; [now exists x |].
  destruct Hv as [[= Hk _] | Hv]; [contradiction |]. apply IH. now exists v.
Qed.

Lemma assoc_none {A} (key : string) (d : list (string * A)) :
  (forall v, ~ In (key, v) d) -> assoc key d = None.
Proof.
  induction d as [|[k x] d IH]; intros Hno; [reflexivity |].
  cbn [assoc]. destruct (String.eqb_spec k key) as [-> | Hne].
  - elim (Hno x). now left.
  - apply IH. intros v Hv. apply (Hno v). now right.
Qed.

(** [x in l] for a string among the items of a list. *)
Lemma existsb_str (key : string) (l : list json) :
  existsb (fun j => match j with JStr s => String.eqb s key | _ => false end) l = true
  <-> In (JStr key) l.
Proof.
  rewrite existsb_exists. split.
  - intros [j [Hj Hk]]. destruct j; try discriminate.
    apply String.eqb_eq in Hk. now subst.
  - intros H. exists (JStr key). split; [exact H | apply String.eqb_refl].
Qed.

(** [sub in s] for strings: [sub] occurs in [s]. *)
Lemma prefix_occurs (sub s : string) :
  prefix sub s = true <-> exists b, s = (sub ++ b)%string.
Proof.
  revert s. induction sub as [|x sub IH]; intros s.
  - cbn [append]. split; [intros _; now exists s | intros _; now destruct s].
  - destruct s as [|y s]; cbn [prefix append].
    + split; [discriminate | intros [b H]; discriminate H].
    + destruct (ascii_dec x y) as [<- | Hne].
      * rewrite IH. split; intros [b H]; exists b; [now rewrite H | now injection H].
      * split; [discriminate | intros [b H]; congruence].
Qed.

Lemma contains_occurs (sub s : string) :
  sub <> ""%string ->
  contains sub s = true <-> exists a b, s = (a ++ sub ++ b)%string.
Proof.
  intros Hsub. unfold contains.
  assert (H : index 0 sub s <> None <-> exists a b, s = (a ++ sub ++ b)%string).
  { induction s as [|y s IH].
    - cbn. destruct sub as [|x sub]; [contradiction |].
      split; [congruence |]. intros [[|? a] [b H]]; discriminate H.
    - cbn [index]. destruct (prefix sub (String y s)) eqn:Hp.
      + split; [intros _ | discriminate].
        apply prefix_occurs in Hp. destruct Hp as [b Hb].
        exists ""%string, b. exact Hb.
      + split.
        * intros H. destruct (index 0 sub s); [| congruence].
          destruct IH as [IH _]. destruct (IH ltac:(discriminate)) as [a [b Hab]].
          exists (String y a), b. cbn. now rewrite Hab.
        * intros [[|x a] [b Hab]].
          { cbn [append] in Hab.
            assert (prefix sub (String y s) = true)
              by (apply prefix_occurs; now exists b).
            congruence. }
          { cbn [append] in Hab. injection Hab as _ Hab.
            destruct IH as [_ IH].
            destruct (index 0 sub s); [discriminate |].
            elim (IH ltac:(now exists a, b)). reflexivity. } }
  destruct (index 0 sub s); split; try discriminate; try reflexivity.
  - intros _. apply H. discriminate.
  - intros Hex. apply H in Hex. congruence.
Qed.

(** X6. What [_generate_runtime_meta] makes of the answer to its probe.
    An exception of [invoke] comes out wrapped as "Unable to extract the
    preinstalled modules".  A document that Python takes for false
    ([None], [False], zero, an empty string, list or dict) is refused
    with "Failed getting runtime metadata"; a dict is returned when it
    has the key ['preinstalls'] and refused when it lacks it, and so is
    a list with the item and a string with the substring; a number
    other than zero and [True] raise the [TypeError] of [in]. *)
Theorem generate_runtime_meta_checked (w w1 : world backend event) :
  let probe := invoke version env runtime_name memory preinstalls_route true w in
  let run := _generate_runtime_meta version env runtime_name memory w in
  (forall e, probe = (Raises e, w1) -> run = (Raises (UnableToExtract e), w1))
  /\ forall meta,
       probe = (Returns meta, w1) ->
       let accepted := run = (Returns meta, w1) in
       let refused := run = (Raises (FailedRuntimeMeta meta), w1) in
       (meta = JNull \/ meta = JBool false \/ (exists q, meta = JNum q /\ (q == 0)%Q)
        \/ meta = JStr "" \/ meta = JArr [] \/ meta = JObj [] -> refused)
       /\ (forall d, meta = JObj d -> d <> [] ->
             ((exists v, In ("preinstalls"%string, v) d) -> accepted)
             /\ ((forall v, ~ In ("preinstalls"%string, v) d) -> refused))
       /\ (forall l, meta = JArr l -> l <> [] ->
             (In (JStr "preinstalls") l -> accepted)
             /\ (~ In (JStr "preinstalls") l -> refused))
       /\ (forall s, meta = JStr s -> s <> ""%string ->
             ((exists a b, s = (a ++ "preinstalls" ++ b)%string) -> accepted)
             /\ ((forall a b, s <> (a ++ "preinstalls" ++ b)%string) -> refused))
       /\ (meta = JBool true \/ (exists q, meta = JNum q /\ ~ (q == 0)%Q) ->
           run = (Raises TypeError, w1)).
Proof.
  intros probe run. subst probe run. unfold _generate_runtime_meta. split.
  - intros e He. unfold bind, try_except. now rewrite He.
  - intros meta Hm.
    assert (Htry : try_except (invoke version env runtime_name memory
                                      preinstalls_route true)
                              (fun e => raise (UnableToExtract e)) w
                   = (Returns meta, w1))
      by (unfold try_except; now rewrite Hm).
    rewrite (bind_returns _ _ _ _ _ Htry). clear Htry Hm.
    split; [| split; [| split; [| split]]].
    + intros [-> | [-> | [[q [-> Hq]] | [-> | [-> | ->]]]]]; try reflexivity.
      cbn [truthy]. apply Qeq_bool_iff in Hq. now rewrite Hq.
    + intros d -> Hd. destruct d as [|kv d]; [contradiction |].
      cbn [truthy negb has_preinstalls]. split.
      * intros Hin. destruct (assoc_some _ _ Hin) as [v Hv]. now rewrite Hv.
      * intros Hno. now rewrite (assoc_none _ _ Hno).
    + intros l -> Hl. destruct l as [|j l]; [contradiction |].
      cbn [truthy negb has_preinstalls]. split.
      * intros Hin. apply existsb_str in Hin. now rewrite Hin.
      * intros Hno.
        destruct (existsb _ (j :: l)) eqn:Hex; [| reflexivity].
        apply existsb_str in Hex. contradiction.
    + intros s -> Hs. cbn [truthy has_preinstalls].
      apply String.eqb_neq in Hs. rewrite Hs. cbn [negb]. split.
      * intros Hocc. apply (contains_occurs "preinstalls" s ltac:(discriminate)) in Hocc.
        now rewrite Hocc.
      * intros Hno. destruct (contains "preinstalls" s) eqn:Hc; [| reflexivity].
        apply (contains_occurs "preinstalls" s ltac:(discriminate)) in Hc.
        destruct Hc as [a [b Hab]]. elim (Hno a b Hab).
    + intros [-> | [q [-> Hq]]]; [reflexivity |].
      cbn [truthy]. destruct (Qeq_bool q 0) eqn:Hb; [| reflexivity].
      apply Qeq_bool_iff in Hb. contradiction.
Qed.

(** X7. A probe that the unit answers with a status other than 200 and
    202 surfaces in [_generate_runtime_meta]: [invoke] returns [None]
    for it and the caller raises "Failed getting runtime metadata:
    None". *)
Theorem generate_runtime_meta_rejects_failure
        (w w1 w2 : world backend event) (sess : session) (endpoint : string)
        (res : response) :
  _build_invoker_sess version env runtime_name memory "/preinstalls" w
    = (Returns sess, w1) ->
  _get_service_endpoint version env runtime_name memory w1 = (Returns endpoint, w2) ->
  env_post env (history w2) sess (endpoint ++ "/preinstalls")%string preinstalls_route
    = inr res ->
  success_status (status_code res) = false ->
  fst (_generate_runtime_meta version env runtime_name memory w)
  = Raises (FailedRuntimeMeta JNull).
Proof.
  intros Hs He Hp Hcode.
  unfold _generate_runtime_meta, try_except, invoke. cbn [service_route preinstalls_route].
  unfold bind at 1. unfold bind at 1.
  rewrite Hs. unfold bind at 1. rewrite He. unfold bind at 1. unfold perform.
  rewrite Hp, Hcode. reflexivity.
Qed.

End Metadata.

Section ServiceNames.

Variable version : string.

(** Replacing every occurrence of a character leaves none of it. *)
Lemma replace_from_removes (c : ascii) (new s : string) :
  mem c new = false ->
  forall count, count < 0 ->
    mem c (replace_from 0 (String c "") new count s) = false.
Proof.
  intros Hnew. induction s as [|x s IH]; intros count Hc; [reflexivity |].
  cbn [replace_from String.length Nat.sub prefix].
  destruct (Z.eqb_spec count 0) as [-> | _]; [lia |]. cbn [negb andb].
  destruct (ascii_dec c x) as [<- | Hne].
  - rewrite prefix_empty_string. rewrite mem_append, Hnew. cbn [orb].
    apply IH. lia.
  - cbn [mem]. rewrite (IH count Hc), orb_false_r.
    now apply Ascii.eqb_neq.
Qed.

Lemma no_dot_in_int (n : Z) : mem "." (str_of_int n) = false.
Proof.
  unfold str_of_int. destruct n as [| q | q]; [reflexivity | |].
  - apply (all_digits_mem "." _ eq_refl).
    exact (all_digits_str_of_int (Z.pos q) ltac:(lia)).
  - cbn [Z.to_int NilZero.string_of_int mem]. cbn [Ascii.eqb Bool.eqb orb].
    apply (all_digits_mem "." _ eq_refl).
    unfold NilZero.string_of_uint.
    generalize (all_digits_uint (Pos.to_uint q)).
    now destruct (Pos.to_uint q).
Qed.

(** X8. A service name holds no dot, whatever the release, the runtime
    name and the memory size. *)
Theorem format_service_name_no_dot (runtime_name : string) (memory : Z) :
  mem "." (_format_service_name version runtime_name memory) = false.
Proof.
  unfold _format_service_name, replace_all, replace.
  rewrite !mem_append.
  rewrite (replace_from_removes "." "-" version eq_refl (-1) ltac:(lia)).
  rewrite (replace_from_removes "." "" runtime_name eq_refl (-1) ltac:(lia)).
  rewrite no_dot_in_int. reflexivity.
Qed.

(** X9. Service names keep runtimes apart up to the dots of their
    names: two runtimes with memory sizes that are not negative get the
    same service name only if the sizes are equal and the names are equal
    once their dots are dropped. *)
Theorem format_service_name_injective (name1 name2 : string) (memory1 memory2 : Z) :
  0 <= memory1 -> 0 <= memory2 ->
  _format_service_name version name1 memory1 = _format_service_name version name2 memory2 ->
  memory1 = memory2 /\ replace_all "." "" name1 = replace_all "." "" name2.
Proof.
  intros H1 H2 Heq.
  assert (Hm : memory1 = memory2).
  { pose proof (CloudRunProps.unformat_of_format_service_name version name1 memory1 H1) as U1.
    pose proof (CloudRunProps.unformat_of_format_service_name version name2 memory2 H2) as U2.
    rewrite Heq in U1. rewrite U1 in U2. now injection U2. }
  split; [exact Hm |]. subst memory2.
  unfold _format_service_name in Heq.
  apply (append_inv_head "lithops--") in Heq.
  apply append_inv_head in Heq.
  apply (append_inv_head "--") in Heq.
  now apply append_inv_tail in Heq.
Qed.

End ServiceNames.

Section Budget.

Variable version : string.
Variable DEFAULT_RUNTIME_NAME : string.
Variable env : environment.
Variable runtime_name : string.
Variable memory : Z.

#[local] Abbreviation poll := (poll_service version env runtime_name memory).

Lemma count_app (kind : event -> bool) (a b : trace) :
  count kind (a ++ b)%list = (count kind a + count kind b)%nat.
Proof. unfold count. now rewrite filter_app, length_app. Qed.

Lemma slept_app (a b : trace) : (slept (a ++ b)%list == slept a + slept b)%Q.
Proof.
  induction a as [|ev a IH]; cbn [app slept].
  - now rewrite Qplus_0_l.
  - destruct ev; try exact IH. rewrite IH. now rewrite Qplus_assoc.
Qed.

(** One round of the loop: at most one poll and one pause, of 25/retry
    seconds. *)
Lemma poll_round (retry : Z) (w : world backend event) :
  0 < retry ->
  exists evs,
    history (snd (poll (false, retry) w)) = (history w ++ evs)%list
    /\ (count is_get evs <= 1)%nat
    /\ (count is_sleep evs <= 1)%nat
    /\ (slept evs <= / inject_Z retry * 25)%Q.
Proof.
  intros Hr.
  assert (Hpos : (0 <= / inject_Z retry * 25)%Q).
  { apply Qmult_le_0_compat; [| discriminate].
    apply Qinv_le_0_compat. unfold Qle. cbn. lia. }
  unfold poll_service, sleep_for, _build_api_resource, bind, get_world, perform_,
    perform, update_self, modify, ret, raise, log.
  cbn [snd].
  destruct (Z.eqb_spec retry 0); [lia |].
  destruct (Z.ltb_spec retry 0); [lia |].
  repeat match goal with
         | |- context [match ?x with _ => _ end] =>
             lazymatch x with
             | context [match _ with _ => _ end] => fail
             | _ => destruct x eqn:?
             end
         end;
    cbn [fst snd self history] in *; rewrite <- ?app_assoc; cbn [app];
    eexists; (split; [first [reflexivity | symmetry; apply app_nil_r] |]);
    cbn [count filter is_get is_sleep List.length slept];
    (split; [lia |]); (split; [lia |]);
    rewrite ?Qplus_0_r; first [exact Hpos | apply Qle_refl].
Qed.

(** The loop with a budget of [n + 1]: at most that many polls and
    pauses, and pauses within the budget, whatever the fuel. *)
Lemma wait_within_budget (n : nat) :
  forall (fuel : nat) (retry : Z) (w : world backend event),
    retry = Z.of_nat (S n) ->
    exists evs,
      history (snd (while_loop fuel (fun vars => negb (fst vars)) poll (false, retry) w))
      = (history w ++ evs)%list
      /\ (count is_get evs <= S n)%nat
      /\ (count is_sleep evs <= S n)%nat
      /\ (slept evs <= sleep_budget (S n))%Q.
Proof.
  assert (Hb : forall k, (0 <= sleep_budget k)%Q).
  { induction k as [|k IH]; [apply Qle_refl |].
    cbn [sleep_budget]. rewrite <- (Qplus_0_r 0).
    apply Qplus_le_compat; [| exact IH].
    apply Qmult_le_0_compat; [| discriminate].
    apply Qinv_le_0_compat. unfold Qle. cbn. lia. }
  assert (Hone : forall k e1, (count is_get e1 <= 1)%nat -> (count is_sleep e1 <= 1)%nat ->
                   (slept e1 <= / inject_Z (Z.of_nat (S k)) * 25)%Q ->
                   (count is_get e1 <= S k)%nat /\ (count is_sleep e1 <= S k)%nat
                   /\ (slept e1 <= sleep_budget (S k))%Q).
  { intros k e1 Hg Hs Hq. split; [lia |]. split; [lia |].
    cbn [sleep_budget]. rewrite <- (Qplus_0_r (slept e1)).
    apply Qplus_le_compat; [exact Hq | apply Hb]. }
  induction n as [|n IH]; intros fuel retry w Hr.
  - destruct fuel as [|fuel]; cbn [while_loop fst negb].
    + exists []. rewrite app_nil_r. cbn. repeat split; try lia. apply (Hb 1%nat).
    + unfold bind.
      destruct (poll_round retry w ltac:(lia)) as [e1 [Hh [Hg [Hs Hq]]]].
      pose proof (CloudRunProps.poll_decreases version env runtime_name memory retry w)
        as Hd.
      subst retry.
      destruct (poll (false, Z.of_nat 1) w) as [[[rdy retry'] | e |] w1];
        cbn [fst snd] in *.
      * destruct rdy.
        -- destruct fuel; cbn [while_loop fst negb ret snd];
             exists e1; (split; [exact Hh | now apply Hone]).
        -- destruct (Hd _ _ eq_refl eq_refl) as [_ H]; lia.
      * exists e1. split; [exact Hh | now apply Hone].
      * exists e1. split; [exact Hh | now apply Hone].
  - destruct fuel as [|fuel]; cbn [while_loop fst negb].
    + exists []. rewrite app_nil_r. cbn [count filter List.length slept].
      repeat split; try lia. apply (Hb (S (S n))).
    + unfold bind.
      destruct (poll_round retry w ltac:(lia)) as [e1 [Hh [Hg [Hs Hq]]]].
      pose proof (CloudRunProps.poll_decreases version env runtime_name memory retry w)
        as Hd.
      subst retry.
      destruct (poll (false, Z.of_nat (S (S n))) w) as [[[rdy retry'] | e |] w1];
        cbn [fst snd] in *.
      * destruct rdy.
        -- destruct fuel; cbn [while_loop fst negb ret snd];
             exists e1; (split; [exact Hh | now apply Hone]).
        -- destruct (Hd _ _ eq_refl eq_refl) as [H1 H2]; [lia |].
           cbn [snd] in H1. subst retry'.
           destruct (IH fuel (Z.of_nat (S (S n)) - 1) w1 ltac:(lia))
             as [e2 [Hh2 [Hg2 [Hs2 Hq2]]]].
           exists (e1 ++ e2)%list. rewrite Hh2, Hh, app_assoc.
           split; [reflexivity |]. rewrite !count_app.
           split; [lia |]. split; [lia |].
           rewrite slept_app.
           change (sleep_budget (S (S n)))
             with (/ inject_Z (Z.of_nat (S (S n))) * 25 + sleep_budget (S n))%Q.
           apply Qplus_le_compat; assumption.
      * exists e1. split; [exact Hh | now apply Hone].
      * exists e1. split; [exact Hh | now apply Hone].
Qed.

(** X10. The waiting loop of [create_runtime] is bounded in every
    environment and for every fuel: it polls the service at most 15
    times, pauses at most 15 times, and the pauses add up to no more
    than 83 seconds (25/15 + 25/14 + ... + 25/1). *)
Theorem wait_until_up_within_budget (fuel : nat) (w : world backend event) :
  exists evs,
    history (snd (wait_until_up version env fuel runtime_name memory w))
    = (history w ++ evs)%list
    /\ (count is_get evs <= 15)%nat
    /\ (count is_sleep evs <= 15)%nat
    /\ (slept evs <= 83)%Q.
Proof.
  unfold wait_until_up.
  destruct (wait_within_budget 14 fuel 15 w eq_refl) as [evs [Hh [Hg [Hs Hq]]]].
  exists evs. split; [exact Hh |]. split; [exact Hg |]. split; [exact Hs |].
  eapply Qle_trans; [exact Hq |].
  unfold Qle. vm_compute. discriminate.
Qed.

(** Keeping what is cached: a built API session stays built, a cached
    endpoint stays cached. *)
#[local] Abbreviation keeps_caches :=
  (keeps (fun s s' : backend =>
            (_api_resource s = true -> _api_resource s' = true)
            /\ (_service_url s <> None -> _service_url s' <> None))
         (fun _ : event => True)).

Ltac side_caches := solve [intros; cbn; intuition (auto; congruence)].

Lemma build_api_keeps_caches : keeps_caches (_build_api_resource env).
Proof. unfold _build_api_resource. frame side_caches. Qed.

Lemma get_service_endpoint_keeps_caches (rn : string) (m : Z) :
  keeps_caches (_get_service_endpoint version env rn m).
Proof.
  unfold _get_service_endpoint. pose proof build_api_keeps_caches.
  frame side_caches.
Qed.

Lemma invoke_keeps_caches (rn : string) (m : Z) (p : payload) (rr : bool) :
  keeps_caches (invoke version env rn m p rr).
Proof.
  unfold invoke, _build_invoker_sess, getitem.
  pose proof get_service_endpoint_keeps_caches.
  frame side_caches.
Qed.

Lemma generate_runtime_meta_keeps_caches :
  keeps_caches (_generate_runtime_meta version env runtime_name memory).
Proof.
  unfold _generate_runtime_meta. pose proof invoke_keeps_caches.
  frame side_caches.
Qed.

Lemma waiting_keeps_caches (fuel : nat) :
  keeps_caches (wait_until_up version env fuel runtime_name memory).
Proof.
  unfold wait_until_up, poll_service, sleep_for. pose proof build_api_keeps_caches.
  frame side_caches.
Qed.

(** A handler that raises lets no exception turn into a result. *)
Lemma try_raise_inv {A} (m : Py A) (h : exn -> exn) (w w' : world backend event) (a : A) :
  try_except m (fun e => raise (h e)) w = (Returns a, w') -> m w = (Returns a, w').
Proof.
  unfold try_except. destruct (m w) as [[a' | e |] w1]; try discriminate.
  exact (fun H => H).
Qed.

(** What a returning [_generate_runtime_meta] leaves cached. *)
Lemma generate_runtime_meta_leaves (w w' : world backend event) (meta : json) :
  _generate_runtime_meta version env runtime_name memory w = (Returns meta, w') ->
  _service_url (self w') <> None
  /\ _invoker_sess (self w') <> None
  /\ _invoker_sess_route (self w') = "/preinstalls"%string.
Proof.
  unfold _generate_runtime_meta. intros H.
  apply bind_inv in H. destruct H as [rm [w5 [Hinv H]]].
  assert (w' = w5) as ->.
  { destruct (negb (truthy rm)); [discriminate |].
    destruct (has_preinstalls rm) as [e | []]; try discriminate. now injection H. }
  clear H. apply try_raise_inv in Hinv. unfold invoke in Hinv.
  cbn [service_route preinstalls_route] in Hinv.
  apply bind_inv in Hinv. destruct Hinv as [s [wa [Hs H]]].
  apply bind_inv in H. destruct H as [ep [wb [He H]]].
  apply bind_inv in H. destruct H as [res [wc [Hp H]]].
  assert (w5 = wc) as ->.
  { destruct (success_status (status_code res)); [| now injection H].
    destruct (body res) as [data |]; [| discriminate].
    unfold getitem in H. destruct data; try discriminate; try now injection H. }
  clear H.
  assert (self wc = self wb) as ->.
  { unfold perform in Hp. destruct (env_post env _ _ _ _); [discriminate |].
    now injection Hp as _ <-. }
  destruct (build_invoker_sess_sets version env _ _ _ _ _ _ Hs) as [Hsess Hroute].
  pose proof (get_service_endpoint_sets version env _ _ _ _ _ He) as Hu.
  assert (Hsame : _invoker_sess (self wb) = _invoker_sess (self wa)
                  /\ _invoker_sess_route (self wb) = _invoker_sess_route (self wa)).
  { revert He. unfold _get_service_endpoint, _build_api_resource, bind, get_world,
      perform_, perform, update_self, modify, ret, raise, log.
    repeat match goal with
           | |- context [match ?x with _ => _ end] =>
               lazymatch x with
               | context [match _ with _ => _ end] => fail
               | _ => destruct x eqn:?
               end
           end; try discriminate; intros [= _ <-]; now split. }
  destruct Hsame as [H1 H2]. rewrite H1, H2, Hu, Hsess, Hroute.
  repeat split; discriminate.
Qed.

(** X11. [create_runtime] returns only with its caches filled: the
    admin API session is built, the endpoint of the service is cached,
    and the invoker session is the one of the [/preinstalls] probe --
    so that the first invocation on another route builds credentials
    again. *)
Theorem create_runtime_leaves_caches (fuel : nat) (timeout : Z)
        (w w' : world backend event) (meta : json) :
  create_runtime version DEFAULT_RUNTIME_NAME env fuel runtime_name memory timeout w
    = (Returns meta, w') ->
  _api_resource (self w') = true
  /\ _service_url (self w') <> None
  /\ _invoker_sess (self w') <> None
  /\ _invoker_sess_route (self w') = "/preinstalls"%string.
Proof.
  unfold create_runtime. intros H.
  apply bind_inv in H. destruct H as [[] [w1 [_ H]]].
  apply bind_inv in H. destruct H as [w1' [w1'' [Hget H]]]. injection Hget as <- <-.
  cbv zeta in H.
  apply bind_inv in H. destruct H as [[] [w2 [Hbuild H]]].
  apply bind_inv in H. destruct H as [res [w3 [Hcreate H]]].
  apply bind_inv in H. destruct H as [vars [w4 [Hwait Hmeta]]].
  assert (Hb2 : _api_resource (self w2) = true).
  { revert Hbuild. unfold _build_api_resource, bind, get_world, perform_, perform,
      update_self, modify, ret.
    destruct (_api_resource (self w1)) eqn:Hb.
    - intros [= <-]. exact Hb.
    - destruct (env_build_api env (history w1)); [discriminate |]. now intros [= <-]. }
  assert (Hb3 : _api_resource (self w3) = true).
  { unfold perform in Hcreate. destruct (env_api_create env _ _ _); [discriminate |].
    injection Hcreate as _ <-. exact Hb2. }
  destruct (generate_runtime_meta_leaves w4 w' meta Hmeta) as [Hu [Hs Hr]].
  split; [| now repeat split].
  destruct (waiting_keeps_caches fuel w3) as [[Ka _] _].
  destruct (generate_runtime_meta_keeps_caches w4) as [[Kb _] _].
  rewrite Hwait in Ka. rewrite Hmeta in Kb. cbn [snd] in Ka, Kb. auto.
Qed.

Lemma count_none (kind : event -> bool) (evs : trace) :
  Forall (fun ev => kind ev = false) evs -> count kind evs = 0%nat.
Proof.
  unfold count. induction 1 as [|ev evs Hev _ IH]; [reflexivity |].
  cbn [filter]. now rewrite Hev.
Qed.

(** X12. [create_runtime] builds the default image for the default
    runtime name only, and it does not poll a service whose creation was
    refused: when the call [services().create] raises, in whatever
    history, [create_runtime] raises, having read no service resource
    and posted nothing. *)
Theorem create_runtime_steps (fuel : nat) (timeout : Z) (w : world backend event) :
  let r := create_runtime version DEFAULT_RUNTIME_NAME env fuel
                          runtime_name memory timeout w in
  exists evs,
    history (snd r) = (history w ++ evs)%list
    /\ (runtime_name <> DEFAULT_RUNTIME_NAME -> ~ In EvBuildDefaultRuntime evs)
    /\ ((forall h parent b, exists e, env_api_create env h parent b = inl e) ->
        (exists e, fst r = Raises e)
        /\ count is_get evs = 0%nat /\ count is_post evs = 0%nat).
Proof.
  cbv zeta.
  assert (Hno : runtime_name <> DEFAULT_RUNTIME_NAME ->
                keeps (fun _ _ : backend => True) (fun ev => ev <> EvBuildDefaultRuntime)
                      (create_runtime version DEFAULT_RUNTIME_NAME env fuel
                                      runtime_name memory timeout)).
  { intros Hne. unfold create_runtime.
    rewrite (proj2 (String.eqb_neq _ _) Hne).
    unfold wait_until_up, poll_service, sleep_for, _generate_runtime_meta, invoke,
      _build_invoker_sess, _get_service_endpoint, _build_api_resource, getitem.
    frame ltac:(solve [intros; cbn; auto; discriminate]). }
  assert (Hfail : (forall h parent b, exists e, env_api_create env h parent b = inl e) ->
                  fails (create_runtime version DEFAULT_RUNTIME_NAME env fuel
                                        runtime_name memory timeout)
                  /\ keeps (fun _ _ : backend => True)
                           (fun ev => is_get ev = false /\ is_post ev = false)
                           (create_runtime version DEFAULT_RUNTIME_NAME env fuel
                                           runtime_name memory timeout)).
  { intros Hall.
    assert (Hc : forall parent b,
               fails (perform (EvApiCreate parent b)
                              (fun h => env_api_create env h parent b)
                      : Py service)).
    { intros parent b w0. unfold perform.
      destruct (Hall (history w0) parent b) as [e He]. rewrite He. now exists e. }
    unfold create_runtime, _build_default_runtime. split.
    - apply fails_bind_r; [destruct (String.eqb _ _); repeat total_step | intros _].
      apply fails_bind_r; [apply total_get_world | intros w1]. cbv zeta.
      apply fails_bind_r; [apply CloudRunProps.total_build_api | intros _].
      apply fails_bind_l. apply Hc.
    - apply keeps_bind; [auto | | intros _].
      { destruct (String.eqb _ _); frame ltac:(solve [intros; cbn; auto]). }
      apply keeps_bind; [auto | apply keeps_get_world; auto | intros w1]. cbv zeta.
      apply keeps_bind; [auto | | intros _].
      { unfold _build_api_resource. frame ltac:(solve [intros; cbn; auto]). }
      apply keeps_bind_fails; [| apply Hc].
      apply keeps_perform; [auto | cbn; auto]. }
  destruct (String.eqb_spec runtime_name DEFAULT_RUNTIME_NAME) as [Heq | Hne].
  - assert (K : keeps (fun _ _ : backend => True) (fun _ : event => True)
                      (create_runtime version DEFAULT_RUNTIME_NAME env fuel
                                      runtime_name memory timeout)).
    { unfold create_runtime, _build_default_runtime, wait_until_up, poll_service,
        sleep_for, _generate_runtime_meta, invoke, _build_invoker_sess,
        _get_service_endpoint, _build_api_resource, getitem.
      frame ltac:(solve [intros; cbn; auto]). }
    destruct (K w) as [_ [evs [Hh _]]]. exists evs. split; [exact Hh |].
    split; [intros H; contradiction |].
    intros Hall. destruct (Hfail Hall) as [Hf Hk].
    destruct (Hk w) as [_ [evs' [Hh' HP]]].
    rewrite Hh in Hh'. apply app_inv_head in Hh'. subst evs'.
    split; [apply Hf |].
    split; apply count_none; eapply Forall_impl; try exact HP; cbn; tauto.
  - destruct (Hno Hne w) as [_ [evs [Hh HP]]]. exists evs. split; [exact Hh |].
    split.
    + intros _ Hin. rewrite Forall_forall in HP. exact (HP _ Hin eq_refl).
    + intros Hall. destruct (Hfail Hall) as [Hf Hk].
      destruct (Hk w) as [_ [evs' [Hh' HP']]].
      rewrite Hh in Hh'. apply app_inv_head in Hh'. subst evs'.
      split; [apply Hf |].
      split; apply count_none; eapply Forall_impl; try exact HP'; cbn; tauto.
Qed.

End Budget.

Section Samples.

Import CloudRunSamples.

(** A built backend resolves the endpoint of [py39] once; asking for
    another runtime returns the same URL. *)
Lemma get_service_endpoint_cached_py39 :
  let w1 := snd (_get_service_endpoint "2.2.5" (answering (fun _ => up) 202 accepted)
                                       "py39" 256 {| self := built; history := [] |}) in
  _service_url (self w1) = Some "https://svc.example"%string
  /\ forall runtime_name' memory',
       _get_service_endpoint "2.2.5" (answering (fun _ => up) 202 accepted)
                             runtime_name' memory' w1
       = (Returns "https://svc.example"%string, w1).
Proof.
  exact (get_service_endpoint_cached "2.2.5" (answering (fun _ => up) 202 accepted)
           "py39" 256 {| self := built; history := [] |} _ "https://svc.example" eq_refl).
Defined.

(** The session of the default route is kept by a warm backend. *)
Lemma build_invoker_sess_cached_warm :
  _invoker_sess (self warm) = Some {| target_audience := "https://svc.example/" |}
  /\ _invoker_sess_route (self warm) = "/"%string
  /\ forall runtime_name' memory',
       _build_invoker_sess "2.2.5" failing runtime_name' memory' "/" warm
       = (Returns {| target_audience := "https://svc.example/" |}, warm).
Proof.
  exact (build_invoker_sess_cached "2.2.5" failing "py39" 256 "/" warm warm
           {| target_audience := "https://svc.example/" |} eq_refl).
Defined.

(** A warm backend posts the job and nothing else. *)
Lemma invoke_warm_job :
  history (snd (invoke "2.2.5" (answering (fun _ => up) 202 accepted)
                       "py39" 256 job false warm))
  = [EvPost {| target_audience := "https://svc.example/" |} "https://svc.example/" job]
  /\ self (snd (invoke "2.2.5" (answering (fun _ => up) 202 accepted)
                       "py39" 256 job false warm)) = self warm.
Proof.
  exact (invoke_warm "2.2.5" (answering (fun _ => up) 202 accepted) "py39" 256
           job false warm {| target_audience := "https://svc.example/" |}
           "https://svc.example" eq_refl eq_refl eq_refl).
Defined.

(** A probe answered with 500 fails the extraction of the metadata. *)
Lemma generate_runtime_meta_rejects_500 :
  fst (_generate_runtime_meta "2.2.5" failing "py39" 256 probed)
  = Raises (FailedRuntimeMeta JNull).
Proof.
  exact (generate_runtime_meta_rejects_failure "2.2.5" failing "py39" 256
           probed probed probed
           {| target_audience := "https://svc.example/preinstalls" |}
           "https://svc.example"
           {| status_code := 500; body := Some (JObj [("error", JStr "boom")]) |}
           eq_refl eq_refl eq_refl eq_refl).
Defined.

(** [py39] with 256 MB and with 512 MB get two service names. *)
Lemma format_service_name_two_sizes :
  _format_service_name "2.2.5" "py39" 256 <> _format_service_name "2.2.5" "py39" 512.
Proof.
  intros H.
  destruct (format_service_name_injective "2.2.5" "py39" "py39" 256 512
              ltac:(discriminate) ltac:(discriminate) H) as [Hm _].
  discriminate Hm.
Defined.

(** A runtime that is up at the third poll and answers the probe. *)
Lemma create_runtime_leaves_caches_py39 :
  let w' := snd (create_runtime "2.2.5" "default" (answering third_time 200 modules)
                                15 "py39" 256 60 {| self := fresh; history := [] |}) in
  _api_resource (self w') = true
  /\ _service_url (self w') <> None
  /\ _invoker_sess (self w') <> None
  /\ _invoker_sess_route (self w') = "/preinstalls"%string.
Proof.
  exact (create_runtime_leaves_caches "2.2.5" "default"
           (answering third_time 200 modules) "py39" 256 15 60
           {| self := fresh; history := [] |} _ modules eq_refl).
Defined.

End Samples.

End CloudRunExtra.

(* ===================================================================== *)
(** ** Further properties of [IBMVPCInstanceClient] *)
(* ===================================================================== *)

Module IbmVpcExtra.
Import PyStr PyStrFacts IbmVpc.

Section Actions.

Variable env : environment.

(** X13. An action other than [start], [reboot] and [stop] is refused
    before anything is sent: [create_instance_action] raises and leaves
    the client and the history as they were. *)
Theorem create_instance_action_unknown (fuel : nat) (action : string)
        (w : world client event) :
  expected_status action = None ->
  create_instance_action env fuel action w = (Raises (ActionUnknown action), w).
Proof.
  unfold expected_status, create_instance_action. intros H.
  destruct (String.eqb action "start" || String.eqb action "reboot"); [discriminate |].
  destruct (String.eqb action "stop"); [discriminate |]. reflexivity.
Qed.

(** The first step of [create_instance_action] for a known action. *)
Lemma expected_run (action expected : string) (w : world client event) :
  expected_status action = Some expected ->
  (if String.eqb action "start" || String.eqb action "reboot"
   then ret "running"%string
   else if String.eqb action "stop" then ret "stopped"%string
        else raise (ActionUnknown action)) w
  = (Returns expected, w : world client event).
Proof.
  unfold expected_status.
  destruct (String.eqb action "start" || String.eqb action "reboot");
    [now intros [= <-] |].
  destruct (String.eqb action "stop"); [now intros [= <-] | discriminate].
Qed.

(** X14. An action that the service does not answer with 201 is not
    waited for: [create_instance_action] raises with the errors of the
    answer after the token and the POST, without reading the instance. *)
Theorem create_instance_action_refused (fuel : nat) (action expected id errors : string)
        (w : world client event) (res : action_response) :
  expected_status action = Some expected ->
  config_instance_id (self w) = Some id ->
  env_get_token env (history w) = None ->
  env_post_action env (history w ++ [EvGetToken])%list id action = inr res ->
  action_status res <> 201 ->
  action_errors res = Some errors ->
  create_instance_action env fuel action w
  = (Raises (ActionFailed action errors),
     {| self := self w;
        history := (history w ++ [EvGetToken; EvPostAction id action])%list |}).
Proof.
  intros Hexp Hc Htok Hpost Hcode Herr.
  unfold create_instance_action.
  rewrite (bind_returns _ _ _ _ _ (expected_run action expected w Hexp)).
  unfold _authorize_session, bind, get_world, perform_, perform, ret, raise, log.
  rewrite Hc. cbn [history self]. rewrite Htok.
  cbn [history self]. rewrite Hpost.
  destruct (Z.eqb_spec (action_status res) 201) as [H | _]; [contradiction |].
  cbn [negb]. rewrite Herr. cbn [history self]. now rewrite <- app_assoc.
Qed.

(** What a round of the waiting loop keeps: the document at hand is the
    one in [self.instance_data] and it holds a status. *)
Lemma poll_instance_keeps (expected : string) (d d' : instance_data)
      (w w' : world client event) :
  poll_instance env expected d w = (Returns d', w') ->
  last_instance_data (self w') = Some d' /\ data_status d' <> None.
Proof.
  unfold poll_instance. intros H.
  apply bind_inv in H. destruct H as [[] [wa [_ H]]].
  apply bind_inv in H. destruct H as [d1 [wb [_ H]]].
  apply bind_inv in H. destruct H as [[] [wc [Hset H]]].
  injection Hset as <-.
  unfold status_differs in H. destruct (data_status d1) eqn:Hs; [| discriminate].
  injection H as <- <-. split; [reflexivity | congruence].
Qed.

(** X15. [create_instance_action] returns only once the instance has
    reported the status the action leads to: when [start], [reboot] or
    [stop] returns, [self.instance_data] is the last document read and
    its status is [running], [running] or [stopped]. *)
Theorem create_instance_action_reached (fuel : nat) (action : string)
        (w w' : world client event) :
  create_instance_action env fuel action w = (Returns tt, w') ->
  exists d expected,
    expected_status action = Some expected
    /\ last_instance_data (self w') = Some d
    /\ data_status d = Some expected.
Proof.
  unfold create_instance_action, expected_status. intros H.
  apply bind_inv in H. destruct H as [expected [w0 [Hexp H]]].
  assert (Hex : (if String.eqb action "start" || String.eqb action "reboot"
                 then Some "running"%string
                 else if String.eqb action "stop" then Some "stopped"%string else None)
                = Some expected).
  { destruct (String.eqb action "start" || String.eqb action "reboot");
      [now injection Hexp as <- |].
    destruct (String.eqb action "stop"); [now injection Hexp as <- | discriminate]. }
  apply bind_inv in H. destruct H as [w1 [w1' [_ H]]].
  destruct (config_instance_id (self w1)) as [id |]; [| discriminate].
  apply bind_inv in H. destruct H as [[] [w2 [_ H]]].
  apply bind_inv in H. destruct H as [res [w3 [_ H]]].
  destruct (negb (action_status res =? 201)).
  { destruct (action_errors res); discriminate. }
  apply bind_inv in H. destruct H as [d0 [w4 [_ H]]].
  apply bind_inv in H. destruct H as [[] [w5 [Hset H]]].
  injection Hset as <-.
  destruct (status_differs expected d0) as [e | b] eqn:Hd0; [discriminate |].
  apply bind_inv in H. destruct H as [d [w6 [Hloop H]]]. injection H as <-.
  assert (Hinit : last_instance_data
                    (self {| self := set_instance_data d0 (self w4);
                             history := history w4 |}) = Some d0
                  /\ data_status d0 <> None).
  { split; [reflexivity |]. unfold status_differs in Hd0.
    destruct (data_status d0); [congruence | discriminate]. }
  destruct (while_inv
              (fun d (w : world client event) =>
                 last_instance_data (self w) = Some d /\ data_status d <> None)
              fuel _ _
              (fun s wa s' wb _ _ Hb => poll_instance_keeps expected s s' wa wb Hb)
              _ _ _ _ Hinit Hloop) as [[Hlast Hsome] Htest].
  exists d, expected. split; [exact Hex |]. split; [exact Hlast |].
  unfold status_differs in Htest. destruct (data_status d) as [st |]; [| congruence].
  cbn in Htest. apply negb_false_iff in Htest. apply String.eqb_eq in Htest.
  now subst.
Qed.

(** X16. The wait of [create_instance_action] has no budget: on an
    instance that keeps reporting another status than the one the action
    leads to, it polls and pauses for as long as it is run -- for every
    fuel the model stops for lack of fuel. *)
Theorem create_instance_action_unbounded (fuel : nat) (action expected id iid : string)
        (w : world client event) (res : action_response) (d : instance_data)
        (status : string) :
  expected_status action = Some expected ->
  config_instance_id (self w) = Some id ->
  instance_id (self w) = Some iid ->
  (forall h, env_get_token env h = None) ->
  (forall h, env_post_action env h id action = inr res) ->
  action_status res = 201 ->
  (forall h, env_get_instance env h iid = inr d) ->
  data_status d = Some status ->
  status <> expected ->
  fst (create_instance_action env fuel action w) = OutOfFuel.
Proof.
  intros Hexp Hc Hi Htok Hpost H201 Hget Hd Hne.
  assert (Hdiff : status_differs expected d = inr true).
  { unfold status_differs. rewrite Hd. f_equal.
    apply negb_true_iff. now apply String.eqb_neq. }
  assert (Hloop : forall n (w0 : world client event),
             instance_id (self w0) = Some iid ->
             fst (while_loop n
                    (fun d => match status_differs expected d with
                              | inr b => b
                              | inl _ => false
                              end)
                    (poll_instance env expected) d w0) = OutOfFuel).
  { induction n as [|n IH]; intros w0 Hi0; cbn [while_loop]; rewrite Hdiff;
      [reflexivity |].
    unfold bind at 1. unfold poll_instance at 1.
    unfold get_instance, _authorize_session, bind, get_world, perform_, perform,
      update_self, modify, ret, log.
    cbn [self history]. rewrite Hi0. rewrite Htok. cbn [self history]. rewrite Hget.
    cbn [self history]. rewrite Hdiff. apply IH. exact Hi0. }
  unfold create_instance_action.
  rewrite (bind_returns _ _ _ _ _ (expected_run action expected w Hexp)).
  unfold get_instance, _authorize_session.
  unfold bind, get_world, perform_, perform, update_self, modify, ret, log.
  rewrite Hc. cbn [self history]. rewrite Htok. cbn [self history].
  rewrite Hpost, H201. cbn [negb Z.eqb Pos.eqb self history].
  rewrite Hi, Htok. cbn [self history]. rewrite Hget. cbn [self history].
  rewrite Hdiff.
  match goal with
  | |- context [while_loop fuel ?t ?b d ?w0] =>
      pose proof (Hloop fuel w0 Hi) as HL;
      destruct (while_loop fuel t b d w0) as [[d' | e |] w1]
  end; cbn [fst] in *; congruence.
Qed.

End Actions.

Section Create.

Variable env : environment.

(** X17. A [create] that cannot list the instances fails with the
    exception of the listing after that one call, and it has already
    forgotten the instance the client had: [self.instance_id] is [None]. *)
Theorem create_listing_fails (job_key call_id : option string)
        (w : world client event) (e : exn) :
  env_list_instances env (history w) = inl e ->
  create env job_key call_id w
  = (Raises e,
     {| self := set_instance_id None (self w);
        history := (history w ++ [EvListInstances])%list |}).
Proof.
  intros Hl. unfold create, lookup_or_create, bind, update_self, modify, perform.
  cbn [fst snd self history]. now rewrite Hl.
Qed.

(** Keeping [self.ip_address], the field that [get_runtime_key] reads. *)
#[local] Abbreviation keeps_ip :=
  (keeps (fun s s' : client => ip_address s' = ip_address s) (fun _ : event => True)).

Ltac side_ip := solve [intros; cbn; auto; congruence].

Lemma create_keeps_ip (job_key call_id : option string) :
  keeps_ip (create env job_key call_id).
Proof.
  unfold create, lookup_or_create, check_vsi, _create_instance,
    _create_and_attach_floating_ip, _delete_instance, _generate_name.
  frame side_ip.
Qed.

(** The loop of [create] sets [self.instance_id] when it finds the
    instance. *)
Lemma check_vsi_sets (job_key call_id : option string) (insts : list instance)
      (vars : bool * option instance) (w w1 : world client event) :
  for_each insts (check_vsi env job_key call_id) (false, None) w = (Returns vars, w1) ->
  fst vars = true -> instance_id (self w1) <> None.
Proof.
  apply (for_each_inv
           (fun (v : bool * option instance) (w0 : world client event) =>
              fst v = true -> instance_id (self w0) <> None)).
  - intros x s w0 s' w' Hi. unfold check_vsi. intros H.
    apply bind_inv in H. destruct H as [n [wa [Hn H]]].
    assert (Hself : self wa = self w0).
    { destruct job_key, call_id; cbn in Hn; injection Hn as _ <-; reflexivity. }
    destruct (String.eqb (inst_name x) n).
    + apply bind_inv in H. destruct H as [[] [wb [Hset H]]].
      injection Hset as <-. injection H as <- <-. intros _. discriminate.
    + injection H as <- <-. cbn [fst]. rewrite Hself. exact Hi.
  - discriminate.
Qed.

Lemma lookup_sets_instance (job_key call_id : option string)
      (vars : bool * option instance) (w w1 : world client event) :
  lookup_or_create env job_key call_id w = (Returns vars, w1) ->
  instance_id (self w1) <> None.
Proof.
  unfold lookup_or_create. intros H.
  apply bind_inv in H. destruct H as [[] [wa [_ H]]].
  apply bind_inv in H. destruct H as [insts [wb [_ H]]].
  apply bind_inv in H. destruct H as [v [wc [Hscan H]]].
  destruct (fst v) eqn:Hv; cbn [negb] in H.
  - injection H as <- <-. exact (check_vsi_sets _ _ _ _ _ _ Hscan Hv).
  - apply try_reraise_inv in H.
    apply bind_inv in H. destruct H as [i [wd [_ H]]].
    apply bind_inv in H. destruct H as [[] [we [Hset1 H]]].
    apply bind_inv in H. destruct H as [[] [wf [Hset2 H]]].
    injection H as _ <-. injection Hset2 as <-. injection Hset1 as <-. discriminate.
Qed.

(** X18. What a returning [create] leaves: the pair it returns is the
    instance id, which is set, and the address of the floating IP; the
    address is recorded in [config['ip_address']], while the field
    [self.ip_address] stays what it was. *)
Theorem create_returns (job_key call_id : option string)
        (w w' : world client event) (id : option string) (address : string) :
  create env job_key call_id w = (Returns (id, address), w') ->
  instance_id (self w') = id
  /\ id <> None
  /\ config_ip_address (self w') = Some address
  /\ ip_address (self w') = ip_address (self w).
Proof.
  intros H.
  assert (Hip : ip_address (self w') = ip_address (self w)).
  { destruct (create_keeps_ip job_key call_id w) as [K _]. now rewrite H in K. }
  unfold create in H.
  apply bind_inv in H. destruct H as [vars [w1 [Hlook H]]].
  apply try_inv in H.
  2:{ intros e w0 a0 w2 Hh. apply bind_inv in Hh.
      destruct Hh as [[] [w3 [_ Hh]]]. discriminate. }
  apply bind_inv in H. destruct H as [inst [w2 [Hinst H]]].
  assert (w2 = w1) as ->.
  { destruct (snd vars); [now injection Hinst | discriminate]. }
  apply bind_inv in H. destruct H as [a [w3 [Hattach H]]].
  apply bind_inv in H. destruct H as [[] [w4 [Hset H]]].
  injection Hset as <-. injection H as <- <- <-.
  cbn [self instance_id config_ip_address set_config_ip_address] in *.
  destruct (IbmVpcProps.attach_keeps_instance env inst job_key call_id w1) as [K _].
  rewrite Hattach in K. cbn [snd] in K.
  split; [reflexivity |]. split; [| split; [reflexivity | exact Hip]].
  rewrite K. exact (lookup_sets_instance _ _ _ _ _ Hlook).
Qed.

(** Keeping [config['instance_id']]. *)
#[local] Abbreviation keeps_config :=
  (keeps (fun s s' : client => config_instance_id s' = config_instance_id s)
         (fun _ : event => True)).

(** X19. An adopted instance is not recorded in [config]: when [create]
    for a job and a call adopts a listed instance, [self.instance_id]
    names that instance while [config['instance_id']] -- the id that
    [stop] and the roll back act on -- is what it was before. *)
Theorem create_adoption_keeps_config (j c : string) (insts : list instance)
        (i : instance) (w : world client event) :
  env_list_instances env (history w) = inr insts ->
  last_named (scoped_name "instance" j c) insts = Some i ->
  let w' := snd (create env (Some j) (Some c) w) in
  instance_id (self w') = Some (inst_id i)
  /\ config_instance_id (self w') = config_instance_id (self w).
Proof.
  intros Hl Hlast w'.
  pose proof (IbmVpcProps.lookup_scoped env j c insts w Hl) as Hlook.
  cbv zeta in Hlook. rewrite Hlast in Hlook.
  split.
  - destruct (IbmVpcProps.create_keeps_instance env _ _ _ _ _ Hlook) as [Hid _].
    exact Hid.
  - subst w'. unfold create. rewrite (bind_returns _ _ _ _ _ Hlook).
    match goal with
    | |- context [try_except ?m ?h ?w1] =>
        assert (K : keeps_config (try_except m h))
    end.
    { unfold _create_and_attach_floating_ip, _delete_instance, _generate_name.
      frame ltac:(solve [intros; cbn; auto; congruence]). }
    match goal with
    | |- context [try_except ?m ?h ?w1] => destruct (K w1) as [Kc _]
    end.
    exact Kc.
Qed.

(** X20. After an adoption the floating IP goes to the last listed
    instance, which need not be the adopted one: the loop variable
    [instance] is what [create] passes on.  With no floating IP listed
    and an allocation and an attachment that succeed, [create] returns
    the id of the adopted instance and attaches the new floating IP to
    the first interface of the last listed instance. *)
Theorem create_adoption_attaches_last (j c : string) (insts : list instance)
        (adopted last : instance) (ni0 : interface) (rest : list interface)
        (fip : floating_ip) (w : world client event) :
  env_list_instances env (history w) = inr insts ->
  last_named (scoped_name "instance" j c) insts = Some adopted ->
  last_visited insts = Some last ->
  network_interfaces last = ni0 :: rest ->
  (forall h, env_list_floating_ips env h = inr []) ->
  (forall h p, env_create_floating_ip env h p = inr fip) ->
  fip_target fip = None ->
  (forall h a b d, env_attach_floating_ip env h a b d = None) ->
  fst (create env (Some j) (Some c) w)
  = Returns (Some (inst_id adopted), fip_address fip)
  /\ history (snd (create env (Some j) (Some c) w))
     = (history w
          ++ [ EvListInstances; EvListFloatingIps;
               EvCreateFloatingIp {| fproto_name := scoped_name "fip" j c;
                                     fproto_zone := zone_name (config (self w));
                                     fproto_resource_group :=
                                       resource_group_id (config (self w)) |};
               EvAttachFloatingIp (inst_id last) (ni_id ni0) (fip_id fip) ])%list.
Proof.
  intros Hl Hlast Hvis Hni Hfips Hnew Htarget Hattach.
  pose proof (IbmVpcProps.lookup_scoped env j c insts w Hl) as Hlook.
  cbv zeta in Hlook. rewrite Hlast, Hvis in Hlook.
  unfold create. rewrite (bind_returns _ _ _ _ _ Hlook). cbn [snd].
  unfold try_except, _create_and_attach_floating_ip.
  unfold bind, ret, get_world, try_except, perform_, perform, update_self, modify, log.
  rewrite IbmVpcProps.generate_name_scoped.
  cbn [fst snd self history]. rewrite Hfips. cbn [find_floating_ip fold_left].
  cbn [fst snd self history]. rewrite Hnew.
  unfold already_attached. rewrite Htarget. rewrite Hni. rewrite Hattach.
  cbn [fst snd self history config set_instance_id set_config_ip_address instance_id].
  rewrite <- !app_assoc. split; reflexivity.
Qed.

End Create.


Section Attach.

Variable env : environment.

(** X21. The only exceptions that leave
    [_create_and_attach_floating_ip] are the one of the allocation and
    the [IndexError] of the log message of a failed attachment: the
    exception of the listing is swallowed, and the exception of the
    attachment call itself is never seen by the caller. *)
Theorem attach_exceptions (inst : instance) (job_key call_id : option string)
        (w : world client event) (x : exn) :
  fst (_create_and_attach_floating_ip env inst job_key call_id w) = Raises x ->
  x = FormatIndexError
  \/ exists h p, env_create_floating_ip env h p = inl x.
Proof.
  unfold _create_and_attach_floating_ip, bind, try_except, get_world, perform_, perform,
    ret, raise.
  destruct (_generate_name env "fip" job_key call_id w) as [[n | e |] w1] eqn:Hn.
  2,3: destruct job_key, call_id; discriminate Hn.
  destruct (env_list_floating_ips env (history w1)) as [e | l];
    cbn [fst snd];
    repeat match goal with
           | |- context [match ?t with _ => _ end] =>
               lazymatch t with
               | context [match _ with _ => _ end] => fail
               | _ => destruct t eqn:?
               end
           end;
    cbn [fst]; try discriminate; intros [= <-];
    first [ now left | right; eauto ].
Qed.

(** X22. A listing of the floating IPs that fails is taken for an empty
    one: [_create_and_attach_floating_ip] goes on to allocate a floating
    IP under the derived name. *)
Theorem attach_after_failed_listing (inst : instance) (job_key call_id : option string)
        (w w1 : world client event) (n : string) (e : exn) :
  _generate_name env "fip" job_key call_id w = (Returns n, w1) ->
  env_list_floating_ips env (history w1) = inl e ->
  exists evs,
    history (snd (_create_and_attach_floating_ip env inst job_key call_id w))
    = (history w1
         ++ EvListFloatingIps
         :: EvCreateFloatingIp {| fproto_name := n;
                                  fproto_zone := zone_name (config (self w1));
                                  fproto_resource_group :=
                                    resource_group_id (config (self w1)) |}
         :: evs)%list.
Proof.
  intros Hn Hl. unfold _create_and_attach_floating_ip.
  rewrite (bind_returns _ _ _ _ _ Hn).
  unfold bind, try_except, get_world, perform_, perform, ret, raise, log.
  rewrite Hl. cbn [fst snd self history].
  repeat match goal with
         | |- context [match ?t with _ => _ end] =>
             lazymatch t with
             | context [match _ with _ => _ end] => fail
             | _ => destruct t eqn:?
             end
         end;
    cbn [fst snd self history]; rewrite <- ?app_assoc; cbn [app];
    eexists; reflexivity.
Qed.

End Attach.

Section Keys.

Variable env : environment.

Lemma lstrip_no_slash (s : string) : prefix "/" (lstrip "/" s) = false.
Proof.
  induction s as [|x s IH]; [reflexivity |]. cbn [lstrip].
  destruct (Ascii.eqb_spec x "/") as [-> | Hne]; [exact IH |].
  cbn [prefix]. destruct (ascii_dec "/" x) as [<- | _]; [now elim Hne | reflexivity].
Qed.

Lemma rstrip_no_slash (s : string) : prefix "/" s = false -> prefix "/" (rstrip "/" s) = false.
Proof.
  destruct s as [|x s]; [reflexivity |]. cbn [prefix rstrip].
  destruct (ascii_dec "/" x) as [<- | Hne]; [now destruct s |].
  intros _. destruct (rstrip "/" s).
  - destruct (Ascii.eqb_spec x "/") as [-> | _]; [now elim Hne |].
    cbn [prefix]. destruct (ascii_dec "/" x); [contradiction | reflexivity].
  - cbn [prefix]. destruct (ascii_dec "/" x); [contradiction | reflexivity].
Qed.

Lemma rstrip_no_trailing (c : ascii) (s : string) : ends_with c (rstrip c s) = false.
Proof.
  induction s as [|x s IH]; [reflexivity |]. cbn [rstrip].
  destruct (rstrip c s) as [|y r].
  - destruct (Ascii.eqb x c) eqn:Hx; [reflexivity | exact Hx].
  - exact IH.
Qed.

Lemma ends_with_append (c : ascii) (a b : string) :
  b <> ""%string -> ends_with c (a ++ b) = ends_with c b.
Proof.
  intros Hb. induction a as [|x a IH]; [reflexivity |].
  cbn [append ends_with]. rewrite IH.
  destruct (a ++ b)%string eqn:Hab; [| reflexivity].
  destruct a; [cbn in Hab; contradiction | discriminate Hab].
Qed.

Lemma ends_with_absent (c : ascii) (s : string) : mem c s = false -> ends_with c s = false.
Proof.
  induction s as [|x s IH]; [reflexivity |]. cbn [mem ends_with].
  intros H. apply orb_false_elim in H. destruct H as [Hx Hs].
  destruct s; [| exact (IH Hs)].
  rewrite Ascii.eqb_sym. exact Hx.
Qed.

(** X23. A runtime name cannot reset the runtime key.  The key is the
    path of ['ibm_vpc'], the IP address and the instance id, followed by
    the runtime name, which begins and ends with no slash once it is
    stripped: directly when that path is empty or ends with a slash,
    after one slash otherwise.  For an address and an id that are not
    empty and hold no slash the key is
    ['ibm_vpc/' + ip + '/' + id + '/' + name]. *)
Theorem get_runtime_key_extends (c : client) (ip id runtime_name : string) :
  ip_address c = Some ip -> instance_id c = Some id ->
  let path := path_join "ibm_vpc" [ip; id] in
  let name := strip "/" runtime_name in
  prefix "/" name = false
  /\ ends_with "/" name = false
  /\ (path = ""%string \/ ends_with "/" path = true ->
      get_runtime_key c runtime_name = inr (path ++ name)%string)
  /\ (path <> ""%string -> ends_with "/" path = false ->
      get_runtime_key c runtime_name = inr (path ++ "/" ++ name)%string)
  /\ (ip <> ""%string -> id <> ""%string -> mem "/" ip = false -> mem "/" id = false ->
      get_runtime_key c runtime_name
      = inr ("ibm_vpc/" ++ ip ++ "/" ++ id ++ "/" ++ name)%string).
Proof.
  intros Hip Hid path name.
  assert (Hname : prefix "/" name = false)
    by exact (rstrip_no_slash _ (lstrip_no_slash runtime_name)).
  assert (Hkey : get_runtime_key c runtime_name
                 = inr (if String.eqb path "" || ends_with "/" path
                        then path ++ name else path ++ "/" ++ name)%string).
  { unfold get_runtime_key. rewrite Hip, Hid. unfold path_join. cbn [fold_left].
    fold (path_join "ibm_vpc" [ip; id]). fold path. fold name.
    unfold join_step at 1. now rewrite Hname. }
  split; [exact Hname |].
  split; [exact (rstrip_no_trailing "/" _) |].
  split; [| split].
  - intros [-> | He]; rewrite Hkey; [reflexivity |].
    now rewrite He, orb_true_r.
  - intros Hne He. rewrite Hkey, He.
    apply String.eqb_neq in Hne. now rewrite Hne.
  - intros Hip0 Hid0 Hips Hids.
    assert (Hpath : path = ("ibm_vpc/" ++ ip ++ "/" ++ id)%string).
    { subst path. unfold path_join. cbn [fold_left].
      assert (H1 : join_step "ibm_vpc" ip = ("ibm_vpc/" ++ ip)%string).
      { unfold join_step. now rewrite (prefix_single_absent "/" ip Hips). }
      rewrite H1. unfold join_step.
      rewrite (prefix_single_absent "/" id Hids).
      change ("ibm_vpc/" ++ ip)%string with ("ibm_vpc" ++ "/" ++ ip)%string.
      rewrite <- !append_assoc.
      rewrite (ends_with_append "/" ("ibm_vpc" ++ "/") ip Hip0).
      rewrite (ends_with_absent "/" ip Hips).
      cbn [String.eqb append orb]. now rewrite !append_assoc. }
    rewrite Hkey, Hpath.
    change ("ibm_vpc/" ++ ip ++ "/" ++ id)%string
      with ("ibm_vpc" ++ "/" ++ ip ++ "/" ++ id)%string.
    rewrite <- !append_assoc.
    rewrite (ends_with_append "/" ((("ibm_vpc" ++ "/") ++ ip) ++ "/") id Hid0).
    rewrite (ends_with_absent "/" id Hids).
    cbn [String.eqb append orb]. now rewrite !append_assoc.
Qed.

(** X24. [create] does not give the client its IP address: it writes
    [config['ip_address']] only, so that on a client built without an
    address [get_runtime_key] still raises [TypeError] after any
    [create], returned or not. *)
Theorem get_runtime_key_after_create (job_key call_id : option string)
        (w : world client event) (runtime_name : string) :
  ip_address (self w) = None ->
  get_runtime_key (self (snd (create env job_key call_id w))) runtime_name
  = inl TypeError.
Proof.
  intros Hip. unfold get_runtime_key.
  destruct (create_keeps_ip env job_key call_id w) as [K _].
  now rewrite K, Hip.
Qed.

End Keys.

Section Regions.

(** A piece that lacks the first character of the separator is not cut. *)
Lemma split_from_absent (c : ascii) (sep' s t : string) :
  mem c s = false ->
  split_from 0 (String c sep') (s ++ t)
  = ((s ++ fst (split_from 0 (String c sep') t))%string,
     snd (split_from 0 (String c sep') t)).
Proof.
  intros Hs. induction s as [|x s IH].
  - cbn [append]. now destruct (split_from 0 (String c sep') t).
  - cbn [mem] in Hs. apply orb_false_elim in Hs. destruct Hs as [Hx Hs].
    cbn [append split_from prefix].
    destruct (ascii_dec c x) as [-> | _]; [now rewrite Ascii.eqb_refl in Hx |].
    rewrite (IH Hs). reflexivity.
Qed.

Lemma split_double_slash (s t : string) :
  mem "/" s = false ->
  split "//" (s ++ "//" ++ t)
  = s :: fst (split_from 0 "//" t) :: snd (split_from 0 "//" t).
Proof.
  intros Hs. unfold split. rewrite (split_from_absent "/" "/" s _ Hs).
  cbn [append split_from prefix String.length Nat.sub].
  destruct (ascii_dec "/" "/") as [_ | N]; [| now elim N].
  destruct t as [|y t].
  - cbn [split_from fst snd]. now rewrite append_nil_r.
  - cbn [fst snd]. rewrite append_nil_r.
    now destruct (split_from 0 "//" (String y t)).
Qed.

(** X25. The region is read off the endpoint: for an endpoint made of a
    scheme, ['//'], a region, a dot and the rest of the address, with no
    slash in the scheme and neither slash nor dot in the region,
    [__init__] computes that region. *)
Theorem region_of_endpoint (scheme region rest : string) :
  mem "/" scheme = false -> mem "/" region = false -> mem "." region = false ->
  region_of (scheme ++ "//" ++ region ++ "." ++ rest) = Some region.
Proof.
  intros Hscheme Hslash Hdot. unfold region_of.
  rewrite (split_double_slash scheme _ Hscheme).
  rewrite (split_from_absent "/" "/" region _ Hslash). cbn [fst].
  unfold split. rewrite (split_from_absent "." "" region _ Hdot).
  cbn [hd_error]. f_equal.
  cbn [append split_from prefix].
  destruct (ascii_dec "/" ".") as [N | _]; [discriminate N |].
  destruct (split_from 0 "//" rest) as [h tl]. cbn [fst append split_from prefix].
  destruct (ascii_dec "." ".") as [_ | N]; [| now elim N].
  rewrite prefix_empty_string. cbn [fst]. apply append_nil_r.
Qed.

Lemma split_from_none (s : string) :
  snd (split_from 0 "//" s) = [] <-> index 0 "//" s = None.
Proof.
  induction s as [|x s IH]; [cbn; tauto |].
  cbn [split_from index].
  destruct (prefix "//" (String x s)).
  - destruct (split_from (String.length "//" - 1) "//" s) as [h tl].
    cbn [snd]. split; discriminate.
  - destruct (split_from 0 "//" s) as [h tl]. cbn [snd] in *.
    destruct (index 0 "//" s); destruct IH as [IH1 IH2]; split; intros H.
    + discriminate (IH1 H).
    + discriminate H.
    + reflexivity.
    + exact (IH2 eq_refl).
Qed.

(** X26. [__init__] fails on the region exactly when the endpoint has no
    ['//']: the [IndexError] of [split('//')[1]] is the only failure of
    that line, [split('.')[0]] always exists. *)
Theorem region_of_needs_slashes (endpoint : string) :
  region_of endpoint = None <-> contains "//" endpoint = false.
Proof.
  unfold region_of, contains, split.
  pose proof (split_from_none endpoint) as H.
  destruct (split_from 0 "//" endpoint) as [h tl]. cbn [snd] in H.
  destruct tl as [|host tl].
  - destruct H as [H _]. rewrite (H eq_refl). tauto.
  - destruct (split_from 0 "." host) as [h' tl']. cbn [hd_error].
    destruct (index 0 "//" endpoint).
    + split; discriminate.
    + destruct H as [_ H]. discriminate (H eq_refl).
Qed.

End Regions.

Section Samples.

Import IbmVpcSamples.

(** [pause] is not an action of the client. *)
Lemma create_instance_action_unknown_pause :
  create_instance_action (cloud [] [] [] nothing) 3 "pause" (running false)
  = (Raises (ActionUnknown "pause"), running false).
Proof.
  exact (create_instance_action_unknown (cloud [] [] [] nothing) 3 "pause"
           (running false) eq_refl).
Defined.

(** A [stop] answered with 409 raises with the errors of the answer. *)
Lemma create_instance_action_refused_busy :
  create_instance_action (answering spare_ip busy (cloud [] [] [] nothing))
                         3 "stop" (running false)
  = (Raises (ActionFailed "stop" "instance_busy"),
     {| self := self (running false);
        history := [EvGetToken; EvPostAction "vsi-7" "stop"] |}).
Proof.
  exact (create_instance_action_refused
           (answering spare_ip busy (cloud [] [] [] nothing))
           3 "stop" "stopped" "vsi-7" "instance_busy" (running false) busy
           eq_refl eq_refl eq_refl eq_refl ltac:(discriminate) eq_refl).
Defined.

(** A [stop] of an instance that reports [stopped]. *)
Lemma create_instance_action_reached_stopped :
  exists d expected,
    expected_status "stop" = Some expected
    /\ last_instance_data
         (self (snd (create_instance_action (cloud [] [] [] nothing) 1 "stop"
                                            (running false)))) = Some d
    /\ data_status d = Some expected.
Proof.
  exact (create_instance_action_reached (cloud [] [] [] nothing) 1 "stop"
           (running false) _ eq_refl).
Defined.

(** A [start] of an instance that keeps reporting [stopped]. *)
Lemma create_instance_action_unbounded_start :
  fst (create_instance_action (cloud [] [] [] nothing) 1000 "start" (running false))
  = OutOfFuel.
Proof.
  exact (create_instance_action_unbounded (cloud [] [] [] nothing) 1000 "start"
           "running" "vsi-7" "vsi-7" (running false) done
           {| data_status := Some "stopped" |} "stopped"
           eq_refl eq_refl eq_refl (fun _ => eq_refl) (fun _ => eq_refl) eq_refl
           (fun _ => eq_refl) eq_refl ltac:(discriminate)).
Defined.

(** A cloud that refuses to list its instances. *)
Lemma create_listing_fails_sample :
  create (cloud [vsi7] [] [] (only "list_instances")) (Some "7") (Some "3") (running false)
  = (Raises (ApiException "list_instances"),
     {| self := set_instance_id None (self (running false));
        history := [EvListInstances] |}).
Proof.
  exact (create_listing_fails (cloud [vsi7] [] [] (only "list_instances"))
           (Some "7") (Some "3") (running false) (ApiException "list_instances")
           eq_refl).
Defined.

(** Job 7, call 3 on a cloud that holds its instance and its address. *)
Lemma create_returns_vsi7 :
  let w' := snd (create (cloud [vsi7] [bound_ip] [] nothing) (Some "7") (Some "3")
                        (start0 false)) in
  instance_id (self w') = Some "vsi-7"%string
  /\ Some "vsi-7"%string <> None
  /\ config_ip_address (self w') = Some "203.0.113.7"%string
  /\ ip_address (self w') = None.
Proof.
  exact (create_returns (cloud [vsi7] [bound_ip] [] nothing) (Some "7") (Some "3")
           (start0 false) _ (Some "vsi-7"%string) "203.0.113.7" eq_refl).
Defined.

(** The adoption of [vsi-7] by a client that knew no instance. *)
Lemma create_adoption_keeps_config_vsi7 :
  let w' := snd (create (cloud [vsi7; bystander] [bound_ip] [] nothing)
                        (Some "7") (Some "3") (start0 false)) in
  instance_id (self w') = Some "vsi-7"%string
  /\ config_instance_id (self w') = None.
Proof.
  exact (create_adoption_keeps_config (cloud [vsi7; bystander] [bound_ip] [] nothing)
           "7" "3" [vsi7; bystander] vsi7 (start0 false) eq_refl eq_refl).
Defined.

(** [vsi-7] is adopted, and the address goes to the bystander listed
    after it. *)
Lemma create_adoption_attaches_bystander :
  fst (create (answering spare_ip done (cloud [vsi7; bystander] [] [] nothing))
              (Some "7") (Some "3") (start0 false))
  = Returns (Some "vsi-7"%string, "203.0.113.8"%string)
  /\ history (snd (create (answering spare_ip done
                                     (cloud [vsi7; bystander] [] [] nothing))
                          (Some "7") (Some "3") (start0 false)))
     = [ EvListInstances; EvListFloatingIps;
         EvCreateFloatingIp {| fproto_name := "lithops7-3-fip";
                               fproto_zone := "us-south-3";
                               fproto_resource_group := "rg" |};
         EvAttachFloatingIp "vsi-0" "nic-1" "fip-8" ].
Proof.
  exact (create_adoption_attaches_last
           (answering spare_ip done (cloud [vsi7; bystander] [] [] nothing))
           "7" "3" [vsi7; bystander] vsi7 bystander eth1 [] spare_ip (start0 false)
           eq_refl eq_refl eq_refl eq_refl (fun _ => eq_refl) (fun _ _ => eq_refl)
           eq_refl (fun _ _ _ _ => eq_refl)).
Defined.

(** An attachment that fails shows as the [IndexError] of its message. *)
Lemma attach_exceptions_attach_fails :
  FormatIndexError = FormatIndexError
  \/ exists h p,
       env_create_floating_ip (cloud [] [] [] (only "attach_floating_ip")) h p
       = inl FormatIndexError.
Proof.
  exact (attach_exceptions (cloud [] [] [] (only "attach_floating_ip")) vsi7
           (Some "7") (Some "3") (start0 false) FormatIndexError eq_refl).
Defined.

(** The floating IPs cannot be listed: one is allocated all the same. *)
Lemma attach_after_failed_listing_vsi7 :
  exists evs,
    history (snd (_create_and_attach_floating_ip
                    (cloud [] [] [] (only "list_floating_ips")) vsi7
                    (Some "7") (Some "3") (start0 false)))
    = EvListFloatingIps
      :: EvCreateFloatingIp {| fproto_name := "lithops7-3-fip";
                               fproto_zone := "us-south-3";
                               fproto_resource_group := "rg" |}
      :: evs.
Proof.
  exact (attach_after_failed_listing (cloud [] [] [] (only "list_floating_ips")) vsi7
           (Some "7") (Some "3") (start0 false) (start0 false) "lithops7-3-fip"
           (ApiException "list_floating_ips") eq_refl eq_refl).
Defined.

(** A runtime name given as an absolute path. *)
Lemma get_runtime_key_extends_absolute :
  get_runtime_key reachable "/lithops/py39/"
  = inr ("ibm_vpc/" ++ "203.0.113.7" ++ "/" ++ "vsi-7" ++ "/"
           ++ strip "/" "/lithops/py39/")%string.
Proof.
  exact (proj2 (proj2 (proj2 (proj2
           (get_runtime_key_extends reachable "203.0.113.7" "vsi-7" "/lithops/py39/"
              eq_refl eq_refl))))
           ltac:(discriminate) ltac:(discriminate) eq_refl eq_refl).
Defined.

(** A client built without an address has no runtime key after [create]. *)
Lemma get_runtime_key_after_create_vsi7 :
  get_runtime_key
    (self (snd (create (cloud [vsi7] [bound_ip] [] nothing) (Some "7") (Some "3")
                       (start0 false)))) "lithops/py39"
  = inl TypeError.
Proof.
  exact (get_runtime_key_after_create (cloud [vsi7] [bound_ip] [] nothing)
           (Some "7") (Some "3") (start0 false) "lithops/py39" eq_refl).
Defined.

(** The endpoint of the Dallas region. *)
Lemma region_of_us_south :
  region_of "https://us-south.iaas.cloud.ibm.com" = Some "us-south"%string.
Proof.
  exact (region_of_endpoint "https:" "us-south" "iaas.cloud.ibm.com"
           eq_refl eq_refl eq_refl).
Defined.

End Samples.

End IbmVpcExtra.
